(** * animeScrapper: the content-addressed artifact store and its consumer

    A shallow embedding of the Node scraper ([scraper.js]: [sanitizeFilename],
    [getHash], [processAnimeData], [saveAnime], [createIndex], [processBatch],
    [main]) and of the browser consumer ([app.js] / [watch.js]:
    [sanitizeFilename], [hashString], [loadAnimeData], [renderAnimeDetail]).

    JavaScript strings are sequences of UTF-16 code units and are modelled as
    [list Z]; JavaScript's 32-bit bitwise operators are modelled on [Z] with
    the wrap-around written out. *)

From Stdlib Require Import ZArith List Lia Bool String Ascii Permutation Sorted.
From Stdlib Require DecimalPos.
From stdpp Require Import base list gmap.
Import ListNotations.
Local Open Scope Z_scope.

(** ** JavaScript strings *)

(** A JavaScript string: its UTF-16 code units, each in [0, 65536). *)
Abbreviation jsstring := (list Z).

Definition code_unit (c : Z) : Prop := 0 <= c < 65536.

(** An ASCII literal as a JavaScript string. *)
Definition js (s : string) : jsstring :=
  map (fun a => Z.of_nat (nat_of_ascii a)) (list_ascii_of_string s).

(** [s.substring(0, n)] *)
Definition substring0 (n : nat) (s : jsstring) : jsstring := firstn n s.

(** ** 32-bit integer operators of JavaScript *)

Module Int32.

(** ToInt32 and ToUint32 on an integral Number. *)
Definition to_int32 (x : Z) : Z := (x + 2^31) mod 2^32 - 2^31.
Definition to_uint32 (x : Z) : Z := x mod 2^32.

(** [x & y], [x | y], [x ^ y], [~x]: operands through ToInt32, result an
    int32. *)
Definition and (x y : Z) : Z := to_int32 (Z.land (to_int32 x) (to_int32 y)).
Definition or (x y : Z) : Z := to_int32 (Z.lor (to_int32 x) (to_int32 y)).
Definition xor (x y : Z) : Z := to_int32 (Z.lxor (to_int32 x) (to_int32 y)).
Definition not (x : Z) : Z := to_int32 (Z.lnot (to_int32 x)).

(** [x << n]: the count is taken modulo 32, the result is an int32. *)
Definition shl (x n : Z) : Z := to_int32 (Z.shiftl (to_int32 x) (n mod 32)).

(** [x >>> n]: the operand through ToUint32, the result a uint32. *)
Definition shru (x n : Z) : Z := Z.shiftr (to_uint32 x) (n mod 32).

End Int32.

(** ** The browser's MD5 ([hashString] in app.js / watch.js) *)

Module BrowserMD5.
Import Int32.

(** [function rotateLeft(x, n) { return (x << n) | (x >>> (32 - n)); }] *)
Definition rotateLeft (x n : Z) : Z := or (shl x n) (shru x (32 - n)).

(** [addUnsigned]: 32-bit addition emulated on the two top bits. In
    JavaScript a non-zero number is truthy. *)
Definition addUnsigned (x y : Z) : Z :=
  let x8 := and x 0x80000000 in
  let y8 := and y 0x80000000 in
  let x4 := and x 0x40000000 in
  let y4 := and y 0x40000000 in
  let result := and x 0x3FFFFFFF + and y 0x3FFFFFFF in
  if negb (and x4 y4 =? 0) then xor (xor (xor result 0x80000000) x8) y8
  else if negb (or x4 y4 =? 0) then
    if negb (and result 0x40000000 =? 0)
    then xor (xor (xor result 0xC0000000) x8) y8
    else xor (xor (xor result 0x40000000) x8) y8
  else xor (xor result x8) y8.

Definition F (x y z : Z) : Z := or (and x y) (and (not x) z).
Definition G (x y z : Z) : Z := or (and x z) (and y (not z)).
Definition H (x y z : Z) : Z := xor (xor x y) z.
Definition I (x y z : Z) : Z := xor y (or x (not z)).

Definition FF (a b c d x s ac : Z) : Z :=
  let a := addUnsigned a (addUnsigned (addUnsigned (F b c d) x) ac) in
  addUnsigned (rotateLeft a s) b.
Definition GG (a b c d x s ac : Z) : Z :=
  let a := addUnsigned a (addUnsigned (addUnsigned (G b c d) x) ac) in
  addUnsigned (rotateLeft a s) b.
Definition HH (a b c d x s ac : Z) : Z :=
  let a := addUnsigned a (addUnsigned (addUnsigned (H b c d) x) ac) in
  addUnsigned (rotateLeft a s) b.
Definition II (a b c d x s ac : Z) : Z :=
  let a := addUnsigned a (addUnsigned (addUnsigned (I b c d) x) ac) in
  addUnsigned (rotateLeft a s) b.

(** A JavaScript array of words. A hole of [new Array(n)] and an index
    past the end both read as [undefined], which every use here sends
    through a bitwise operator, that is through ToInt32, to 0: holes are
    stored as 0 and [rd] reads 0 out of range. *)
Definition rd (x : list Z) (i : nat) : Z := default 0 (x !! i).

(** [a[i] = v]: an assignment past the end extends the array. *)
Definition wr (x : list Z) (i : nat) (v : Z) : list Z :=
  if (i <? length x)%nat then <[i := v]> x
  else x ++ replicate (i - length x) 0 ++ [v].

(** The [while (lByteCount < str.length)] loop of [convertToWordArray]:
    [str.charCodeAt(lByteCount)] is ORed into its word at its byte
    position, whatever its size. *)
Fixpoint fill_words (str : jsstring) (lByteCount : nat) (lWordArray : list Z)
  : list Z :=
  match str with
  | [] => lWordArray
  | c :: rest =>
      let lWordArrayIndex := ((lByteCount - lByteCount mod 4) / 4)%nat in
      let lBytePosition := Z.of_nat (lByteCount mod 4) * 8 in
      fill_words rest (S lByteCount)
        (wr lWordArray lWordArrayIndex
           (or (rd lWordArray lWordArrayIndex) (shl c lBytePosition)))
  end.

Definition convertToWordArray (str : jsstring) : list Z :=
  let len := length str in
  let lWordCount := ((((len + 8) - (len + 8) mod 64) / 64 + 1) * 16)%nat in
  let lWordArray := replicate (lWordCount - 1) 0 in
  let lWordArray := fill_words str 0 lWordArray in
  let lByteCount := len in
  let lWordArrayIndex := ((lByteCount - lByteCount mod 4) / 4)%nat in
  let lBytePosition := Z.of_nat (lByteCount mod 4) * 8 in
  let lWordArray :=
    wr lWordArray lWordArrayIndex
      (or (rd lWordArray lWordArrayIndex) (shl 0x80 lBytePosition)) in
  let lWordArray := wr lWordArray (lWordCount - 2) (shl (Z.of_nat len) 3) in
  wr lWordArray (lWordCount - 1) (shru (Z.of_nat len) 29).

(** [val.toString(16)] for [0 <= val < 256], lower case as V8 prints it. *)
Definition hexDigit (d : Z) : Z := if d <? 10 then 48 + d else 87 + d.
Definition toString16 (v : Z) : jsstring :=
  if v <? 16 then [hexDigit v] else [hexDigit (v / 16); hexDigit (v mod 16)].

Definition wordToHex (val : Z) : jsstring :=
  flat_map (fun i =>
              let temp := toString16 (and (shru val (i * 8)) 255) in
              if (length temp =? 1)%nat then 48 :: temp else temp)
           [0; 1; 2; 3].

Definition S11 := 7.
Definition S12 := 12.
Definition S13 := 17.
Definition S14 := 22.
Definition S21 := 5.
Definition S22 := 9.
Definition S23 := 14.
Definition S24 := 20.
Definition S31 := 4.
Definition S32 := 11.
Definition S33 := 16.
Definition S34 := 23.
Definition S41 := 6.
Definition S42 := 10.
Definition S43 := 15.
Definition S44 := 21.

(** The body of the [for (k = 0; k < x.length; k += 16)] loop. *)
Definition block (x : list Z) (k : nat) (s : Z * Z * Z * Z) : Z * Z * Z * Z :=
  let '(a, b, c, d) := s in
  let AA := a in let BB := b in let CC := c in let DD := d in
  let X (i : nat) := rd x (k + i) in
  let a := FF a b c d (X 0%nat) S11 0xD76AA478 in let d := FF d a b c (X 1%nat) S12 0xE8C7B756 in
  let c := FF c d a b (X 2%nat) S13 0x242070DB in let b := FF b c d a (X 3%nat) S14 0xC1BDCEEE in
  let a := FF a b c d (X 4%nat) S11 0xF57C0FAF in let d := FF d a b c (X 5%nat) S12 0x4787C62A in
  let c := FF c d a b (X 6%nat) S13 0xA8304613 in let b := FF b c d a (X 7%nat) S14 0xFD469501 in
  let a := FF a b c d (X 8%nat) S11 0x698098D8 in let d := FF d a b c (X 9%nat) S12 0x8B44F7AF in
  let c := FF c d a b (X 10%nat) S13 0xFFFF5BB1 in let b := FF b c d a (X 11%nat) S14 0x895CD7BE in
  let a := FF a b c d (X 12%nat) S11 0x6B901122 in let d := FF d a b c (X 13%nat) S12 0xFD987193 in
  let c := FF c d a b (X 14%nat) S13 0xA679438E in let b := FF b c d a (X 15%nat) S14 0x49B40821 in
  let a := GG a b c d (X 1%nat) S21 0xF61E2562 in let d := GG d a b c (X 6%nat) S22 0xC040B340 in
  let c := GG c d a b (X 11%nat) S23 0x265E5A51 in let b := GG b c d a (X 0%nat) S24 0xE9B6C7AA in
  let a := GG a b c d (X 5%nat) S21 0xD62F105D in let d := GG d a b c (X 10%nat) S22 0x2441453 in
  let c := GG c d a b (X 15%nat) S23 0xD8A1E681 in let b := GG b c d a (X 4%nat) S24 0xE7D3FBC8 in
  let a := GG a b c d (X 9%nat) S21 0x21E1CDE6 in let d := GG d a b c (X 14%nat) S22 0xC33707D6 in
  let c := GG c d a b (X 3%nat) S23 0xF4D50D87 in let b := GG b c d a (X 8%nat) S24 0x455A14ED in
  let a := GG a b c d (X 13%nat) S21 0xA9E3E905 in let d := GG d a b c (X 2%nat) S22 0xFCEFA3F8 in
  let c := GG c d a b (X 7%nat) S23 0x676F02D9 in let b := GG b c d a (X 12%nat) S24 0x8D2A4C8A in
  let a := HH a b c d (X 5%nat) S31 0xFFFA3942 in let d := HH d a b c (X 8%nat) S32 0x8771F681 in
  let c := HH c d a b (X 11%nat) S33 0x6D9D6122 in let b := HH b c d a (X 14%nat) S34 0xFDE5380C in
  let a := HH a b c d (X 1%nat) S31 0xA4BEEA44 in let d := HH d a b c (X 4%nat) S32 0x4BDECFA9 in
  let c := HH c d a b (X 7%nat) S33 0xF6BB4B60 in let b := HH b c d a (X 10%nat) S34 0xBEBFBC70 in
  let a := HH a b c d (X 13%nat) S31 0x289B7EC6 in let d := HH d a b c (X 0%nat) S32 0xEAA127FA in
  let c := HH c d a b (X 3%nat) S33 0xD4EF3085 in let b := HH b c d a (X 6%nat) S34 0x4881D05 in
  let a := HH a b c d (X 9%nat) S31 0xD9D4D039 in let d := HH d a b c (X 12%nat) S32 0xE6DB99E5 in
  let c := HH c d a b (X 15%nat) S33 0x1FA27CF8 in let b := HH b c d a (X 2%nat) S34 0xC4AC5665 in
  let a := II a b c d (X 0%nat) S41 0xF4292244 in let d := II d a b c (X 7%nat) S42 0x432AFF97 in
  let c := II c d a b (X 14%nat) S43 0xAB9423A7 in let b := II b c d a (X 5%nat) S44 0xFC93A039 in
  let a := II a b c d (X 12%nat) S41 0x655B59C3 in let d := II d a b c (X 3%nat) S42 0x8F0CCC92 in
  let c := II c d a b (X 10%nat) S43 0xFFEFF47D in let b := II b c d a (X 1%nat) S44 0x85845DD1 in
  let a := II a b c d (X 8%nat) S41 0x6FA87E4F in let d := II d a b c (X 15%nat) S42 0xFE2CE6E0 in
  let c := II c d a b (X 6%nat) S43 0xA3014314 in let b := II b c d a (X 13%nat) S44 0x4E0811A1 in
  let a := II a b c d (X 4%nat) S41 0xF7537E82 in let d := II d a b c (X 11%nat) S42 0xBD3AF235 in
  let c := II c d a b (X 2%nat) S43 0x2AD7D2BB in let b := II b c d a (X 9%nat) S44 0xEB86D391 in
  (addUnsigned a AA, addUnsigned b BB, addUnsigned c CC, addUnsigned d DD).

(** The [for] loop itself; [fuel] bounds the number of iterations, and
    [length x] iterations always reach [k >= x.length]. *)
Fixpoint blocks (fuel : nat) (x : list Z) (k : nat) (s : Z * Z * Z * Z)
  : Z * Z * Z * Z :=
  match fuel with
  | O => s
  | S fuel' =>
      if (k <? length x)%nat then blocks fuel' x (k + 16) (block x k s) else s
  end.

Definition md5 (str : jsstring) : jsstring :=
  let x := convertToWordArray str in
  let '(a, b, c, d) :=
    blocks (length x) x 0 (0x67452301, 0xEFCDAB89, 0x98BADCFE, 0x10325476) in
  (* the digits produced by wordToHex are already lower case *)
  wordToHex a ++ wordToHex b ++ wordToHex c ++ wordToHex d.

(** [function hashString(str) { ... return md5(str).substring(0, 8); }] *)
Definition hashString (str : jsstring) : jsstring := substring0 8 (md5 str).

End BrowserMD5.

(** ** MD5 as Node's [crypto] computes it

    [crypto.createHash('md5').update(str).digest('hex')] is library code: the
    string is encoded as UTF-8 and the bytes are digested as RFC 1321
    prescribes. Both steps are written out here, on unsigned 32-bit words. *)

Module NodeCrypto.

Definition is_high_surrogate (c : Z) : bool := (0xD800 <=? c) && (c <=? 0xDBFF).
Definition is_low_surrogate (c : Z) : bool := (0xDC00 <=? c) && (c <=? 0xDFFF).

Definition utf8_of_code_point (cp : Z) : list Z :=
  if cp <? 0x80 then [cp]
  else if cp <? 0x800 then [0xC0 + cp / 64; 0x80 + cp mod 64]
  else if cp <? 0x10000 then
    [0xE0 + cp / 4096; 0x80 + (cp / 64) mod 64; 0x80 + cp mod 64]
  else [0xF0 + cp / 262144; 0x80 + (cp / 4096) mod 64;
        0x80 + (cp / 64) mod 64; 0x80 + cp mod 64].

(** [Buffer.from(str, 'utf8')]: a surrogate pair is one code point, a lone
    surrogate is replaced by U+FFFD. *)
Fixpoint utf8 (s : jsstring) : list Z :=
  match s with
  | [] => []
  | c :: rest =>
      if is_high_surrogate c then
        match rest with
        | c2 :: rest' =>
            if is_low_surrogate c2
            then utf8_of_code_point
                   (0x10000 + (c - 0xD800) * 1024 + (c2 - 0xDC00)) ++ utf8 rest'
            else utf8_of_code_point 0xFFFD ++ utf8 rest
        | [] => utf8_of_code_point 0xFFFD
        end
      else if is_low_surrogate c then utf8_of_code_point 0xFFFD ++ utf8 rest
      else utf8_of_code_point c ++ utf8 rest
  end.

Definition add32 (x y : Z) : Z := (x + y) mod 2^32.
Definition not32 (x : Z) : Z := 2^32 - 1 - x.
Definition rotl32 (x n : Z) : Z :=
  Z.lor (Z.shiftl x n mod 2^32) (Z.shiftr x (32 - n)).

(** RFC 1321, 3.1 and 3.2: a 1 bit, 0 bits up to 56 modulo 64 bytes, then the
    length in bits as 64 bits, low-order byte first. *)
Definition le_bytes (n : nat) (v : Z) : list Z :=
  map (fun i => (v / 256 ^ Z.of_nat i) mod 256) (seq 0 n).

Definition pad (msg : list Z) : list Z :=
  let len := length msg in
  msg ++ [0x80] ++ replicate ((119 - len mod 64) mod 64) 0
      ++ le_bytes 8 ((Z.of_nat len * 8) mod 2^64).

(** Four bytes to a word, low-order byte first. *)
Fixpoint words (bytes : list Z) : list Z :=
  match bytes with
  | b0 :: b1 :: b2 :: b3 :: rest =>
      (b0 + 256 * b1 + 65536 * b2 + 16777216 * b3) :: words rest
  | _ => []
  end.

(** RFC 1321, 3.4: T[i] is the integer part of 4294967296 * abs(sin(i)). *)
Definition T : list Z :=
  [ 0xd76aa478; 0xe8c7b756; 0x242070db; 0xc1bdceee;
    0xf57c0faf; 0x4787c62a; 0xa8304613; 0xfd469501;
    0x698098d8; 0x8b44f7af; 0xffff5bb1; 0x895cd7be;
    0x6b901122; 0xfd987193; 0xa679438e; 0x49b40821;
    0xf61e2562; 0xc040b340; 0x265e5a51; 0xe9b6c7aa;
    0xd62f105d; 0x02441453; 0xd8a1e681; 0xe7d3fbc8;
    0x21e1cde6; 0xc33707d6; 0xf4d50d87; 0x455a14ed;
    0xa9e3e905; 0xfcefa3f8; 0x676f02d9; 0x8d2a4c8a;
    0xfffa3942; 0x8771f681; 0x6d9d6122; 0xfde5380c;
    0xa4beea44; 0x4bdecfa9; 0xf6bb4b60; 0xbebfbc70;
    0x289b7ec6; 0xeaa127fa; 0xd4ef3085; 0x04881d05;
    0xd9d4d039; 0xe6db99e5; 0x1fa27cf8; 0xc4ac5665;
    0xf4292244; 0x432aff97; 0xab9423a7; 0xfc93a039;
    0x655b59c3; 0x8f0ccc92; 0xffeff47d; 0x85845dd1;
    0x6fa87e4f; 0xfe2ce6e0; 0xa3014314; 0x4e0811a1;
    0xf7537e82; 0xbd3af235; 0x2ad7d2bb; 0xeb86d391 ].

Definition shifts : list Z :=
  [ 7; 12; 17; 22; 7; 12; 17; 22; 7; 12; 17; 22; 7; 12; 17; 22;
    5; 9; 14; 20; 5; 9; 14; 20; 5; 9; 14; 20; 5; 9; 14; 20;
    4; 11; 16; 23; 4; 11; 16; 23; 4; 11; 16; 23; 4; 11; 16; 23;
    6; 10; 15; 21; 6; 10; 15; 21; 6; 10; 15; 21; 6; 10; 15; 21 ].

(** The auxiliary function of step [i] and the index of the message word
    it consumes. *)
Definition aux (i : nat) (b c d : Z) : Z :=
  if (i <? 16)%nat then Z.lor (Z.land b c) (Z.land (not32 b) d)
  else if (i <? 32)%nat then Z.lor (Z.land b d) (Z.land c (not32 d))
  else if (i <? 48)%nat then Z.lxor (Z.lxor b c) d
  else Z.lxor c (Z.lor b (not32 d)).

Definition word_index (i : nat) : nat :=
  if (i <? 16)%nat then i
  else if (i <? 32)%nat then ((5 * i + 1) mod 16)%nat
  else if (i <? 48)%nat then ((3 * i + 5) mod 16)%nat
  else ((7 * i) mod 16)%nat.

(** One step: a = b + ((a + aux(b,c,d) + X[k] + T[i]) <<< s), then the
    four registers rotate. *)
Definition step (X : list Z) (s : Z * Z * Z * Z) (i : nat) : Z * Z * Z * Z :=
  let '(a, b, c, d) := s in
  let f := add32 (add32 (add32 a (aux i b c d)) (default 0 (X !! word_index i)))
                 (default 0 (T !! i)) in
  (d, add32 b (rotl32 f (default 0 (shifts !! i))), b, c).

Definition process_block (s : Z * Z * Z * Z) (X : list Z) : Z * Z * Z * Z :=
  let '(a0, b0, c0, d0) := s in
  let '(a, b, c, d) := fold_left (step X) (seq 0 64) s in
  (add32 a0 a, add32 b0 b, add32 c0 c, add32 d0 d).

Fixpoint process (fuel : nat) (s : Z * Z * Z * Z) (ws : list Z)
  : Z * Z * Z * Z :=
  match fuel with
  | O => s
  | S fuel' =>
      match ws with
      | [] => s
      | _ => process fuel' (process_block s (firstn 16 ws)) (skipn 16 ws)
      end
  end.

Definition hex_digit (d : Z) : Z := if d <? 10 then 48 + d else 87 + d.
Definition hex_byte (b : Z) : list Z := [hex_digit (b / 16); hex_digit (b mod 16)].

(** The 16 bytes of the digest: A, B, C, D, each low-order byte first. *)
Definition md5_bytes (msg : list Z) : list Z :=
  let ws := words (pad msg) in
  let '(a, b, c, d) :=
    process (length ws) (0x67452301, 0xefcdab89, 0x98badcfe, 0x10325476) ws in
  le_bytes 4 a ++ le_bytes 4 b ++ le_bytes 4 c ++ le_bytes 4 d.

(** [.digest('hex')]: 32 lower-case hexadecimal characters. *)
Definition md5_hex (msg : list Z) : jsstring := flat_map hex_byte (md5_bytes msg).

(** [crypto.createHash('md5').update(str).digest('hex')] *)
Definition createHash_md5_hex (str : jsstring) : jsstring := md5_hex (utf8 str).

End NodeCrypto.


(** ** Values shared by the scraper and the consumer *)

(** A call either returns or throws an [Error] with a message. *)
Inductive result (A : Type) : Type :=
| Ok (a : A)
| Throw (message : jsstring).
Arguments Ok {A} a.
Arguments Throw {A} message.

(** The characters of the class in the first [replace] of
    [sanitizeFilename]: less-than, greater-than, colon, double quote, slash,
    backslash, vertical bar, question mark and asterisk. *)
Definition is_illegal (c : Z) : bool :=
  existsb (Z.eqb c) [60; 62; 58; 34; 47; 92; 124; 63; 42].

(** The characters [\s] matches, which are also those [trim()] strips:
    TAB, LF, VT, FF, CR, SP, NBSP, U+1680, U+2000..U+200A, U+2028, U+2029,
    U+202F, U+205F, U+3000 and U+FEFF. *)
Definition is_space (c : Z) : bool :=
  existsb (Z.eqb c) [9; 10; 11; 12; 13; 32; 160; 0x1680; 0x2028; 0x2029;
                     0x202F; 0x205F; 0x3000; 0xFEFF]
  || ((0x2000 <=? c) && (c <=? 0x200A)).

(** The first [replace] of [sanitizeFilename]: every character of that
    class is removed. *)
Definition remove_illegal (s : jsstring) : jsstring :=
  filter (fun c => is_illegal c = false) s.

(** [s.replace(/\s+/g, '_')]: every maximal run of white space becomes one
    underscore; [in_run] tells that the previous character was white space. *)
Fixpoint collapse_spaces (in_run : bool) (s : jsstring) : jsstring :=
  match s with
  | [] => []
  | c :: rest =>
      if is_space c
      then (if in_run then collapse_spaces true rest
            else 95 :: collapse_spaces true rest)
      else c :: collapse_spaces false rest
  end.

Fixpoint trim_start (s : jsstring) : jsstring :=
  match s with
  | c :: rest => if is_space c then trim_start rest else s
  | [] => []
  end.

(** [s.trim()] *)
Definition trim (s : jsstring) : jsstring :=
  rev (trim_start (rev (trim_start s))).

(** [String(n)] for an integral Number: its decimal digits. This is what
    JavaScript prints for the safe integers, those between -2^53 and 2^53;
    beyond them a Number is a rounded value, printed with its shortest
    digits and, from 1e21 on, in exponent notation, which is not modelled:
    what is stated of [String_of_number] as a number's text is stated for
    safe integers. *)
Fixpoint uint_digits (u : Decimal.uint) : jsstring :=
  match u with
  | Decimal.Nil => []
  | Decimal.D0 u => 48 :: uint_digits u
  | Decimal.D1 u => 49 :: uint_digits u
  | Decimal.D2 u => 50 :: uint_digits u
  | Decimal.D3 u => 51 :: uint_digits u
  | Decimal.D4 u => 52 :: uint_digits u
  | Decimal.D5 u => 53 :: uint_digits u
  | Decimal.D6 u => 54 :: uint_digits u
  | Decimal.D7 u => 55 :: uint_digits u
  | Decimal.D8 u => 56 :: uint_digits u
  | Decimal.D9 u => 57 :: uint_digits u
  end.

Definition String_of_number (n : Z) : jsstring :=
  match n with
  | Z0 => [48]
  | Zpos p => uint_digits (Pos.to_uint p)
  | Zneg p => 45 :: uint_digits (Pos.to_uint p)
  end.

(** [a || b] where [a] is a string or [undefined]: the empty string and
    [undefined] are falsy. *)
Definition or_str (a b : option jsstring) : option jsstring :=
  match a with
  | Some (_ :: _) => a
  | _ => b
  end.

(** [a || b] where [a] is a Number or [undefined]: 0 and [undefined] are
    falsy. *)
Definition or_num (a b : option Z) : option Z :=
  match a with
  | Some n => if n =? 0 then b else a
  | None => b
  end.

(** [a || b] where [a] is an array or [undefined]: every array is truthy. *)
Definition or_arr {A} (a : option (list A)) (b : list A) : list A :=
  match a with
  | Some l => l
  | None => b
  end.

(** A value interpolated in a template literal. *)
Definition show_str (a : option jsstring) : jsstring :=
  match a with
  | Some s => s
  | None => js "undefined"
  end.

(** [parts.join(sep)] *)
Fixpoint join (sep : jsstring) (parts : list jsstring) : jsstring :=
  match parts with
  | [] => []
  | [p] => p
  | p :: rest => p ++ sep ++ join sep rest
  end.

(** ** The Node scraper (scraper.js) *)

Module Scraper.

(** [CONFIG] *)
Definition animeDir : jsstring := js "../scraped_data/current/anime".
Definition indexFile : jsstring := js "../scraped_data/current/anime_index.json".
Definition concurrency : nat := 5.

Definition sanitizeFilename (title : jsstring) : jsstring :=
  let safe := remove_illegal title in
  let safe := trim (collapse_spaces false safe) in
  substring0 200 safe.

Definition getHash (str : jsstring) : jsstring :=
  substring0 8 (NodeCrypto.createHash_md5_hex str).

(** What the provider returns: an entry of a category listing
    ([basicInfo]), the detailed information of one anime ([detailedInfo])
    and its episodes. A field the provider may leave out is an [option]. *)
Record ProviderEpisode : Type := {
  ep_number : Z;
  ep_id : jsstring;
  ep_title : option jsstring }.

Record BasicInfo : Type := {
  b_id : jsstring;
  b_title : option jsstring;
  b_url : option jsstring;
  b_image : option jsstring;
  b_japaneseTitle : option jsstring;
  b_type : option jsstring;
  b_episodes : option Z;
  b_sub : option Z;
  b_dub : option Z }.

Record DetailedInfo : Type := {
  d_title : option jsstring;
  d_url : option jsstring;
  d_image : option jsstring;
  d_japaneseTitle : option jsstring;
  d_description : option jsstring;
  d_genres : option (list jsstring);
  d_status : option jsstring;
  d_type : option jsstring;
  d_studios : option (list jsstring);
  d_duration : option jsstring;
  d_season : option jsstring;
  d_releaseDate : option jsstring;
  d_producers : option (list jsstring);
  d_rating : option jsstring;
  d_totalEpisodes : option Z;
  d_episodes : option (list ProviderEpisode) }.

(** The documents the scraper writes. *)
Record Episode : Type := {
  episode_number : jsstring;
  episode_id : jsstring;
  episode_title : jsstring;
  has_videos : bool }.

Record Artifact : Type := {
  title : option jsstring;
  animekai_id : jsstring;
  url : option jsstring;
  alternative_titles : jsstring;
  description : jsstring;
  cover_image : option jsstring;
  genres : list jsstring;
  status : jsstring;
  type_ : jsstring;
  studio : jsstring;
  duration : jsstring;
  season : jsstring;
  released : jsstring;
  producers : list jsstring;
  rating : option jsstring;
  total_episodes : Z;
  available_episodes : Z;
  sub_episodes : Z;
  dub_episodes : Z;
  episodes : list Episode;
  scraped_at : jsstring }.

Module Entry.
Record t : Type := {
  title : option jsstring;
  animekai_id : jsstring;
  cover_image : option jsstring;
  status : jsstring;
  type_ : jsstring;
  genres : list jsstring;
  total_episodes : Z;
  available_episodes : Z }.
End Entry.

Module Index.
Record t : Type := {
  total_anime : Z;
  total_episodes : Z;
  last_updated : jsstring;
  anime_list : list Entry.t }.
End Index.

(** A file holds the document that was serialised into it
    ([JSON.stringify] is not modelled), or, after a write that failed once
    the file was open, no document at all: it is empty or cut short
    ([Incomplete]). *)
Inductive Document : Type :=
| ArtifactDoc (a : Artifact)
| IndexDoc (i : Index.t)
| Incomplete.

(** The calls of the [fs] module. The scraper makes no other call than
    [fs.writeFileSync] (and one [fs.mkdirSync] when [main] starts);
    [fs.renameSync] is there to state what a write through a temporary
    file would look like. *)
Inductive FsCall : Type :=
| WriteFileSync (path : jsstring) (doc : Document)
| RenameSync (oldPath newPath : jsstring)
| MkdirSync (path : jsstring).

(** The state a run acts on: the files written, the [fs] calls made (the
    latest last), the lines printed and the number of times the clock has
    been read. *)
Record World : Type := {
  files : gmap jsstring Document;
  fs_calls : list FsCall;
  console : list jsstring;
  now : nat }.

(** Computations that read and write the [World] and may throw; what was
    done before a throw stays done. *)
Definition M (A : Type) : Type := World -> result A * World.

Definition ret {A} (a : A) : M A := fun w => (Ok a, w).
Definition throw {A} (message : jsstring) : M A := fun w => (Throw message, w).
Definition bind {A B} (c : M A) (k : A -> M B) : M B :=
  fun w => match c w with
           | (Ok a, w') => k a w'
           | (Throw e, w') => (Throw e, w')
           end.
(** [try { c } catch (error) { handler(error.message) }] *)
Definition try_catch {A} (c : M A) (handler : jsstring -> M A) : M A :=
  fun w => match c w with
           | (Ok a, w') => (Ok a, w')
           | (Throw e, w') => handler e w'
           end.

Notation "x <- c ;; k" := (bind c (fun x => k))
  (at level 200, c at level 99, right associativity).
Notation "c ;;; k" := (bind c (fun _ => k))
  (at level 200, right associativity).

Section Environment.

(** The provider's [fetchAnimeInfo]: it resolves with the detailed
    information or rejects with an error. *)
Variable provider_fetchAnimeInfo : jsstring -> result DetailedInfo.

(** The provider's [fetchEpisodeSources]: it resolves with the video
    sources of an episode (their URLs) or rejects. *)
Variable provider_fetchEpisodeSources : jsstring -> result (list jsstring).

(** The storage. [fs.writeFileSync(path, data)] opens [path] with the flag
    'w', which creates the file or truncates it, then writes and closes.
    [write_error path] is the error the call throws when writing [path], if
    it throws; [write_opened path] tells whether that happens once the file
    is open, in which case the file is left empty or cut short, or before,
    in which case the path is left as it was. *)
Variable write_error : jsstring -> option jsstring.
Variable write_opened : jsstring -> bool.

(** The clock: [clock n] is the ISO timestamp of its [n]-th reading. *)
Variable clock : nat -> jsstring.

(** [new Date().toISOString()] *)
Definition Date_toISOString : M jsstring :=
  fun w => (Ok (clock (now w)),
            {| files := files w; fs_calls := fs_calls w; console := console w;
               now := S (now w) |}).

Definition console_log (line : jsstring) : M unit :=
  fun w => (Ok tt,
            {| files := files w; fs_calls := fs_calls w;
               console := console w ++ [line]; now := now w |}).

Definition log (message : jsstring) : M unit :=
  timestamp <- Date_toISOString ;;
  console_log (js "[" ++ timestamp ++ js "] " ++ message).

Definition writeFileSync (path : jsstring) (doc : Document) : M unit :=
  fun w =>
    let calls := fs_calls w ++ [WriteFileSync path doc] in
    match write_error path with
    | Some e =>
        (Throw e,
         {| files := if write_opened path then <[path := Incomplete]> (files w)
                     else files w;
            fs_calls := calls; console := console w; now := now w |})
    | None => (Ok tt, {| files := <[path := doc]> (files w); fs_calls := calls;
                         console := console w; now := now w |})
    end.

(** [null] for the detailed information is [None]. *)
Definition fetchAnimeInfo (animeId : jsstring) : M (option DetailedInfo) :=
  try_catch
    (info <- (fun w => (provider_fetchAnimeInfo animeId, w)) ;;
     ret (Some info))
    (fun error_message =>
       log (js "Error fetching info for " ++ animeId ++ js ": " ++ error_message) ;;;
       ret None).

(** Defined by the scraper and called nowhere in it. *)
Definition fetchEpisodeSources (episodeId : jsstring) : M (option (list jsstring)) :=
  try_catch
    (sources <- (fun w => (provider_fetchEpisodeSources episodeId, w)) ;;
     ret (Some sources))
    (fun _ => ret None).

(** The [map] callback of [processAnimeData]. *)
Definition processEpisode (ep : ProviderEpisode) : Episode :=
  {| episode_number :=
       if ep_number ep =? 0 then [] else String_of_number (ep_number ep);
     episode_id := ep_id ep;
     episode_title :=
       match ep_title ep with
       | Some (c :: t) => c :: t
       | _ => js "Episode " ++ String_of_number (ep_number ep)
       end;
     has_videos := true |}.

(** [detailedInfo?.field] *)
Definition opt_field {A} (detailedInfo : option DetailedInfo)
  (field : DetailedInfo -> option A) : option A :=
  match detailedInfo with
  | Some d => field d
  | None => None
  end.

(** The object [processAnimeData] returns, given the timestamp read for
    [scraped_at]. *)
Definition makeArtifact (basicInfo : BasicInfo)
  (detailedInfo : option DetailedInfo) (scraped_at : jsstring) : Artifact :=
  let episodes :=
    map processEpisode (or_arr (opt_field detailedInfo d_episodes) []) in
      {| title := or_str (opt_field detailedInfo d_title) (b_title basicInfo);
         animekai_id := b_id basicInfo;
         url := or_str (b_url basicInfo) (opt_field detailedInfo d_url);
         alternative_titles :=
           default [] (or_str (or_str (opt_field detailedInfo d_japaneseTitle)
                                      (b_japaneseTitle basicInfo)) (Some []));
         description :=
           default [] (or_str (opt_field detailedInfo d_description) (Some []));
         cover_image := or_str (opt_field detailedInfo d_image) (b_image basicInfo);
         genres := or_arr (opt_field detailedInfo d_genres) [];
         status := default [] (or_str (opt_field detailedInfo d_status) (Some []));
         type_ :=
           default [] (or_str (or_str (b_type basicInfo)
                                      (opt_field detailedInfo d_type)) (Some []));
         studio :=
           default [] (or_str (join (js ", ") <$> opt_field detailedInfo d_studios)
                              (Some []));
         duration := default [] (or_str (opt_field detailedInfo d_duration) (Some []));
         season := default [] (or_str (opt_field detailedInfo d_season) (Some []));
         released :=
           default [] (or_str (opt_field detailedInfo d_releaseDate) (Some []));
         producers := or_arr (opt_field detailedInfo d_producers) [];
         rating := or_str (opt_field detailedInfo d_rating) None;
         total_episodes :=
           default 0 (or_num (or_num (opt_field detailedInfo d_totalEpisodes)
                                     (b_episodes basicInfo))
                             (Some (Z.of_nat (length episodes))));
         available_episodes := Z.of_nat (length episodes);
         sub_episodes := default 0 (or_num (b_sub basicInfo) (Some 0));
         dub_episodes := default 0 (or_num (b_dub basicInfo) (Some 0));
         episodes := episodes;
         scraped_at := scraped_at |}.

Definition processAnimeData (basicInfo : BasicInfo)
  (detailedInfo : option DetailedInfo) : M Artifact :=
  scraped_at <- Date_toISOString ;;
  ret (makeArtifact basicInfo detailedInfo scraped_at).

(** The name [saveAnime] builds. [sanitizeFilename(undefined)] throws a
    [TypeError]: [undefined] has no [replace]. *)
Definition saveAnime_filename (animeData : Artifact) : result jsstring :=
  match title animeData with
  | Some t =>
      Ok (sanitizeFilename t ++ js "_" ++ getHash (animekai_id animeData)
            ++ js ".json")
  | None => Throw (js "Cannot read properties of undefined (reading 'replace')")
  end.

Definition saveAnime (animeData : Artifact) : M jsstring :=
  filename <- (fun w => (saveAnime_filename animeData, w)) ;;
  let filepath := animeDir ++ js "/" ++ filename in
  writeFileSync filepath (ArtifactDoc animeData) ;;;
  ret filename.

(** [a.available_episodes || 0] *)
Definition or_zero (n : Z) : Z := if n =? 0 then 0 else n.

Definition index_entry (a : Artifact) : Entry.t :=
  {| Entry.title := title a;
     Entry.animekai_id := animekai_id a;
     Entry.cover_image := cover_image a;
     Entry.status := status a;
     Entry.type_ := type_ a;
     Entry.genres := genres a;
     Entry.total_episodes := total_episodes a;
     Entry.available_episodes := available_episodes a |}.

Definition createIndex (animeList : list Artifact) : M Index.t :=
  last_updated <- Date_toISOString ;;
  let index :=
    {| Index.total_anime := Z.of_nat (length animeList);
       Index.total_episodes :=
         fold_left (fun sum a => sum + or_zero (available_episodes a)) animeList 0;
       Index.last_updated := last_updated;
       Index.anime_list := map index_entry animeList |} in
  writeFileSync indexFile (IndexDoc index) ;;;
  ret index.

(** The body of the [for] loop of [processBatch], with its [try] and
    [catch]: [Some processed] when [results.push(processed)] was reached.
    ([sleep] only lets time pass.) *)
Definition processTarget (anime : BasicInfo) : M (option Artifact) :=
  try_catch
    (log (js "  Fetching info: " ++ show_str (b_title anime)) ;;;
     info <- fetchAnimeInfo (b_id anime) ;;
     processed <- processAnimeData anime info ;;
     saveAnime processed ;;;
     ret (Some processed))
    (fun error_message =>
       log (js "  Error processing " ++ show_str (b_title anime) ++ js ": "
              ++ error_message) ;;;
       ret None).

Fixpoint processBatch_from (results : list Artifact) (batch : list BasicInfo)
  : M (list Artifact) :=
  match batch with
  | [] => ret results
  | anime :: rest =>
      r <- processTarget anime ;;
      processBatch_from (match r with
                         | Some processed => results ++ [processed]
                         | None => results
                         end) rest
  end.

Definition processBatch (batch : list BasicInfo) : M (list Artifact) :=
  processBatch_from [] batch.

End Environment.

(** *** [main]: which targets are processed

    [fetchAnimeList] returns, for each category of [CONFIG.categories], the
    entries the provider listed; [main] works on these lists. *)

(** A JavaScript [Map] from ids to listing entries: its entries in
    insertion order. *)
Definition Map_has (m : list (jsstring * BasicInfo)) (key : jsstring) : bool :=
  existsb (fun e => bool_decide (fst e = key)) m.

Definition Map_set (m : list (jsstring * BasicInfo)) (key : jsstring)
  (value : BasicInfo) : list (jsstring * BasicInfo) :=
  if Map_has m key
  then map (fun e => if bool_decide (fst e = key) then (key, value) else e) m
  else m ++ [(key, value)].

Definition Map_values (m : list (jsstring * BasicInfo)) : list BasicInfo :=
  map snd m.

(** [for (const anime of animeList) if (!allAnime.has(anime.id))
    allAnime.set(anime.id, anime)] *)
Definition collect_list (allAnime : list (jsstring * BasicInfo))
  (animeList : list BasicInfo) : list (jsstring * BasicInfo) :=
  fold_left (fun m anime =>
               if negb (Map_has m (b_id anime)) then Map_set m (b_id anime) anime
               else m)
            animeList allAnime.

(** Step 1 of [main], over the lists of all categories. *)
Definition collect (listings : list (list BasicInfo))
  : list (jsstring * BasicInfo) :=
  fold_left collect_list listings [].

(** [l.slice(start, end)] for [0 <= start]; a negative [end] counts from
    the end of the array. *)
Definition slice {A} (l : list A) (start : nat) (end_ : Z) : list A :=
  let stop := if end_ <? 0 then Z.to_nat (Z.of_nat (length l) + end_)
              else Z.to_nat end_ in
  drop start (take stop l).

(** [if (limit && animeToProcess.length > limit) animeToProcess =
    animeToProcess.slice(0, limit)]; [limit] is [null] for a full scrape. *)
Definition animeToProcess (limit : option Z) (allAnime : list (jsstring * BasicInfo))
  : list BasicInfo :=
  let animeToProcess := Map_values allAnime in
  match limit with
  | Some n =>
      if negb (n =? 0) && (n <? Z.of_nat (length animeToProcess))
      then slice animeToProcess 0 n
      else animeToProcess
  | None => animeToProcess
  end.

(** Step 2 of [main]: the batches handed to [processBatch], one per
    iteration of [for (i = 0; i < animeToProcess.length; i += batchSize)].
    [fuel] bounds the number of iterations. *)
Fixpoint batches_from (fuel : nat) (batchSize : nat) (i : nat)
  (animeToProcess : list BasicInfo) : list (list BasicInfo) :=
  match fuel with
  | O => []
  | S fuel' =>
      if (i <? length animeToProcess)%nat
      then slice animeToProcess i (Z.of_nat (i + batchSize))
             :: batches_from fuel' batchSize (i + batchSize) animeToProcess
      else []
  end.

Definition batches (animeToProcess : list BasicInfo) : list (list BasicInfo) :=
  batches_from (length animeToProcess) concurrency 0 animeToProcess.

End Scraper.

(** ** The browser consumer (app.js, watch.js) *)

Module Browser.

Definition sanitizeFilename (title : jsstring) : jsstring :=
  substring0 200 (trim (collapse_spaces false (remove_illegal title))).

Definition hashString (str : jsstring) : jsstring := BrowserMD5.hashString str.

(** An entry of [anime_index.json] as [loadAnimeData] reads it: the two
    properties it reads, [undefined] when the entry has no such property. *)
Record AnimeInfo : Type := {
  title : option jsstring;
  url : option jsstring }.

(** The entries [createIndex] writes have a [title] and no [url]. *)
Definition read_entry (e : Scraper.Entry.t) : AnimeInfo :=
  {| title := Scraper.Entry.title e; url := None |}.

(** The name [loadAnimeData] fetches. [hashString(undefined)] throws a
    [TypeError] at [str.length], and so does [sanitizeFilename(undefined)]
    at [title.replace]. *)
Definition loadAnimeData_filename (animeInfo : AnimeInfo) : result jsstring :=
  match url animeInfo with
  | None => Throw (js "Cannot read properties of undefined (reading 'length')")
  | Some u =>
      let urlHash := hashString u in
      match title animeInfo with
      | None => Throw (js "Cannot read properties of undefined (reading 'replace')")
      | Some t =>
          let safeTitle := sanitizeFilename t in
          Ok (safeTitle ++ js "_" ++ urlHash ++ js ".json")
      end
  end.

(** [parseInt(s)] with no radix ([None] is [NaN]): leading white space, a
    sign, [0x] or [0X] for radix 16, then the longest run of digits. The
    result is the integer the digits denote, which is the Number
    JavaScript returns when it is a safe integer (below 2^53 in absolute
    value); a longer run of digits is rounded by JavaScript and not
    here. *)
Definition digit_value (c : Z) : option Z :=
  if (48 <=? c) && (c <=? 57) then Some (c - 48)
  else if (97 <=? c) && (c <=? 122) then Some (c - 87)
  else if (65 <=? c) && (c <=? 90) then Some (c - 55)
  else None.

Fixpoint parse_digits (radix : Z) (s : jsstring) (acc : option Z) : option Z :=
  match s with
  | c :: rest =>
      match digit_value c with
      | Some d =>
          if d <? radix
          then parse_digits radix rest (Some (default 0 acc * radix + d))
          else acc
      | None => acc
      end
  | [] => acc
  end.

Definition parseInt (s : jsstring) : option Z :=
  let s := trim_start s in
  let '(sign, s) :=
    match s with
    | 45 :: r => (-1, r)
    | 43 :: r => (1, r)
    | _ => (1, s)
    end in
  let '(radix, s) :=
    match s with
    | 48 :: 120 :: r => (16, r)
    | 48 :: 88 :: r => (16, r)
    | _ => (10, s)
    end in
  Z.mul sign <$> parse_digits radix s None.

(** [parseInt(ep.episode_number) || 0] *)
Definition rank (episode_number : jsstring) : Z :=
  default 0 (or_num (parseInt episode_number) (Some 0)).

(** The comparator of [renderAnimeDetail]. *)
Definition compareEpisodes (a b : Scraper.Episode) : Z :=
  let numA := rank (Scraper.episode_number a) in
  let numB := rank (Scraper.episode_number b) in
  numA - numB.

(** [Array.prototype.sort]: with a consistent comparator the result is the
    stable sorted permutation, which insertion from the right builds. *)
Fixpoint sort_insert {A} (cmp : A -> A -> Z) (x : A) (l : list A) : list A :=
  match l with
  | [] => [x]
  | y :: l' => if cmp x y <=? 0 then x :: l else y :: sort_insert cmp x l'
  end.

Definition Array_sort {A} (cmp : A -> A -> Z) (l : list A) : list A :=
  fold_right (sort_insert cmp) [] l.

(** [const sortedEpisodes = [...episodes].sort(...)] *)
Definition sortedEpisodes (anime : Scraper.Artifact) : list Scraper.Episode :=
  Array_sort compareEpisodes (Scraper.episodes anime).

End Browser.

(** ** Vocabulary of the properties *)

(** A character that may stay in a file name. *)
Definition clean (c : Z) : Prop := is_illegal c = false /\ is_space c = false.

Definition sumZ (l : list Z) : Z := fold_right Z.add 0 l.

(** What an index entry keeps of its artifact. *)
Definition summarises (a : Scraper.Artifact) (e : Scraper.Entry.t) : Prop :=
  Scraper.Entry.title e = Scraper.title a
  /\ Scraper.Entry.animekai_id e = Scraper.animekai_id a
  /\ Scraper.Entry.total_episodes e = Scraper.total_episodes a
  /\ Scraper.Entry.available_episodes e = Scraper.available_episodes a.

(** A run that has not started, and an artifact to run examples on. *)
Definition world0 : Scraper.World :=
  {| Scraper.files := ∅; Scraper.fs_calls := []; Scraper.console := [];
     Scraper.now := 0 |}.

Definition artifact0 : Scraper.Artifact :=
  {| Scraper.title := Some (js "One Piece");
     Scraper.animekai_id := js "one-piece-dk6r";
     Scraper.url := Some (js "https://animekai.to/watch/one-piece-dk6r");
     Scraper.alternative_titles := [];
     Scraper.description := [];
     Scraper.cover_image := None;
     Scraper.genres := [];
     Scraper.status := [];
     Scraper.type_ := js "TV";
     Scraper.studio := [];
     Scraper.duration := [];
     Scraper.season := [];
     Scraper.released := [];
     Scraper.producers := [];
     Scraper.rating := None;
     Scraper.total_episodes := 3;
     Scraper.available_episodes := 3;
     Scraper.sub_episodes := 3;
     Scraper.dub_episodes := 0;
     Scraper.episodes := [];
     Scraper.scraped_at := js "2025-01-01T00:00:00.000Z" |}.

(** Collapsing white space, as a relation between a string and its
    result: reading the string from left to right, every character that is
    not white space is kept and every maximal run of white space is
    replaced by one underscore. *)
Inductive collapsed : jsstring -> jsstring -> Prop :=
| collapsed_nil : collapsed [] []
| collapsed_char (c : Z) (s t : jsstring) :
    is_space c = false -> collapsed s t -> collapsed (c :: s) (c :: t)
| collapsed_run (run s t : jsstring) :
    run <> [] ->
    Forall (fun c => is_space c = true) run ->
    match s with
    | c :: _ => is_space c = false
    | [] => True
    end ->
    collapsed s t -> collapsed (run ++ s) (95 :: t).

(** [artifact0] under another title and id. *)
Definition artifact_named (title id : string) : Scraper.Artifact :=
  {| Scraper.title := Some (js title);
     Scraper.animekai_id := js id;
     Scraper.url := Scraper.url artifact0;
     Scraper.alternative_titles := [];
     Scraper.description := [];
     Scraper.cover_image := None;
     Scraper.genres := [];
     Scraper.status := [];
     Scraper.type_ := js "TV";
     Scraper.studio := [];
     Scraper.duration := [];
     Scraper.season := [];
     Scraper.released := [];
     Scraper.producers := [];
     Scraper.rating := None;
     Scraper.total_episodes := 3;
     Scraper.available_episodes := 3;
     Scraper.sub_episodes := 3;
     Scraper.dub_episodes := 0;
     Scraper.episodes := [];
     Scraper.scraped_at := js "2025-01-01T00:00:00.000Z" |}.

(** The invariant of the [allAnime] map: no key twice, and every entry
    under its own id. *)
Definition well_keyed (m : list (jsstring * Scraper.BasicInfo)) : Prop :=
  NoDup (map fst m) /\ Forall (fun e => fst e = Scraper.b_id (snd e)) m.

(** The episodes are in ascending order of their numeric ordinal, the
    ordinal being read as the consumer reads it ([parseInt], 0 when that
    is [NaN]). *)
Definition sorted_by_ordinal (eps : list Scraper.Episode) : Prop :=
  Sorted (fun a b => Browser.rank (Scraper.episode_number a)
                     <= Browser.rank (Scraper.episode_number b)) eps.

(** An episode has video content when the provider resolves its sources
    and there is at least one. *)
Definition has_video_content
  (provider_fetchEpisodeSources : jsstring -> result (list jsstring))
  (episodeId : jsstring) : bool :=
  match provider_fetchEpisodeSources episodeId with
  | Ok (_ :: _) => true
  | _ => false
  end.

(** What [fetchAnimeInfo] makes of the provider's answer. *)
Definition info_of (answer : result Scraper.DetailedInfo)
  : option Scraper.DetailedInfo :=
  match answer with
  | Ok info => Some info
  | Throw _ => None
  end.

(** The path [saveAnime] writes an artifact to. *)
Definition artifact_path (filename : jsstring) : jsstring :=
  Scraper.animeDir ++ js "/" ++ filename.

(** The error [saveAnime] throws for an artifact, if it throws: the one of
    [sanitizeFilename] on a missing title, or the one of the write. *)
Definition save_error (write_error : jsstring -> option jsstring)
  (a : Scraper.Artifact) : option jsstring :=
  match Scraper.saveAnime_filename a with
  | Throw e => Some e
  | Ok filename => write_error (artifact_path filename)
  end.

(** A document reaches [path] through a temporary file: it is written
    somewhere else and then renamed to [path], and [path] itself is never
    written in place. *)
Definition through_temporary_file (calls : list Scraper.FsCall)
  (path : jsstring) : Prop :=
  (exists tmp doc,
      tmp <> path
      /\ In (Scraper.WriteFileSync tmp doc) calls
      /\ In (Scraper.RenameSync tmp path) calls)
  /\ forall doc, ~ In (Scraper.WriteFileSync path doc) calls.

(** A provider entry, a provider episode and an episode of an artifact,
    with the other fields left out or empty. *)
Definition basic (id title : string) : Scraper.BasicInfo :=
  {| Scraper.b_id := js id; Scraper.b_title := Some (js title);
     Scraper.b_url := None; Scraper.b_image := None;
     Scraper.b_japaneseTitle := None; Scraper.b_type := None;
     Scraper.b_episodes := None; Scraper.b_sub := None; Scraper.b_dub := None |}.

Definition provider_episode (number : Z) (id : string) : Scraper.ProviderEpisode :=
  {| Scraper.ep_number := number; Scraper.ep_id := js id;
     Scraper.ep_title := None |}.

Definition detailed (eps : list Scraper.ProviderEpisode) : Scraper.DetailedInfo :=
  {| Scraper.d_title := None; Scraper.d_url := None; Scraper.d_image := None;
     Scraper.d_japaneseTitle := None; Scraper.d_description := None;
     Scraper.d_genres := None; Scraper.d_status := None; Scraper.d_type := None;
     Scraper.d_studios := None; Scraper.d_duration := None;
     Scraper.d_season := None; Scraper.d_releaseDate := None;
     Scraper.d_producers := None; Scraper.d_rating := None;
     Scraper.d_totalEpisodes := None; Scraper.d_episodes := Some eps |}.

Definition episode (ordinal : string) : Scraper.Episode :=
  {| Scraper.episode_number := js ordinal; Scraper.episode_id := js ordinal;
     Scraper.episode_title := js "Episode"; Scraper.has_videos := true |}.

Definition clock0 : nat -> jsstring := fun _ => js "2025-01-01T00:00:00.000Z".

(** The files a save that throws leaves behind: as they were when
    [sanitizeFilename] throws or the write fails before the file is open;
    with the artifact's own file incomplete, and every other file as it
    was, when the write fails once the file is open. *)
Definition left_by_failed_save (write_opened : jsstring -> bool)
  (a : Scraper.Artifact) (files : gmap jsstring Scraper.Document)
  : gmap jsstring Scraper.Document :=
  match Scraper.saveAnime_filename a with
  | Ok filename =>
      if write_opened (artifact_path filename)
      then <[artifact_path filename := Scraper.Incomplete]> files
      else files
  | Throw _ => files
  end.

(** What happens to one target: a rejection of the provider is logged by
    [fetchAnimeInfo]; the artifact is built from the listing entry and from
    what [fetchAnimeInfo] returned, [null] when the provider rejected; the
    target is dropped, and the error logged, only when saving throws. *)
Definition target_outcome
  (provider_fetchAnimeInfo : jsstring -> result Scraper.DetailedInfo)
  (write_error : jsstring -> option jsstring)
  (write_opened : jsstring -> bool)
  (anime : Scraper.BasicInfo) (w : Scraper.World)
  (r : option Scraper.Artifact) (w' : Scraper.World) : Prop :=
  exists scraped_at,
    let a := Scraper.makeArtifact anime
               (info_of (provider_fetchAnimeInfo (Scraper.b_id anime))) scraped_at in
    match provider_fetchAnimeInfo (Scraper.b_id anime) with
    | Throw e =>
        exists timestamp,
          In (js "[" ++ timestamp ++ js "] "
                ++ (js "Error fetching info for " ++ Scraper.b_id anime
                      ++ js ": " ++ e))
             (Scraper.console w')
    | Ok _ => True
    end
    /\
    match save_error write_error a with
    | Some e =>
        r = None
        /\ Scraper.files w' = left_by_failed_save write_opened a (Scraper.files w)
        /\ exists timestamp,
            last (Scraper.console w')
            = Some (js "[" ++ timestamp ++ js "] "
                      ++ (js "  Error processing "
                            ++ show_str (Scraper.b_title anime) ++ js ": " ++ e))
    | None =>
        r = Some a
        /\ exists filename,
            Scraper.saveAnime_filename a = Ok filename
            /\ Scraper.files w'
               = <[artifact_path filename := Scraper.ArtifactDoc a]> (Scraper.files w)
    end.

(** ** Vocabulary of the further properties *)

(** A lower-case hexadecimal digit. *)
Definition is_hex (c : Z) : Prop := 48 <= c <= 57 \/ 97 <= c <= 102.

(** [allAnime.get(key)] *)
Definition Map_get (m : list (jsstring * Scraper.BasicInfo)) (key : jsstring)
  : option Scraper.BasicInfo :=
  snd <$> find (fun e => bool_decide (fst e = key)) m.

(** The first entry of a listing that carries a given id. *)
Definition first_listed (id : jsstring) (animeList : list Scraper.BasicInfo)
  : option Scraper.BasicInfo :=
  find (fun anime => bool_decide (Scraper.b_id anime = id)) animeList.

(** [artifact0] with other episodes. *)
Definition artifact_with (eps : list Scraper.Episode) : Scraper.Artifact :=
  {| Scraper.title := Scraper.title artifact0;
     Scraper.animekai_id := Scraper.animekai_id artifact0;
     Scraper.url := Scraper.url artifact0;
     Scraper.alternative_titles := [];
     Scraper.description := [];
     Scraper.cover_image := None;
     Scraper.genres := [];
     Scraper.status := [];
     Scraper.type_ := js "TV";
     Scraper.studio := [];
     Scraper.duration := [];
     Scraper.season := [];
     Scraper.released := [];
     Scraper.producers := [];
     Scraper.rating := None;
     Scraper.total_episodes := Z.of_nat (length eps);
     Scraper.available_episodes := Z.of_nat (length eps);
     Scraper.sub_episodes := 0;
     Scraper.dub_episodes := 0;
     Scraper.episodes := eps;
     Scraper.scraped_at := js "2025-01-01T00:00:00.000Z" |}.

(** ** The rest of the scraper: arguments, listings and [main] *)

Module Run.
Import Scraper.

(** [CONFIG] *)
Definition defaultLimit : Z := 100.
Definition categories : list jsstring :=
  [js "tv"; js "movies"; js "ova"; js "ona"; js "specials"].

(** [args.includes(s)] and [args.indexOf(s)], [None] for -1. *)
Definition includes (args : list jsstring) (s : jsstring) : bool :=
  existsb (fun a => bool_decide (a = s)) args.

Fixpoint indexOf (args : list jsstring) (s : jsstring) : option nat :=
  match args with
  | [] => None
  | a :: rest => if bool_decide (a = s) then Some O else S <$> indexOf rest s
  end.

Definition isFullScrape (args : list jsstring) : bool := includes args (js "--full").

(** [limitIndex !== -1 ? parseInt(args[limitIndex + 1]) : null]; [null] and
    [NaN] are both [None], and are both falsy where the value is used.
    [parseInt(undefined)] is [NaN]. The global [parseInt] is the one
    embedded for the consumer. *)
Definition customLimit (args : list jsstring) : option Z :=
  match indexOf args (js "--limit") with
  | Some limitIndex =>
      match args !! S limitIndex with
      | Some a => Browser.parseInt a
      | None => None
      end
  | None => None
  end.

(** [isFullScrape ? null : (customLimit || CONFIG.defaultLimit)] *)
Definition limit (args : list jsstring) : option Z :=
  if isFullScrape args then None
  else or_num (customLimit args) (Some defaultLimit).

(** The listing methods of the provider, and the one the [switch] of
    [fetchAnimeList] picks. *)
Inductive ListingMethod : Type :=
| fetchTV | fetchMovie | fetchOVA | fetchONA | fetchSpecial.

Definition method_of (category : jsstring) : ListingMethod :=
  if bool_decide (category = js "tv") then fetchTV
  else if bool_decide (category = js "movies") then fetchMovie
  else if bool_decide (category = js "ova") then fetchOVA
  else if bool_decide (category = js "ona") then fetchONA
  else if bool_decide (category = js "specials") then fetchSpecial
  else fetchTV.

(** A page of a listing; [results] may be missing. *)
Record Page : Type := {
  results : option (list BasicInfo);
  hasNextPage : bool }.

(** [s.toUpperCase()] for a string of ASCII characters, which the
    categories are. *)
Definition toUpperCase_ascii (s : jsstring) : jsstring :=
  map (fun c => if (97 <=? c) && (c <=? 122) then c - 32 else c) s.

(** How one iteration of the [while] loop of [fetchAnimeList] ends. *)
Inductive Iteration : Type :=
| Iterated (animeList : list BasicInfo) (hasMore : bool).

Section Environment.

Variable provider_fetchAnimeInfo : jsstring -> result DetailedInfo.

(** The provider's listing methods, by page number. *)
Variable provider_fetchList : ListingMethod -> nat -> result Page.

Variable write_error : jsstring -> option jsstring.
Variable write_opened : jsstring -> bool.

(** The error [fs.mkdirSync] throws on a path, if it throws. *)
Variable mkdir_error : jsstring -> option jsstring.

Variable clock : nat -> jsstring.

Definition mkdirSync (path : jsstring) : M unit :=
  fun w =>
    let w' := {| files := files w; fs_calls := fs_calls w ++ [MkdirSync path];
                 console := console w; now := now w |} in
    match mkdir_error path with
    | Some e => (Throw e, w')
    | None => (Ok tt, w')
    end.

(** The [while (hasMore)] loop of [fetchAnimeList], entered with
    [hasMore] true; [None] when it has not ended after [fuel] iterations.
    ([sleep] only lets time pass.) *)
Fixpoint fetchAnimeList_loop (fuel : nat) (category : jsstring)
  (maxPages : option nat) (animeList : list BasicInfo) (page : nat)
  : M (option (list BasicInfo)) :=
  match fuel with
  | O => ret None
  | S fuel' =>
      it <- try_catch
              (data <- (fun w => (provider_fetchList (method_of category) page, w)) ;;
               match results data with
               | None | Some [] => ret (Iterated animeList false)
               | Some rs =>
                   ret (Iterated (animeList ++ rs)
                          (hasNextPage data
                           && match maxPages with
                              | None => true
                              | Some n => (page <? n)%nat
                              end))
               end)
              (fun error_message =>
                 log clock (js "Error fetching " ++ category ++ js " page "
                              ++ String_of_number (Z.of_nat page) ++ js ": "
                              ++ error_message) ;;;
                 ret (Iterated animeList false)) ;;
      match it with
      | Iterated animeList true =>
          fetchAnimeList_loop fuel' category maxPages animeList (S page)
      | Iterated animeList false => ret (Some animeList)
      end
  end.

Definition fetchAnimeList (fuel : nat) (category : jsstring)
  (maxPages : option nat) : M (option (list BasicInfo)) :=
  fetchAnimeList_loop fuel category maxPages [] 1.

(** Step 1 of [main]: the loop over the categories. *)
Fixpoint main_categories (fuel : nat) (full : bool) (cats : list jsstring)
  (allAnime : list (jsstring * BasicInfo))
  : M (option (list (jsstring * BasicInfo))) :=
  match cats with
  | [] => ret (Some allAnime)
  | category :: rest =>
      log clock (js "  Category: " ++ toUpperCase_ascii category) ;;;
      let maxPages := if full then None else Some 3%nat in
      fetched <- fetchAnimeList fuel category maxPages ;;
      match fetched with
      | None => ret None
      | Some animeList =>
          let allAnime := collect_list allAnime animeList in
          log clock (js "    Found: " ++ String_of_number (Z.of_nat (length animeList))
                       ++ js " anime (Total unique: "
                       ++ String_of_number (Z.of_nat (length allAnime)) ++ js ")") ;;;
          main_categories fuel full rest allAnime
      end
  end.

(** Step 2 of [main]: the loop over the batches. *)
Fixpoint main_batches (all : nat) (bs : list (list BasicInfo)) (i : nat)
  (processedAnime : list Artifact) : M (list Artifact) :=
  match bs with
  | [] => ret processedAnime
  | batch :: rest =>
      let progress := Nat.min (i + concurrency) all in
      log clock (10 :: js "  Progress: " ++ String_of_number (Z.of_nat progress)
                   ++ js "/" ++ String_of_number (Z.of_nat all)) ;;;
      results <- processBatch provider_fetchAnimeInfo write_error write_opened clock batch ;;
      main_batches all rest (i + concurrency) (processedAnime ++ results)
  end.

(** [main], for the arguments [args]; [None] when a listing loop has not
    ended after [fuel] iterations. An error it throws is the fatal error
    of the run. *)
Definition main (fuel : nat) (args : list jsstring) : M (option Index.t) :=
  let full := isFullScrape args in
  let limit := limit args in
  log clock (replicate 60 61) ;;;
  log clock (js "InAnime Scraper - Using @consumet/extensions") ;;;
  log clock (js "Mode: "
               ++ (if full then js "FULL"
                   else js "LIMITED (" ++ String_of_number (default 0 limit)
                          ++ js " anime)")) ;;;
  log clock (replicate 60 61) ;;;
  mkdirSync animeDir ;;;
  log clock (10 :: js "[Step 1] Fetching anime list from all categories...") ;;;
  collected <- main_categories fuel full categories [] ;;
  match collected with
  | None => ret None
  | Some allAnime =>
      let all := Map_values allAnime in
      let toProcess := animeToProcess limit allAnime in
      (if match limit with
          | Some n => negb (n =? 0) && (n <? Z.of_nat (length all))
          | None => false
          end
       then log clock (10 :: js "  Limiting to "
                         ++ String_of_number (default 0 limit) ++ js " anime")
       else ret tt) ;;;
      log clock (10 :: js "[Step 2] Processing "
                   ++ String_of_number (Z.of_nat (length toProcess))
                   ++ js " anime...") ;;;
      processedAnime <- main_batches (length toProcess) (batches toProcess) 0 [] ;;
      log clock (10 :: js "[Step 3] Creating index...") ;;;
      index <- createIndex write_error write_opened clock processedAnime ;;
      log clock (10 :: replicate 60 61) ;;;
      log clock (js "SCRAPING COMPLETE") ;;;
      log clock (replicate 60 61) ;;;
      log clock (js "Total anime scraped: "
                   ++ String_of_number (Z.of_nat (length processedAnime))) ;;;
      log clock (js "Total episodes: "
                   ++ String_of_number (Index.total_episodes index)) ;;;
      log clock (js "Output directory: " ++ animeDir) ;;;
      log clock (js "Index file: " ++ indexFile) ;;;
      ret (Some index)
  end.

End Environment.

End Run.

(** The entries a page of a listing contributes: none when the provider
    rejects or the page has no results. *)
Definition page_results
  (provider_fetchList : Run.ListingMethod -> nat -> result Run.Page)
  (method : Run.ListingMethod) (page : nat) : list Scraper.BasicInfo :=
  match provider_fetchList method page with
  | Ok data => default [] (Run.results data)
  | Throw _ => []
  end.

(** A provider with one entry on every page and always a next page, and
    one whose first page is the last. *)
Definition endless_listing : Run.ListingMethod -> nat -> result Run.Page :=
  fun _ _ => Ok {| Run.results := Some [basic "a" "A"]; Run.hasNextPage := true |}.

Definition one_page_listing : Run.ListingMethod -> nat -> result Run.Page :=
  fun _ page =>
    Ok {| Run.results := if (page =? 1)%nat then Some [basic "a" "A"] else None;
          Run.hasNextPage := false |}.

(** ** The rest of the consumer: pages of episodes and navigation *)

Module BrowserUI.

Definition EPISODES_PER_PAGE : Z := 50.

(** [l.slice(start, end)]: a negative bound counts from the end, and both
    are clamped to the array. *)
Definition Array_slice {A} (l : list A) (start end_ : Z) : list A :=
  let len := Z.of_nat (length l) in
  let k := if start <? 0 then Z.max (len + start) 0 else Z.min start len in
  let final := if end_ <? 0 then Z.max (len + end_) 0 else Z.min end_ len in
  drop (Z.to_nat k) (take (Z.to_nat final) l).

(** [l[i]], [undefined] out of range. *)
Definition Array_get {A} (l : list A) (i : Z) : option A :=
  if i <? 0 then None else l !! Z.to_nat i.

(** [Math.ceil(episodes.length / EPISODES_PER_PAGE)] *)
Definition totalPages (episodes : list Scraper.Episode) : Z :=
  (Z.of_nat (length episodes) + EPISODES_PER_PAGE - 1) / EPISODES_PER_PAGE.

(** [renderEpisodes]: the episodes of the current page and, for the
    button at position [idx] of the page, the index it passes to
    [playEpisode]. *)
Definition startIndex (currentEpisodePage : Z) : Z :=
  (currentEpisodePage - 1) * EPISODES_PER_PAGE.

Definition pageEpisodes (episodes : list Scraper.Episode)
  (currentEpisodePage : Z) : list Scraper.Episode :=
  let endIndex := startIndex currentEpisodePage + EPISODES_PER_PAGE in
  Array_slice episodes (startIndex currentEpisodePage) endIndex.

Definition actualIndex (currentEpisodePage : Z) (idx : nat) : Z :=
  startIndex currentEpisodePage + Z.of_nat idx.

(** [goToEpisodePage(page)]: the new [currentEpisodePage]. *)
Definition goToEpisodePage (episodes : list Scraper.Episode)
  (currentEpisodePage page : Z) : Z :=
  if (page <? 1) || (totalPages episodes <? page) then currentEpisodePage
  else page.

(** The episode [playEpisode] plays for an index: that element of the
    sorted episodes of the cached anime, if there is one. *)
Definition playedEpisode (animeData : Scraper.Artifact) (episodeIndex : Z)
  : option Scraper.Episode :=
  Array_get (Browser.sortedEpisodes animeData) episodeIndex.

(** [changeHero(direction)]: the new [currentHeroIndex]; [%] is the
    remainder with the sign of the dividend. *)
Definition changeHero (featuredCount currentHeroIndex direction : Z) : Z :=
  if featuredCount =? 0 then currentHeroIndex
  else Z.rem (currentHeroIndex + direction + featuredCount) featuredCount.

(** [playPrevious()] and [playNext()]: the new [currentEpisodeIndex], which
    [playEpisode] sets to the index it is called with. [animeData] is the
    cache entry of the current anime, if any. *)
Definition playPrevious (currentEpisodeIndex : Z) : Z :=
  if 0 <? currentEpisodeIndex then currentEpisodeIndex - 1
  else currentEpisodeIndex.

Definition playNext (animeData : option Scraper.Artifact)
  (currentEpisodeIndex : Z) : Z :=
  match animeData with
  | Some a =>
      if currentEpisodeIndex
         <? Scraper.or_zero (Z.of_nat (length (Scraper.episodes a))) - 1
      then currentEpisodeIndex + 1
      else currentEpisodeIndex
  | None => currentEpisodeIndex
  end.

End BrowserUI.

(** ** The video endpoint (api/watch.js) *)

Module WatchApi.

Definition corsHeaders : list (jsstring * jsstring) :=
  [ (js "Access-Control-Allow-Origin", js "*");
    (js "Access-Control-Allow-Methods", js "GET, OPTIONS");
    (js "Access-Control-Allow-Headers", js "Content-Type") ].

(** A request: its method and what [new URL(request.url)] gives, the
    query parameters in order or the [TypeError] of an invalid URL. *)
Record Request : Type := {
  method : jsstring;
  searchParams : result (list (jsstring * jsstring)) }.

(** The body of a response, before [JSON.stringify]. *)
Inductive Body : Type :=
| NoBody
| ErrorBody (error : jsstring) (message : option jsstring)
| SourcesBody (sources : list jsstring).

Record Response : Type := {
  status : Z;
  headers : list (jsstring * jsstring);
  body : Body }.

(** [url.searchParams.get(name)]: the first value, or [null]. *)
Fixpoint get (params : list (jsstring * jsstring)) (name : jsstring)
  : option jsstring :=
  match params with
  | [] => None
  | (k, v) :: rest => if bool_decide (k = name) then Some v else get rest name
  end.

Definition jsonHeaders : list (jsstring * jsstring) :=
  corsHeaders ++ [(js "Content-Type", js "application/json")].

Section Provider.

(** The provider's [fetchEpisodeSources(episodeId, undefined, subOrDub)];
    the last argument is [true] for the dubbed sources. *)
Variable provider_fetchEpisodeSources :
  jsstring -> bool -> result (list jsstring).

Definition handler (request : Request) : Response :=
  if bool_decide (method request = js "OPTIONS")
  then {| status := 200; headers := corsHeaders; body := NoBody |}
  else
    match searchParams request with
    | Throw message =>
        {| status := 500; headers := jsonHeaders;
           body := ErrorBody (js "Failed to fetch video sources") (Some message) |}
    | Ok params =>
        let episodeId := get params (js "episodeId") in
        let dub := bool_decide (get params (js "dub") = Some (js "true")) in
        match episodeId with
        | None | Some [] =>
            {| status := 400; headers := jsonHeaders;
               body := ErrorBody (js "episodeId is required") None |}
        | Some id =>
            match provider_fetchEpisodeSources id dub with
            | Ok sources =>
                {| status := 200; headers := jsonHeaders;
                   body := SourcesBody sources |}
            | Throw message =>
                {| status := 500; headers := jsonHeaders;
                   body := ErrorBody (js "Failed to fetch video sources")
                             (Some message) |}
            end
        end
    end.

End Provider.

End WatchApi.

(** ** Vocabulary of the digest comparison *)

(** [addUnsigned] on the unsigned words its arguments stand for. *)
Definition addU (U V : Z) : Z :=
  let x8 := Z.land U 0x80000000 in
  let y8 := Z.land V 0x80000000 in
  let x4 := Z.land U 0x40000000 in
  let y4 := Z.land V 0x40000000 in
  let result := NodeCrypto.add32 (Z.land U 0x3FFFFFFF) (Z.land V 0x3FFFFFFF) in
  if negb (Z.land x4 y4 =? 0) then Z.lxor (Z.lxor (Z.lxor result 0x80000000) x8) y8
  else if negb (Z.lor x4 y4 =? 0) then
    if negb (Z.land result 0x40000000 =? 0)
    then Z.lxor (Z.lxor (Z.lxor result 0xC0000000) x8) y8
    else Z.lxor (Z.lxor (Z.lxor result 0x40000000) x8) y8
  else Z.lxor (Z.lxor result x8) y8.

(** The new register of step [i] of RFC 1321. *)
Definition ref_round (i : nat) (a b c d xk s t : Z) : Z :=
  NodeCrypto.add32 b
    (NodeCrypto.rotl32
       (NodeCrypto.add32
          (NodeCrypto.add32 (NodeCrypto.add32 a (NodeCrypto.aux i b c d)) xk) t)
       s).

(** Byte [i] of a message, 0 past its end, and word [j] of its bytes taken
    four at a time, low-order byte first. *)
Definition byte_at (bs : list Z) (i : nat) : Z := default 0 (bs !! i).
Definition word_at (bs : list Z) (j : nat) : Z :=
  byte_at bs (4 * j) + 256 * byte_at bs (4 * j + 1)
  + 65536 * byte_at bs (4 * j + 2) + 16777216 * byte_at bs (4 * j + 3).
(** * Properties *)

(** The test suite of RFC 1321, appendix A.5. *)
Example md5_rfc_empty :
  NodeCrypto.md5_hex [] = js "d41d8cd98f00b204e9800998ecf8427e".
Proof. vm_compute. reflexivity. Qed.

Example md5_rfc_a :
  NodeCrypto.md5_hex (js "a") = js "0cc175b9c0f1b6a831c399e269772661".
Proof. vm_compute. reflexivity. Qed.

Example md5_rfc_abc :
  NodeCrypto.md5_hex (js "abc") = js "900150983cd24fb0d6963f7d28e17f72".
Proof. vm_compute. reflexivity. Qed.

Example md5_rfc_message_digest :
  NodeCrypto.md5_hex (js "message digest") = js "f96b697d7cb7938d525a2f31aaf161d0".
Proof. vm_compute. reflexivity. Qed.

Example md5_rfc_alphabet :
  NodeCrypto.md5_hex (js "abcdefghijklmnopqrstuvwxyz")
  = js "c3fcd3d76192e4007dfb496cca67e13b".
Proof. vm_compute. reflexivity. Qed.

Example md5_rfc_alnum :
  NodeCrypto.md5_hex
    (js "ABCDEFGHIJKLMNOPQRSTUVWXYZabcdefghijklmnopqrstuvwxyz0123456789")
  = js "d174ab98d277d9f5a5611c2c9f419d9f".
Proof. vm_compute. reflexivity. Qed.

Example md5_rfc_digits :
  NodeCrypto.md5_hex
    (js "12345678901234567890123456789012345678901234567890123456789012345678901234567890")
  = js "57edf4a22be3c955ac49da2e2107b67a".
Proof. vm_compute. reflexivity. Qed.

Example browser_md5_abc :
  BrowserMD5.md5 (js "abc") = js "900150983cd24fb0d6963f7d28e17f72".
Proof. vm_compute. reflexivity. Qed.

Example browser_md5_digits :
  BrowserMD5.md5
    (js "12345678901234567890123456789012345678901234567890123456789012345678901234567890")
  = js "57edf4a22be3c955ac49da2e2107b67a".
Proof. vm_compute. reflexivity. Qed.

(** ** The sanitised title *)

Section Sanitize.

Lemma remove_illegal_legal (s : jsstring) :
  Forall (fun c => is_illegal c = false) (remove_illegal s).
Proof.
  unfold remove_illegal. induction s as [|c s IH]; [constructor|].
  rewrite filter_cons. destruct (decide (is_illegal c = false)); [constructor|]; auto.
Qed.

Lemma collapse_spaces_clean (s : jsstring) : forall in_run,
  Forall (fun c => is_illegal c = false) s ->
  Forall clean (collapse_spaces in_run s).
Proof.
  induction s as [|c s IH]; intros in_run Hs; simpl; [constructor|].
  inversion Hs as [|? ? Hc Hs']; subst.
  destruct (is_space c) eqn:Hsp.
  - destruct in_run; [auto|]. constructor; [split; reflexivity | auto].
  - constructor; [split; assumption | auto].
Qed.

Lemma trim_start_Forall (P : Z -> Prop) (s : jsstring) :
  Forall P s -> Forall P (trim_start s).
Proof.
  induction s as [|c s IH]; intros Hs; simpl; [constructor|].
  destruct (is_space c); [|assumption].
  inversion Hs; subst; auto.
Qed.

Lemma trim_Forall (P : Z -> Prop) (s : jsstring) :
  Forall P s -> Forall P (trim s).
Proof.
  intros Hs. unfold trim.
  apply Forall_rev, trim_start_Forall, Forall_rev, trim_start_Forall, Hs.
Qed.

(** Once no white space is left, [trim()] has nothing to strip. *)
Lemma trim_no_space (s : jsstring) :
  Forall (fun c => is_space c = false) s -> trim s = s.
Proof.
  assert (Hstart : forall t : jsstring,
             Forall (fun c => is_space c = false) t -> trim_start t = t).
  { intros t Ht. destruct Ht as [|c t Hc Ht]; simpl; [reflexivity|].
    now rewrite Hc. }
  intros Hs. unfold trim. rewrite (Hstart s Hs).
  rewrite Hstart by now apply Forall_rev. apply rev_involutive.
Qed.

Lemma collapse_spaces_no_space (s : jsstring) : forall in_run,
  Forall (fun c => is_space c = false) (collapse_spaces in_run s).
Proof.
  induction s as [|c s IH]; intros in_run; simpl; [constructor|].
  destruct (is_space c) eqn:Hsp.
  - destruct in_run; [apply IH|]. constructor; [reflexivity|apply IH].
  - constructor; [exact Hsp|apply IH].
Qed.

(** A string is a run of white space followed by a string that does not
    start with white space. *)
Lemma leading_run (s : jsstring) :
  exists run rest,
    s = run ++ rest
    /\ Forall (fun c => is_space c = true) run
    /\ match rest with
       | c :: _ => is_space c = false
       | [] => True
       end.
Proof.
  induction s as [|c s (run & rest & -> & Hrun & Hrest)].
  - exists [], []. repeat split. constructor.
  - destruct (is_space c) eqn:Hc.
    + exists (c :: run), rest. repeat split; [now constructor | exact Hrest].
    + exists [], (c :: run ++ rest). repeat split; [constructor | exact Hc].
Qed.

Lemma collapse_spaces_in_run (run rest : jsstring) :
  Forall (fun c => is_space c = true) run ->
  match rest with
  | c :: _ => is_space c = false
  | [] => True
  end ->
  collapse_spaces true (run ++ rest) = collapse_spaces false rest.
Proof.
  intros Hrun Hrest. induction Hrun as [|c run Hc _ IH].
  - destruct rest as [|c rest]; [reflexivity|]. cbn. now rewrite Hrest.
  - cbn. now rewrite Hc.
Qed.

Lemma collapse_spaces_collapsed (s : jsstring) :
  collapsed s (collapse_spaces false s).
Proof.
  remember (length s) as n eqn:E. revert s E.
  induction n as [n IH] using lt_wf_ind. intros s ->.
  destruct s as [|c s]; [constructor|].
  destruct (is_space c) eqn:Hc.
  - destruct (leading_run s) as (run & rest & -> & Hrun & Hrest).
    cbn [collapse_spaces]. rewrite Hc.
    rewrite collapse_spaces_in_run by assumption.
    change (c :: run ++ rest) with ((c :: run) ++ rest).
    apply collapsed_run; [discriminate | now constructor | exact Hrest |].
    apply (IH (length rest)); [|reflexivity].
    cbn [length]. rewrite length_app. lia.
  - cbn [collapse_spaces]. rewrite Hc. apply collapsed_char; [exact Hc|].
    apply (IH (length s)); [cbn [length]; lia | reflexivity].
Qed.

Lemma maximal_run_unique (run1 run2 s1 s2 : jsstring) :
  Forall (fun c => is_space c = true) run1 ->
  Forall (fun c => is_space c = true) run2 ->
  match s1 with c :: _ => is_space c = false | [] => True end ->
  match s2 with c :: _ => is_space c = false | [] => True end ->
  run1 ++ s1 = run2 ++ s2 -> run1 = run2 /\ s1 = s2.
Proof.
  intros H1. revert run2. induction H1 as [|c run1 Hc _ IH]; intros run2 H2 Hs1 Hs2 E.
  - destruct H2 as [|d run2 Hd _]; [now split|].
    cbn in E. subst s1. congruence.
  - destruct H2 as [|d run2 Hd H2].
    + cbn in E. subst s2. congruence.
    + cbn in E. injection E as -> E.
      destruct (IH run2 H2 Hs1 Hs2 E) as [-> ->]. now split.
Qed.

Lemma collapsed_unique (s t : jsstring) :
  collapsed s t -> forall t', collapsed s t' -> t' = t.
Proof.
  intros H. induction H as [|c s t Hc Hst IH|run s t Hne Hrun Hs Hst IH];
    intros t' H'.
  - remember (@nil Z) as s0 eqn:E0.
    destruct H' as [|c' s' t0 Hc' H0|run' s' t0 Hne' Hrun' Hs' H0];
      [reflexivity | discriminate |].
    destruct run'; [contradiction|discriminate].
  - remember (c :: s) as s0 eqn:E0.
    destruct H' as [|c' s' t0 Hc' H0|run' s' t0 Hne' Hrun' Hs' H0];
      [discriminate | |].
    + injection E0 as -> ->. f_equal. now apply IH.
    + destruct run' as [|d run']; [contradiction|].
      cbn in E0. injection E0 as -> _.
      apply List.Forall_inv in Hrun'. cbv beta in Hrun'. congruence.
  - remember (run ++ s) as s0 eqn:E0.
    destruct H' as [|c' s' t0 Hc' H0|run' s' t0 Hne' Hrun' Hs' H0].
    + destruct run; [contradiction|discriminate].
    + destruct run as [|d run]; [contradiction|].
      cbn in E0. injection E0 as -> _.
      apply List.Forall_inv in Hrun. cbv beta in Hrun. congruence.
    + destruct (maximal_run_unique run' run s' s Hrun' Hrun Hs' Hs E0) as [-> ->].
      f_equal. now apply IH.
Qed.

End Sanitize.

(** C4. For every title, [sanitizeFilename title] (the scraper's, and the
    consumer's, which is the same function) contains none of the characters
    illegal in file names and no white-space character, and it is at most
    200 code units long; and it is the title itself, transformed so: the
    illegal characters are taken out, every maximal run of white space of
    what remains is replaced by one underscore (which determines the
    result), and the first 200 code units are kept. *)
Theorem sanitizeFilename_safe (title : jsstring) :
  Forall (fun c => is_illegal c = false /\ is_space c = false)
         (Scraper.sanitizeFilename title)
  /\ (length (Scraper.sanitizeFilename title) <= 200)%nat
  /\ Browser.sanitizeFilename title = Scraper.sanitizeFilename title
  /\ exists t,
      collapsed (filter (fun c => is_illegal c = false) title) t
      /\ (forall t', collapsed (filter (fun c => is_illegal c = false) title) t'
                      -> t' = t)
      /\ Scraper.sanitizeFilename title = take 200 t.
Proof.
  split; [|split; [|split]].
  - unfold Scraper.sanitizeFilename, substring0.
    apply Forall_take, (trim_Forall clean), collapse_spaces_clean,
      remove_illegal_legal.
  - unfold Scraper.sanitizeFilename, substring0. rewrite length_take. lia.
  - reflexivity.
  - exists (collapse_spaces false (remove_illegal title)).
    split; [apply collapse_spaces_collapsed|].
    split; [apply collapsed_unique, collapse_spaces_collapsed|].
    unfold Scraper.sanitizeFilename, substring0.
    now rewrite trim_no_space by apply collapse_spaces_no_space.
Qed.

Example sanitizeFilename_example :
  Scraper.sanitizeFilename (js "  Re:Zero -  Starting Life?  ")
  = js "_ReZero_-_Starting_Life_".
Proof. vm_compute. reflexivity. Qed.

(** ** The index *)

Lemma or_zero_id (n : Z) : Scraper.or_zero n = n.
Proof. unfold Scraper.or_zero. destruct (Z.eqb_spec n 0); congruence. Qed.

Lemma fold_available_episodes (l : list Scraper.Artifact) : forall acc,
  fold_left (fun sum a => sum + Scraper.or_zero (Scraper.available_episodes a)) l acc
  = acc + sumZ (map Scraper.available_episodes l).
Proof.
  induction l as [|a l IH]; intros acc; simpl; [lia|].
  rewrite IH, or_zero_id. lia.
Qed.

(** C9. For every list of artifacts, when the index file can be written,
    [createIndex] returns (and stores in the index file) an index whose
    [anime_list] has one entry per artifact, in order, with the artifact's
    title and episode counts, whose [total_anime] is the number of artifacts
    and whose [total_episodes] is the sum of their [available_episodes]. *)
Theorem createIndex_projection
  (write_error : jsstring -> option jsstring)
  (write_opened : jsstring -> bool) (clock : nat -> jsstring)
  (animeList : list Scraper.Artifact) (w : Scraper.World) :
  write_error Scraper.indexFile = None ->
  exists index w',
    Scraper.createIndex write_error write_opened clock animeList w = (Ok index, w')
    /\ Forall2 summarises animeList (Scraper.Index.anime_list index)
    /\ Scraper.Index.total_anime index = Z.of_nat (length animeList)
    /\ Scraper.Index.total_episodes index
       = sumZ (map Scraper.available_episodes animeList)
    /\ Scraper.files w' !! Scraper.indexFile = Some (Scraper.IndexDoc index).
Proof.
  intros Hw.
  unfold Scraper.createIndex, Scraper.bind, Scraper.Date_toISOString,
    Scraper.writeFileSync, Scraper.ret; simpl. rewrite Hw; simpl.
  eexists _, _. split; [reflexivity|]. simpl.
  repeat split.
  - induction animeList as [|a l IH]; simpl; constructor; [|exact IH].
    repeat split.
  - rewrite fold_available_episodes. lia.
  - apply lookup_insert_eq.
Qed.

Lemma createIndex_projection_witness :
  exists index w',
    Scraper.createIndex (fun _ => None) (fun _ => false) (fun _ => js "2025-01-01T00:00:00.000Z")
      [artifact0; artifact0] world0 = (Ok index, w')
    /\ Forall2 summarises [artifact0; artifact0] (Scraper.Index.anime_list index)
    /\ Scraper.Index.total_anime index
       = Z.of_nat (length [artifact0; artifact0])
    /\ Scraper.Index.total_episodes index
       = sumZ (map Scraper.available_episodes [artifact0; artifact0])
    /\ Scraper.files w' !! Scraper.indexFile = Some (Scraper.IndexDoc index).
Proof. apply createIndex_projection. reflexivity. Defined.

(** ** The targets selected by [main] *)

Section Selection.
Import Scraper.

Lemma Map_has_spec (m : list (jsstring * BasicInfo)) (key : jsstring) :
  Map_has m key = true <-> In key (map fst m).
Proof.
  unfold Map_has. rewrite existsb_exists, in_map_iff. split.
  - intros (e & He & Hk). apply bool_decide_eq_true in Hk. eauto.
  - intros (e & Hk & He). exists e. split; [assumption|].
    now apply bool_decide_eq_true.
Qed.

Lemma collect_list_well_keyed (animeList : list BasicInfo) :
  forall m, well_keyed m -> well_keyed (collect_list m animeList).
Proof.
  induction animeList as [|anime l IH]; intros m Hm; simpl; [assumption|].
  apply IH. destruct (Map_has m (b_id anime)) eqn:Hhas; simpl; [assumption|].
  unfold Map_set. rewrite Hhas. destruct Hm as [Hnd Hk]. split.
  - rewrite map_app. simpl. apply NoDup_app. split; [assumption|]. split.
    + intros x Hx Hin. apply list_elem_of_In in Hx.
      apply list_elem_of_In in Hin. destruct Hin as [<-|[]].
      apply Map_has_spec in Hx. congruence.
    + apply NoDup_singleton.
  - apply Forall_app. split; [assumption|]. constructor; [reflexivity|constructor].
Qed.

Lemma collect_well_keyed (listings : list (list BasicInfo)) :
  well_keyed (collect listings).
Proof.
  unfold collect.
  assert (H : forall m, well_keyed m -> well_keyed (fold_left collect_list listings m)).
  { induction listings as [|l ls IH]; intros m Hm; simpl; [assumption|].
    apply IH, collect_list_well_keyed, Hm. }
  apply H. split; constructor.
Qed.

Lemma well_keyed_values (m : list (jsstring * BasicInfo)) :
  well_keyed m -> NoDup (map b_id (Map_values m)).
Proof.
  intros [Hnd Hk]. unfold Map_values. rewrite map_map.
  erewrite map_ext_Forall; [exact Hnd|].
  eapply Forall_impl; [exact Hk|]. intros e He. simpl. now rewrite He.
Qed.

Lemma slice_from_0 {A} (l : list A) (end_ : Z) :
  exists n, slice l 0 end_ = take n l.
Proof. unfold slice. rewrite drop_0. eauto. Qed.

Lemma batches_from_concat (batchSize : nat) (l : list BasicInfo) :
  (0 < batchSize)%nat ->
  forall fuel i, (length l - i <= fuel)%nat ->
  concat (batches_from fuel batchSize i l) = drop i l.
Proof.
  intros Hb. induction fuel as [|fuel IH]; intros i Hi; simpl.
  - symmetry. apply drop_ge. lia.
  - destruct (Nat.ltb_spec i (length l)) as [Hlt|Hge].
    + simpl. rewrite IH by lia. unfold slice.
      destruct (Z.ltb_spec (Z.of_nat (i + batchSize)) 0) as [?|_]; [lia|].
      rewrite Nat2Z.id. apply drop_take_drop. lia.
    + symmetry. apply drop_ge. lia.
Qed.

(** Every listed target is kept when the scrape is not limited. *)
Lemma collect_list_covers (animeList : list BasicInfo) :
  forall m anime,
    In (b_id anime) (map fst m) \/ In anime animeList ->
    In (b_id anime) (map fst (collect_list m animeList)).
Proof.
  induction animeList as [|a l IH]; intros m anime H; simpl.
  - destruct H as [H|[]]. exact H.
  - apply IH. destruct H as [H|[->|H]]; [| |now right].
    + left. destruct (Map_has m (b_id a)) eqn:Hhas; simpl; [exact H|].
      unfold Map_set. rewrite Hhas, map_app. apply in_or_app. now left.
    + left. destruct (Map_has m (b_id anime)) eqn:Hhas; simpl.
      * now apply Map_has_spec.
      * unfold Map_set. rewrite Hhas, map_app. apply in_or_app. right. now left.
Qed.

Lemma collect_covers (listings : list (list BasicInfo)) (l : list BasicInfo)
  (anime : BasicInfo) :
  In l listings -> In anime l -> In (b_id anime) (map fst (collect listings)).
Proof.
  unfold collect.
  assert (H : forall m,
             In (b_id anime) (map fst m) \/ (exists l, In l listings /\ In anime l) ->
             In (b_id anime) (map fst (fold_left collect_list listings m))).
  { induction listings as [|l0 ls IH]; intros m Hm; simpl.
    - destruct Hm as [Hm|(l' & [] & _)]. exact Hm.
    - apply IH. destruct Hm as [Hm|(l' & [->|Hl'] & Ha)].
      + left. apply collect_list_covers. now left.
      + left. apply collect_list_covers. now right.
      + right. eauto. }
  intros Hl Ha. apply H. right. eauto.
Qed.

End Selection.

(** C10. Whatever the category listings contain, the targets [main]
    selects for processing carry each provider id at most once, and the
    batches handed to [processBatch] are these targets, each once and in
    order: no target is processed or saved twice in a run. *)
Theorem main_targets_unique (listings : list (list Scraper.BasicInfo))
  (limit : option Z) :
  let animeToProcess := Scraper.animeToProcess limit (Scraper.collect listings) in
  NoDup (map Scraper.b_id animeToProcess)
  /\ concat (Scraper.batches animeToProcess) = animeToProcess.
Proof.
  intros animeToProcess. split.
  - pose proof (well_keyed_values _ (collect_well_keyed listings)) as Hnd.
    subst animeToProcess. unfold Scraper.animeToProcess.
    destruct limit as [n|]; [|exact Hnd].
    destruct (negb (n =? 0) && (n <? _)); [|exact Hnd].
    destruct (slice_from_0 (Scraper.Map_values (Scraper.collect listings)) n)
      as [k ->].
    rewrite <- firstn_map. exact (sublist_NoDup _ _ Hnd (sublist_take _ k)).
  - unfold Scraper.batches. rewrite batches_from_concat.
    + apply drop_0.
    + unfold Scraper.concurrency. lia.
    + lia.
Qed.

(** ** Sorting by ordinal *)

Section SortByKey.

Context {A : Type} (key : A -> Z).

Let cmp (a b : A) : Z := key a - key b.
Let le (a b : A) : Prop := key a <= key b.

Lemma sort_insert_perm (x : A) (l : list A) :
  Permutation (x :: l) (Browser.sort_insert cmp x l).
Proof.
  induction l as [|y l IH]; simpl; [reflexivity|].
  destruct (cmp x y <=? 0); [reflexivity|].
  rewrite perm_swap. now apply perm_skip.
Qed.

Lemma sort_insert_HdRel (x y : A) (l : list A) :
  le y x -> HdRel le y l -> HdRel le y (Browser.sort_insert cmp x l).
Proof.
  intros Hyx Hl. destruct l as [|z l]; simpl; [now constructor|].
  destruct (cmp x z <=? 0); constructor; [assumption|].
  now inversion Hl.
Qed.

Lemma sort_insert_sorted (x : A) (l : list A) :
  Sorted le l -> Sorted le (Browser.sort_insert cmp x l).
Proof.
  induction 1 as [|y l Hl IH Hhd]; simpl; [repeat constructor|].
  destruct (Z.leb_spec (cmp x y) 0) as [Hxy|Hxy].
  - constructor; [now constructor|]. constructor. unfold le, cmp in *. lia.
  - constructor; [exact IH|]. apply sort_insert_HdRel; [|exact Hhd].
    unfold le, cmp in *. lia.
Qed.

Lemma Array_sort_perm (l : list A) : Permutation l (Browser.Array_sort cmp l).
Proof.
  induction l as [|x l IH]; simpl; [reflexivity|].
  rewrite <- sort_insert_perm. now apply perm_skip.
Qed.

Lemma Array_sort_sorted (l : list A) : Sorted le (Browser.Array_sort cmp l).
Proof.
  induction l as [|x l IH]; simpl; [constructor|].
  now apply sort_insert_sorted.
Qed.

End SortByKey.

Lemma sortedEpisodes_sorted (anime : Scraper.Artifact) :
  sorted_by_ordinal (Browser.sortedEpisodes anime)
  /\ Permutation (Scraper.episodes anime) (Browser.sortedEpisodes anime).
Proof.
  split.
  - apply (Array_sort_sorted (fun ep => Browser.rank (Scraper.episode_number ep))).
  - apply (Array_sort_perm (fun ep => Browser.rank (Scraper.episode_number ep))).
Qed.

(** C8, as stated: the comparator does not order the ordinals 2, 1, 10, x
    as 1, 2, 10, x. *)
Lemma sort_fixture_not_x_last :
  map Scraper.episode_number
      (Browser.Array_sort Browser.compareEpisodes
         [episode "2"; episode "1"; episode "10"; episode "x"])
  <> [js "1"; js "2"; js "10"; js "x"].
Proof. vm_compute. discriminate. Qed.

(** C8, amended. Sorting the ordinals 2, 1, 10, x with the episode
    comparator gives x, 1, 2, 10: x does not parse, ranks 0 and comes
    first. *)
Theorem sort_fixture_x_first :
  map Scraper.episode_number
      (Browser.Array_sort Browser.compareEpisodes
         [episode "2"; episode "1"; episode "10"; episode "x"])
  = [js "x"; js "1"; js "2"; js "10"]
  /\ map Browser.rank [js "x"; js "1"; js "2"; js "10"] = [0; 1; 2; 10].
Proof. split; vm_compute; reflexivity. Qed.

(** ** What [processAnimeData] derives *)

Lemma processAnimeData_returns (clock : nat -> jsstring)
  (basicInfo : Scraper.BasicInfo) (detailedInfo : option Scraper.DetailedInfo)
  (w : Scraper.World) :
  Scraper.processAnimeData clock basicInfo detailedInfo w
  = (Ok (Scraper.makeArtifact basicInfo detailedInfo (clock (Scraper.now w))),
     {| Scraper.files := Scraper.files w; Scraper.fs_calls := Scraper.fs_calls w;
        Scraper.console := Scraper.console w; Scraper.now := S (Scraper.now w) |}).
Proof. reflexivity. Qed.

(** C5, as stated: an episode the provider has no video for is flagged
    [has_videos] all the same. *)
Lemma has_videos_ignores_content :
  let no_sources : jsstring -> result (list jsstring) :=
    fun _ => Throw (js "No sources") in
  exists a w' ep,
    Scraper.processAnimeData clock0 (basic "x" "X")
      (Some (detailed [provider_episode 1 "x-ep-1"])) world0 = (Ok a, w')
    /\ In ep (Scraper.episodes a)
    /\ Scraper.has_videos ep = true
    /\ has_video_content no_sources (Scraper.episode_id ep) = false
    /\ fst (Scraper.fetchEpisodeSources no_sources (Scraper.episode_id ep) w')
       = Ok None.
Proof.
  intros no_sources. eexists _, _, _. split; [reflexivity|].
  simpl. split; [left; reflexivity|]. repeat split.
Qed.

(** C5, amended. Every artifact [processAnimeData] produces has
    [available_episodes] equal to the length of its [episodes] array, which
    has one episode per episode the provider listed; the [has_videos] flag
    of every episode is the constant [true]. *)
Theorem processAnimeData_derived_fields (clock : nat -> jsstring)
  (basicInfo : Scraper.BasicInfo) (detailedInfo : option Scraper.DetailedInfo)
  (w : Scraper.World) :
  exists a w',
    Scraper.processAnimeData clock basicInfo detailedInfo w = (Ok a, w')
    /\ Scraper.available_episodes a = Z.of_nat (length (Scraper.episodes a))
    /\ length (Scraper.episodes a)
       = length (or_arr (Scraper.opt_field detailedInfo Scraper.d_episodes) [])
    /\ Forall (fun ep => Scraper.has_videos ep = true) (Scraper.episodes a).
Proof.
  eexists _, _. split; [apply processAnimeData_returns|]. simpl.
  split; [reflexivity|]. split; [apply length_map|].
  apply Forall_map, Forall_forall. reflexivity.
Qed.

(** ** Saving an artifact *)

Section Saving.

Context (write_error : jsstring -> option jsstring)
        (write_opened : jsstring -> bool).

Lemma saveAnime_saved (a : Scraper.Artifact) (filename : jsstring)
  (w : Scraper.World) :
  Scraper.saveAnime_filename a = Ok filename ->
  write_error (artifact_path filename) = None ->
  Scraper.saveAnime write_error write_opened a w
  = (Ok filename,
     {| Scraper.files :=
          <[artifact_path filename := Scraper.ArtifactDoc a]> (Scraper.files w);
        Scraper.fs_calls :=
          Scraper.fs_calls w
            ++ [Scraper.WriteFileSync (artifact_path filename) (Scraper.ArtifactDoc a)];
        Scraper.console := Scraper.console w;
        Scraper.now := Scraper.now w |}).
Proof.
  intros Hf Hw. unfold Scraper.saveAnime, Scraper.bind, Scraper.writeFileSync.
  rewrite Hf. fold (artifact_path filename). rewrite Hw. reflexivity.
Qed.

Lemma saveAnime_throws (a : Scraper.Artifact) (e : jsstring) (w : Scraper.World) :
  save_error write_error a = Some e ->
  exists w',
    Scraper.saveAnime write_error write_opened a w = (Throw e, w')
    /\ Scraper.files w' = left_by_failed_save write_opened a (Scraper.files w)
    /\ Scraper.console w' = Scraper.console w.
Proof.
  unfold save_error, left_by_failed_save, Scraper.saveAnime, Scraper.bind,
    Scraper.writeFileSync.
  destruct (Scraper.saveAnime_filename a) as [filename|e'].
  - fold (artifact_path filename). intros ->. eexists. repeat split.
  - intros [= ->]. eexists. repeat split.
Qed.

End Saving.

(** C6, as stated: [saveAnime] writes the artifact in place, not through a
    temporary file. *)
Lemma saveAnime_not_through_temporary_file :
  exists w',
    Scraper.saveAnime (fun _ => None) (fun _ => false) artifact0 world0
    = (Ok (js "One_Piece_a68ae9df.json"), w')
    /\ ~ through_temporary_file (Scraper.fs_calls w')
          (artifact_path (js "One_Piece_a68ae9df.json")).
Proof.
  eexists. split.
  - apply saveAnime_saved; [vm_compute; reflexivity | reflexivity].
  - cbn [Scraper.fs_calls world0 app]. intros [_ Hnot].
    apply (Hnot (Scraper.ArtifactDoc artifact0)). left. reflexivity.
Qed.

(** C6, amended. Every artifact that is saved is written by one call of
    [fs.writeFileSync], on the artifact's final path; [saveAnime] writes no
    temporary file and renames nothing, and after it the file holds the
    document. *)
Theorem saveAnime_writes_in_place (write_error : jsstring -> option jsstring)
  (write_opened : jsstring -> bool)
  (a : Scraper.Artifact) (filename : jsstring) (w : Scraper.World) :
  Scraper.saveAnime_filename a = Ok filename ->
  write_error (artifact_path filename) = None ->
  exists w',
    Scraper.saveAnime write_error write_opened a w = (Ok filename, w')
    /\ Scraper.fs_calls w'
       = Scraper.fs_calls w
           ++ [Scraper.WriteFileSync (artifact_path filename) (Scraper.ArtifactDoc a)]
    /\ Scraper.files w' !! artifact_path filename = Some (Scraper.ArtifactDoc a).
Proof.
  intros Hf Hw. eexists. split; [now apply saveAnime_saved|]. simpl.
  split; [reflexivity|]. apply lookup_insert_eq.
Qed.

Lemma saveAnime_writes_in_place_witness :
  exists w',
    Scraper.saveAnime (fun _ => None) (fun _ => false) artifact0 world0
    = (Ok (js "One_Piece_a68ae9df.json"), w')
    /\ Scraper.fs_calls w'
       = Scraper.fs_calls world0
           ++ [Scraper.WriteFileSync (artifact_path (js "One_Piece_a68ae9df.json"))
                 (Scraper.ArtifactDoc artifact0)]
    /\ Scraper.files w' !! artifact_path (js "One_Piece_a68ae9df.json")
       = Some (Scraper.ArtifactDoc artifact0).
Proof.
  apply saveAnime_writes_in_place; [vm_compute; reflexivity | reflexivity].
Defined.

(** ** Processing a batch *)

Section Batch.

Context (provider_fetchAnimeInfo : jsstring -> result Scraper.DetailedInfo)
        (write_error : jsstring -> option jsstring)
        (write_opened : jsstring -> bool)
        (clock : nat -> jsstring).

Let processTarget := Scraper.processTarget provider_fetchAnimeInfo write_error write_opened clock.
Let processBatch := Scraper.processBatch provider_fetchAnimeInfo write_error write_opened clock.

Lemma log_returns (message : jsstring) (w : Scraper.World) :
  Scraper.log clock message w
  = (Ok tt,
     {| Scraper.files := Scraper.files w; Scraper.fs_calls := Scraper.fs_calls w;
        Scraper.console :=
          Scraper.console w ++ [js "[" ++ clock (Scraper.now w) ++ js "] " ++ message];
        Scraper.now := S (Scraper.now w) |}).
Proof. reflexivity. Qed.

Lemma fetchAnimeInfo_returns (animeId : jsstring) (w : Scraper.World) :
  exists w',
    Scraper.fetchAnimeInfo provider_fetchAnimeInfo clock animeId w
    = (Ok (info_of (provider_fetchAnimeInfo animeId)), w')
    /\ Scraper.files w' = Scraper.files w
    /\ Scraper.fs_calls w' = Scraper.fs_calls w
    /\ match provider_fetchAnimeInfo animeId with
       | Ok _ => w' = w
       | Throw e =>
           Scraper.console w'
           = Scraper.console w
               ++ [js "[" ++ clock (Scraper.now w) ++ js "] "
                     ++ (js "Error fetching info for " ++ animeId ++ js ": " ++ e)]
       end.
Proof.
  unfold Scraper.fetchAnimeInfo, Scraper.try_catch, Scraper.bind.
  destruct (provider_fetchAnimeInfo animeId) as [info|e]; simpl info_of.
  - exists w. repeat split.
  - rewrite log_returns. eexists. split; [reflexivity|]. repeat split.
Qed.

Lemma processTarget_outcome (anime : Scraper.BasicInfo) (w : Scraper.World) :
  exists r w',
    processTarget anime w = (Ok r, w')
    /\ target_outcome provider_fetchAnimeInfo write_error write_opened anime w r w'.
Proof.
  unfold processTarget, Scraper.processTarget, Scraper.try_catch.
  unfold Scraper.bind at 1. rewrite log_returns. cbv beta iota.
  unfold Scraper.bind at 1.
  match goal with |- context [Scraper.fetchAnimeInfo _ _ _ ?w0] => set (w1 := w0) end.
  destruct (fetchAnimeInfo_returns (Scraper.b_id anime) w1)
    as (w2 & -> & Hfiles2 & Hcalls2 & Hlog2). cbv beta iota.
  unfold Scraper.bind at 1. rewrite processAnimeData_returns. cbv beta iota.
  set (a := Scraper.makeArtifact anime _ _).
  unfold Scraper.bind at 1.
  match goal with |- context [Scraper.saveAnime _ _ _ ?w0] => set (w3 := w0) end.
  assert (Hfetch :
    forall w4, (exists l, Scraper.console w4 = Scraper.console w3 ++ l) ->
    match provider_fetchAnimeInfo (Scraper.b_id anime) with
    | Throw e =>
        exists timestamp,
          In (js "[" ++ timestamp ++ js "] "
                ++ (js "Error fetching info for " ++ Scraper.b_id anime
                      ++ js ": " ++ e))
             (Scraper.console w4)
    | Ok _ => True
    end).
  { intros w4 [l Hl].
    destruct (provider_fetchAnimeInfo (Scraper.b_id anime)) as [|e]; [exact Logic.I|].
    eexists. rewrite Hl. subst w3. cbn [Scraper.console]. rewrite Hlog2.
    apply in_or_app. left. apply in_or_app. right. left. reflexivity. }
  destruct (save_error write_error a) as [e|] eqn:He.
  - destruct (saveAnime_throws write_error write_opened a e w3 He) as (w4 & -> & Hfiles4 & Hcons4).
    cbv beta iota. unfold Scraper.bind at 1. rewrite log_returns. cbv beta iota.
    unfold Scraper.ret. eexists _, _. split; [reflexivity|].
    unfold target_outcome. exists (clock (Scraper.now w2)). fold a. cbv zeta. rewrite He. split.
    { apply Hfetch. eexists. cbn [Scraper.console]. rewrite Hcons4. reflexivity. }
    split; [reflexivity|]. split.
    { cbn [Scraper.files]. rewrite Hfiles4. subst w3. cbn [Scraper.files].
      rewrite Hfiles2. reflexivity. }
    eexists. cbn [Scraper.console]. apply last_snoc.
  - unfold save_error in He.
    destruct (Scraper.saveAnime_filename a) as [filename|] eqn:Hf; [|discriminate].
    rewrite (saveAnime_saved write_error write_opened a filename w3 Hf He). cbv beta iota.
    unfold Scraper.ret. eexists _, _. split; [reflexivity|].
    unfold target_outcome. exists (clock (Scraper.now w2)). fold a. cbv zeta. unfold save_error. rewrite Hf, He. split.
    { apply Hfetch. exists []. cbn [Scraper.console]. now rewrite app_nil_r. }
    split; [reflexivity|]. exists filename. split; [reflexivity|].
    cbn [Scraper.files]. subst w3. cbn [Scraper.files]. rewrite Hfiles2. reflexivity.
Qed.

Lemma processBatch_from_returns (batch : list Scraper.BasicInfo) :
  forall results w,
  exists more w',
    Scraper.processBatch_from provider_fetchAnimeInfo write_error write_opened clock
      results batch w = (Ok (results ++ more), w')
    /\ processBatch batch w = (Ok more, w').
Proof.
  unfold processBatch, Scraper.processBatch.
  induction batch as [|anime rest IH]; intros results w;
    cbn [Scraper.processBatch_from].
  - exists [], w. rewrite app_nil_r. split; reflexivity.
  - unfold Scraper.bind.
    destruct (processTarget_outcome anime w) as (r & w1 & Hr & _).
    unfold processTarget in Hr. rewrite Hr.
    destruct (IH (match r with Some p => results ++ [p] | None => results end) w1)
      as (more & w' & H1 & H2).
    destruct (IH (match r with Some p => [] ++ [p] | None => [] end) w1)
      as (more' & w'' & H1' & H2').
    rewrite H2 in H2'. injection H2' as <- <-.
    exists (option_list r ++ more), w'. rewrite H1, H1'.
    destruct r; cbn [option_list app]; rewrite <- ?app_assoc; split; reflexivity.
Qed.

Lemma processBatch_cons (anime : Scraper.BasicInfo) (rest : list Scraper.BasicInfo)
  (w : Scraper.World) :
  exists r w1 more w2,
    processTarget anime w = (Ok r, w1)
    /\ target_outcome provider_fetchAnimeInfo write_error write_opened anime w r w1
    /\ processBatch rest w1 = (Ok more, w2)
    /\ processBatch (anime :: rest) w = (Ok (option_list r ++ more), w2).
Proof.
  destruct (processTarget_outcome anime w) as (r & w1 & Hr & Hout).
  destruct (processBatch_from_returns rest
              (match r with Some p => [] ++ [p] | None => [] end) w1)
    as (more & w2 & H1 & H2).
  exists r, w1, more, w2. split; [exact Hr|]. split; [exact Hout|].
  split; [exact H2|].
  unfold processBatch, Scraper.processBatch. cbn [Scraper.processBatch_from].
  unfold Scraper.bind. unfold processTarget in Hr. rewrite Hr, H1. now destruct r.
Qed.

Lemma processBatch_app (pre post : list Scraper.BasicInfo) : forall w,
  exists results1 w1 results2 w2,
    processBatch pre w = (Ok results1, w1)
    /\ processBatch post w1 = (Ok results2, w2)
    /\ processBatch (pre ++ post) w = (Ok (results1 ++ results2), w2).
Proof.
  induction pre as [|anime pre IH]; intros w.
  - destruct (processBatch_from_returns post [] w) as (more & w' & _ & H).
    exists [], w, more, w'. repeat split; assumption.
  - destruct (processBatch_cons anime pre w) as (r & w1 & more & w2 & Hr & _ & Hpre & Hcons).
    destruct (IH w1) as (r1 & w1' & r2 & w2' & H1 & H2 & H3).
    rewrite Hpre in H1. injection H1 as <- <-.
    destruct (processBatch_cons anime (pre ++ post) w)
      as (r' & w1'' & more' & w3 & Hr' & _ & Hrest & Hall).
    rewrite Hr in Hr'. injection Hr' as <- <-.
    rewrite H3 in Hrest. injection Hrest as <- <-.
    exists (option_list r ++ more), w2, r2, w2'.
    split; [exact Hcons|]. split; [exact H2|].
    cbn [app]. rewrite Hall, app_assoc. reflexivity.
Qed.

End Batch.

(** C7, as stated: a target whose fetch throws is not omitted from the
    results. The provider rejects, [fetchAnimeInfo] logs that and returns
    [null], and the target is saved from its listing entry alone, without
    episodes, and pushed to the results. *)
Lemma fetch_failure_not_omitted :
  let provider : jsstring -> result Scraper.DetailedInfo :=
    fun _ => Throw (js "timeout") in
  exists a w',
    Scraper.processBatch provider (fun _ => None) (fun _ => false) clock0 [basic "x" "X"] world0
    = (Ok [a], w')
    /\ Scraper.animekai_id a = js "x"
    /\ Scraper.episodes a = []
    /\ Scraper.fs_calls w'
       = [Scraper.WriteFileSync (artifact_path (js "X_9dd4e461.json"))
            (Scraper.ArtifactDoc a)]
    /\ nth 1 (Scraper.console w') []
       = js "[2025-01-01T00:00:00.000Z] Error fetching info for x: timeout".
Proof.
  intros provider.
  exists (Scraper.makeArtifact (basic "x" "X") None (clock0 2%nat)),
    (snd (Scraper.processBatch provider (fun _ => None) (fun _ => false) clock0 [basic "x" "X"]
            world0)).
  split; [vm_compute; reflexivity|]. split; [vm_compute; reflexivity|].
  split; [vm_compute; reflexivity|]. split; vm_compute; reflexivity.
Qed.

(** C7, amended. In every batch, whatever happens to one target, the
    targets before and after it are processed as they would be on their own
    and [processBatch] returns; a target whose saving throws has the error
    logged and is omitted from the results, and every file but its own is
    left as it was: its own file is left as it was too, unless the write
    failed once the file was open, which leaves it incomplete; a target
    whose provider fetch throws has that logged by [fetchAnimeInfo] and is
    then processed with [null] for its details, so that, unless its saving
    throws too, it is saved and is in the results. *)
Theorem processBatch_isolates_failures
  (provider_fetchAnimeInfo : jsstring -> result Scraper.DetailedInfo)
  (write_error : jsstring -> option jsstring)
  (write_opened : jsstring -> bool) (clock : nat -> jsstring)
  (pre : list Scraper.BasicInfo) (anime : Scraper.BasicInfo)
  (post : list Scraper.BasicInfo) (w : Scraper.World) :
  exists results1 w1 r w2 results2 w3,
    Scraper.processBatch provider_fetchAnimeInfo write_error write_opened clock pre w
    = (Ok results1, w1)
    /\ Scraper.processTarget provider_fetchAnimeInfo write_error write_opened clock anime w1
       = (Ok r, w2)
    /\ target_outcome provider_fetchAnimeInfo write_error write_opened anime w1 r w2
    /\ Scraper.processBatch provider_fetchAnimeInfo write_error write_opened clock post w2
       = (Ok results2, w3)
    /\ Scraper.processBatch provider_fetchAnimeInfo write_error write_opened clock
         (pre ++ anime :: post) w
       = (Ok (results1 ++ option_list r ++ results2), w3).
Proof.
  destruct (processBatch_app provider_fetchAnimeInfo write_error write_opened clock
              pre (anime :: post) w)
    as (results1 & w1 & rest & w3 & Hpre & Hrest & Hall).
  destruct (processBatch_cons provider_fetchAnimeInfo write_error write_opened clock
              anime post w1)
    as (r & w2 & results2 & w3' & Hr & Hout & Hpost & Hcons).
  rewrite Hrest in Hcons. injection Hcons as -> ->.
  exists results1, w1, r, w2, results2, w3'. repeat split; assumption.
Qed.

(** A write that fails once the file is open drops its target and no
    other, and leaves that target's file incomplete. *)
Example processBatch_write_failure :
  let provider : jsstring -> result Scraper.DetailedInfo :=
    fun _ => Ok (detailed []) in
  let write_error : jsstring -> option jsstring :=
    fun path => if bool_decide (path = artifact_path (js "B_92eb5ffe.json"))
                then Some (js "ENOSPC") else None in
  let run :=
    Scraper.processBatch provider write_error (fun _ => true) clock0
      [basic "a" "A"; basic "b" "B"; basic "c" "C"] world0 in
  map Scraper.animekai_id
      (match fst run with
       | Ok results => results
       | Throw _ => []
       end)
  = [js "a"; js "c"]
  /\ Scraper.files (snd run) !! artifact_path (js "B_92eb5ffe.json")
     = Some Scraper.Incomplete
  /\ is_Some (Scraper.files (snd run) !! artifact_path (js "A_0cc175b9.json"))
  /\ is_Some (Scraper.files (snd run) !! artifact_path (js "C_4a8a08f0.json")).
Proof.
  cbv zeta. split; [vm_compute; reflexivity|].
  split; [vm_compute; reflexivity|].
  split; vm_compute; eexists; reflexivity.
Qed.

(** ** The order of the episodes *)

(** C3, as stated: the provider lists episode 2 before episode 1, and the
    artifact in storage has them in that order, which is not ascending. *)
Lemma episodes_not_sorted_at_write :
  let provider : jsstring -> result Scraper.DetailedInfo :=
    fun _ => Ok (detailed [provider_episode 2 "x-ep-2"; provider_episode 1 "x-ep-1"]) in
  exists a w',
    Scraper.processBatch provider (fun _ => None) (fun _ => false) clock0 [basic "x" "X"] world0
    = (Ok [a], w')
    /\ Scraper.files w' !! artifact_path (js "X_9dd4e461.json")
       = Some (Scraper.ArtifactDoc a)
    /\ map Scraper.episode_number (Scraper.episodes a) = [js "2"; js "1"]
    /\ ~ sorted_by_ordinal (Scraper.episodes a).
Proof.
  intros provider.
  exists (Scraper.makeArtifact (basic "x" "X") (info_of (provider (js "x")))
            (clock0 1%nat)),
    (snd (Scraper.processBatch provider (fun _ => None) (fun _ => false) clock0 [basic "x" "X"]
            world0)).
  split; [vm_compute; reflexivity|]. split; [vm_compute; reflexivity|].
  split; [vm_compute; reflexivity|].
  intros Hsorted. inversion Hsorted as [|? ? _ Hhd]; subst.
  inversion Hhd as [|? ? Hle]; subst. vm_compute in Hle. now apply Hle.
Qed.

(** C3, amended. The episodes of every artifact are the provider's
    episodes, one for one and in the provider's order, and they are stored
    as they are: nothing sorts them before the write. The ascending order
    by numeric ordinal, with rank 0 for an ordinal that is not a number, is
    the order in which the consumer renders them, a permutation of the
    stored one. *)
Theorem episodes_written_in_provider_order
  (write_error : jsstring -> option jsstring)
  (write_opened : jsstring -> bool) (clock : nat -> jsstring)
  (basicInfo : Scraper.BasicInfo) (detailedInfo : option Scraper.DetailedInfo)
  (w : Scraper.World) :
  exists a w1,
    Scraper.processAnimeData clock basicInfo detailedInfo w = (Ok a, w1)
    /\ Scraper.episodes a
       = map Scraper.processEpisode
           (or_arr (Scraper.opt_field detailedInfo Scraper.d_episodes) [])
    /\ map Scraper.episode_id (Scraper.episodes a)
       = map Scraper.ep_id
           (or_arr (Scraper.opt_field detailedInfo Scraper.d_episodes) [])
    /\ match Scraper.saveAnime write_error write_opened a w1 with
       | (Ok filename, w2) =>
           Scraper.files w2 !! artifact_path filename = Some (Scraper.ArtifactDoc a)
       | (Throw _, w2) =>
           Scraper.files w2 = left_by_failed_save write_opened a (Scraper.files w1)
       end
    /\ sorted_by_ordinal (Browser.sortedEpisodes a)
    /\ Permutation (Scraper.episodes a) (Browser.sortedEpisodes a).
Proof.
  eexists _, _. split; [apply processAnimeData_returns|].
  set (a := Scraper.makeArtifact _ _ _).
  split; [reflexivity|]. split.
  { simpl. rewrite map_map. reflexivity. }
  split; [|apply sortedEpisodes_sorted].
  match goal with |- context [Scraper.saveAnime write_error write_opened a ?w0] => set (w1 := w0) end.
  destruct (save_error write_error a) as [e|] eqn:He.
  - destruct (saveAnime_throws write_error write_opened a e w1 He) as (w2 & -> & Hfiles & _).
    exact Hfiles.
  - unfold save_error in He.
    destruct (Scraper.saveAnime_filename a) as [filename|] eqn:Hf; [|discriminate].
    rewrite (saveAnime_saved write_error write_opened a filename w1 Hf He).
    apply lookup_insert_eq.
Qed.

(** ** The artifact key on both sides *)

(** The two names differ exactly where the two hashes do. *)
Lemma filenames_agree_iff (a : Scraper.Artifact) (t u : jsstring) :
  Scraper.title a = Some t ->
  (Scraper.saveAnime_filename a
   = Browser.loadAnimeData_filename {| Browser.title := Some t; Browser.url := Some u |}
   <-> Scraper.getHash (Scraper.animekai_id a) = Browser.hashString u).
Proof.
  intros Ht. unfold Scraper.saveAnime_filename, Browser.loadAnimeData_filename.
  rewrite Ht. cbn [Browser.title Browser.url].
  change (Browser.sanitizeFilename t) with (Scraper.sanitizeFilename t).
  generalize (Scraper.sanitizeFilename t) as name.
  generalize (Scraper.getHash (Scraper.animekai_id a)) as h1.
  generalize (Browser.hashString u) as h2.
  intros h2 h1 name. split.
  - intros H. assert (H' : name ++ js "_" ++ h1 ++ js ".json"
                           = name ++ js "_" ++ h2 ++ js ".json") by congruence.
    apply app_inv_head in H'.
    change (js "_" ++ h1 ++ js ".json") with (95 :: h1 ++ js ".json") in H'.
    change (js "_" ++ h2 ++ js ".json") with (95 :: h2 ++ js ".json") in H'.
    assert (H'' : h1 ++ js ".json" = h2 ++ js ".json") by congruence.
    now apply app_inv_tail in H''.
  - now intros ->.
Qed.

(** C1, on the target One Piece: the scraper saves the artifact under
    the hash of the provider id; the consumer, reading the index entry
    [createIndex] wrote, finds no [url] in it and throws before it has a
    name; and given the artifact's [url] it asks for another name. *)
Theorem artifact_key_mismatch :
  Scraper.saveAnime_filename artifact0 = Ok (js "One_Piece_a68ae9df.json")
  /\ Browser.loadAnimeData_filename (Browser.read_entry (Scraper.index_entry artifact0))
     = Throw (js "Cannot read properties of undefined (reading 'length')")
  /\ Browser.loadAnimeData_filename
       {| Browser.title := Scraper.title artifact0;
          Browser.url := Scraper.url artifact0 |}
     = Ok (js "One_Piece_1b6dd266.json").
Proof.
  split; [vm_compute; reflexivity|]. split; [vm_compute; reflexivity|].
  vm_compute; reflexivity.
Qed.

(** C2, on the one-character string U+00E9: Node digests its two UTF-8
    bytes, the browser's [hashString] digests the single code unit as one
    byte, and the two short hashes differ. *)
Theorem hashString_not_utf8 :
  NodeCrypto.utf8 [0xE9] = [0xC3; 0xA9]
  /\ Scraper.getHash [0xE9] = substring0 8 (NodeCrypto.md5_hex [0xC3; 0xA9])
  /\ Scraper.getHash [0xE9] = js "66ddcd97"
  /\ Browser.hashString [0xE9] = js "34068776".
Proof.
  split; [vm_compute; reflexivity|]. split; [vm_compute; reflexivity|].
  split; vm_compute; reflexivity.
Qed.

(** ** Further properties of the file name *)

Lemma collapse_spaces_id (s : jsstring) : forall in_run,
  Forall (fun c => is_space c = false) s -> collapse_spaces in_run s = s.
Proof.
  induction s as [|c s IH]; intros in_run Hs; simpl; [reflexivity|].
  inversion Hs as [|? ? Hc Hs']; subst. rewrite Hc. f_equal. now apply IH.
Qed.

Lemma remove_illegal_id (s : jsstring) :
  Forall (fun c => is_illegal c = false) s -> remove_illegal s = s.
Proof.
  unfold remove_illegal. induction 1 as [|c s Hc Hs IH]; [reflexivity|].
  rewrite filter_cons. destruct (decide (is_illegal c = false)); [|contradiction].
  now rewrite IH.
Qed.

(** The [trim()] of [sanitizeFilename] never strips anything: it runs after
    every white-space run has become an underscore. White space at either
    end of a title therefore leaves an underscore there. *)
Theorem sanitizeFilename_trim_is_noop (title : jsstring) :
  Scraper.sanitizeFilename title
  = take 200 (collapse_spaces false (remove_illegal title))
  /\ forall c rest, is_space c = true ->
       Scraper.sanitizeFilename (c :: rest)
       = take 200 (95 :: collapse_spaces true (remove_illegal rest)).
Proof.
  split.
  - unfold Scraper.sanitizeFilename, substring0.
    now rewrite trim_no_space by apply collapse_spaces_no_space.
  - intros c rest Hc. unfold Scraper.sanitizeFilename, substring0.
    rewrite trim_no_space by apply collapse_spaces_no_space.
    unfold remove_illegal. rewrite filter_cons.
    assert (Hill : is_illegal c = false).
    { unfold is_space in Hc. unfold is_illegal.
      apply orb_true_iff in Hc. destruct Hc as [Hc|Hc].
      - apply existsb_exists in Hc. destruct Hc as (x & Hx & Hcx).
        apply Z.eqb_eq in Hcx. subst x.
        repeat (destruct Hx as [<-|Hx]; [reflexivity|]). destruct Hx.
      - apply andb_true_iff in Hc. destruct Hc as [H1 H2].
        apply Z.leb_le in H1. apply Z.leb_le in H2.
        simpl. repeat (rewrite (proj2 (Z.eqb_neq _ _)) by lia). reflexivity. }
    destruct (decide (is_illegal c = false)); [|contradiction].
    simpl. now rewrite Hc.
Qed.

(** [sanitizeFilename] leaves a title as it is exactly when the title has
    no illegal character, no white space and at most 200 code units; in
    particular it is idempotent. *)
Theorem sanitizeFilename_fixed_points (title : jsstring) :
  (Scraper.sanitizeFilename title = title
   <-> Forall clean title /\ (length title <= 200)%nat)
  /\ Scraper.sanitizeFilename (Scraper.sanitizeFilename title)
     = Scraper.sanitizeFilename title.
Proof.
  assert (Hfix : forall s : jsstring,
             Forall clean s -> (length s <= 200)%nat ->
             Scraper.sanitizeFilename s = s).
  { intros s Hs Hlen. unfold Scraper.sanitizeFilename, substring0.
    assert (Hsp : Forall (fun c => is_space c = false) s)
      by (eapply Forall_impl; [exact Hs|]; intros c [_ H]; exact H).
    rewrite remove_illegal_id
      by (eapply Forall_impl; [exact Hs|]; intros c [H _]; exact H).
    rewrite collapse_spaces_id by exact Hsp.
    rewrite trim_no_space by exact Hsp. now apply take_ge. }
  assert (Hclean : Forall clean (Scraper.sanitizeFilename title)).
  { unfold Scraper.sanitizeFilename, substring0.
    apply Forall_take, (trim_Forall clean), collapse_spaces_clean,
      remove_illegal_legal. }
  assert (Hlen : (length (Scraper.sanitizeFilename title) <= 200)%nat).
  { unfold Scraper.sanitizeFilename, substring0. rewrite length_take. lia. }
  split; [split|].
  - intros <-. split; assumption.
  - intros [Hc Hl]. now apply Hfix.
  - now apply Hfix.
Qed.

(** ** The short hash *)

Lemma hex_digit_is_hex (d : Z) : 0 <= d < 16 -> is_hex (NodeCrypto.hex_digit d).
Proof.
  intros Hd. unfold NodeCrypto.hex_digit, is_hex.
  destruct (Z.ltb_spec d 10); lia.
Qed.

Lemma hex_byte_is_hex (b : Z) :
  0 <= b < 256 -> Forall is_hex (NodeCrypto.hex_byte b).
Proof.
  intros Hb. unfold NodeCrypto.hex_byte.
  constructor; [|constructor; [|constructor]]; apply hex_digit_is_hex.
  - split; [apply Z.div_pos; lia | apply Z.div_lt_upper_bound; lia].
  - apply Z.mod_pos_bound. lia.
Qed.

Lemma le_bytes_range (n : nat) (v : Z) :
  length (NodeCrypto.le_bytes n v) = n
  /\ Forall (fun b => 0 <= b < 256) (NodeCrypto.le_bytes n v).
Proof.
  unfold NodeCrypto.le_bytes. split.
  - now rewrite length_map, length_seq.
  - apply List.Forall_forall. intros b Hb. apply in_map_iff in Hb.
    destruct Hb as (i & <- & _). apply Z.mod_pos_bound. lia.
Qed.

Lemma flat_map_hex_byte (bytes : list Z) :
  Forall (fun b => 0 <= b < 256) bytes ->
  length (flat_map NodeCrypto.hex_byte bytes) = (2 * length bytes)%nat
  /\ Forall is_hex (flat_map NodeCrypto.hex_byte bytes).
Proof.
  induction 1 as [|b bytes Hb Hbytes [IHlen IHhex]]; simpl.
  - split; [reflexivity|constructor].
  - split; [rewrite IHlen; lia|].
    pose proof (hex_byte_is_hex b Hb) as H. unfold NodeCrypto.hex_byte in H.
    inversion H as [|? ? H1 H2]; subst. inversion H2 as [|? ? H3 _]; subst.
    constructor; [exact H1|]. constructor; [exact H3|exact IHhex].
Qed.

Lemma md5_hex_format (msg : list Z) :
  length (NodeCrypto.md5_hex msg) = 32%nat /\ Forall is_hex (NodeCrypto.md5_hex msg).
Proof.
  unfold NodeCrypto.md5_hex, NodeCrypto.md5_bytes.
  destruct (NodeCrypto.process _ _ _) as [[[a b] c] d].
  assert (H : Forall (fun b => 0 <= b < 256)
                (NodeCrypto.le_bytes 4 a ++ NodeCrypto.le_bytes 4 b
                   ++ NodeCrypto.le_bytes 4 c ++ NodeCrypto.le_bytes 4 d)).
  { repeat (apply Forall_app; split); apply le_bytes_range. }
  destruct (flat_map_hex_byte _ H) as [Hlen Hhex]. split; [|exact Hhex].
  rewrite Hlen, !length_app. now rewrite !(proj1 (le_bytes_range 4 _)).
Qed.

Lemma to_int32_small (z : Z) :
  -2147483648 <= z < 2147483648 -> Int32.to_int32 z = z.
Proof.
  intros H. unfold Int32.to_int32.
  change (2 ^ 31) with 2147483648. change (2 ^ 32) with 4294967296.
  rewrite Z.mod_small by lia. lia.
Qed.

Lemma and_255_range (x : Z) : 0 <= Int32.and x 255 < 256.
Proof.
  unfold Int32.and.
  rewrite (to_int32_small 255) by lia.
  change 255 with (Z.ones 8). rewrite Z.land_ones by lia.
  pose proof (Z.mod_pos_bound (Int32.to_int32 x) (2 ^ 8) ltac:(lia)) as Hr.
  change (2 ^ 8) with 256 in *.
  rewrite to_int32_small by lia. exact Hr.
Qed.

Lemma wordToHex_format (val : Z) :
  length (BrowserMD5.wordToHex val) = 8%nat
  /\ Forall is_hex (BrowserMD5.wordToHex val).
Proof.
  assert (Hbyte : forall v, 0 <= v < 256 ->
            let temp := BrowserMD5.toString16 v in
            let padded := if (length temp =? 1)%nat then 48 :: temp else temp in
            length padded = 2%nat /\ Forall is_hex padded).
  { intros v Hv. unfold BrowserMD5.toString16, BrowserMD5.hexDigit.
    assert (Hq : 0 <= v / 16 < 16)
      by (split; [apply Z.div_pos; lia | apply Z.div_lt_upper_bound; lia]).
    pose proof (Z.mod_pos_bound v 16 ltac:(lia)) as Hm.
    destruct (Z.ltb_spec v 16); simpl.
    - split; [reflexivity|].
      constructor; [unfold is_hex; lia|].
      constructor; [|constructor].
      unfold is_hex; destruct (Z.ltb_spec v 10); lia.
    - split; [reflexivity|].
      constructor; [|constructor; [|constructor]]; unfold is_hex;
        [destruct (Z.ltb_spec (v / 16) 10) | destruct (Z.ltb_spec (v mod 16) 10)];
        lia. }
  unfold BrowserMD5.wordToHex. cbn [flat_map].
  pose proof (Hbyte _ (and_255_range (Int32.shru val (0 * 8)))) as [L0 F0].
  pose proof (Hbyte _ (and_255_range (Int32.shru val (1 * 8)))) as [L1 F1].
  pose proof (Hbyte _ (and_255_range (Int32.shru val (2 * 8)))) as [L2 F2].
  pose proof (Hbyte _ (and_255_range (Int32.shru val (3 * 8)))) as [L3 F3].
  cbv beta zeta in *. rewrite app_nil_r. split.
  - rewrite !length_app, L0, L1, L2, L3. reflexivity.
  - repeat (apply Forall_app; split); assumption.
Qed.

Lemma browser_md5_format (str : jsstring) :
  length (BrowserMD5.md5 str) = 32%nat /\ Forall is_hex (BrowserMD5.md5 str).
Proof.
  unfold BrowserMD5.md5.
  destruct (BrowserMD5.blocks _ _ _ _) as [[[a b] c] d].
  pose proof (wordToHex_format a) as [La Fa].
  pose proof (wordToHex_format b) as [Lb Fb].
  pose proof (wordToHex_format c) as [Lc Fc].
  pose proof (wordToHex_format d) as [Ld Fd].
  split.
  - rewrite !length_app, La, Lb, Lc, Ld. reflexivity.
  - apply Forall_app; split; [exact Fa|].
    apply Forall_app; split; [exact Fb|].
    apply Forall_app; split; [exact Fc|exact Fd].
Qed.

(** Whatever the string, both short hashes are exactly eight lower-case
    hexadecimal digits. *)
Theorem short_hash_format (str : jsstring) :
  (length (Scraper.getHash str) = 8%nat /\ Forall is_hex (Scraper.getHash str))
  /\ (length (Browser.hashString str) = 8%nat
      /\ Forall is_hex (Browser.hashString str)).
Proof.
  split.
  - unfold Scraper.getHash, substring0, NodeCrypto.createHash_md5_hex.
    destruct (md5_hex_format (NodeCrypto.utf8 str)) as [Hlen Hhex].
    split; [rewrite length_take, Hlen; reflexivity | now apply Forall_take].
  - unfold Browser.hashString, BrowserMD5.hashString, substring0.
    destruct (browser_md5_format str) as [Hlen Hhex].
    split; [rewrite length_take, Hlen; reflexivity | now apply Forall_take].
Qed.

(** ** Further properties of saving *)

Lemma is_hex_clean (c : Z) : is_hex c -> clean c.
Proof.
  intros Hc. unfold is_hex in Hc.
  assert (H : In c [48; 49; 50; 51; 52; 53; 54; 55; 56; 57;
                    97; 98; 99; 100; 101; 102]).
  { simpl. lia. }
  simpl in H.
  repeat (destruct H as [<-|H]; [split; reflexivity|]). destruct H.
Qed.

Lemma sanitizeFilename_clean (title : jsstring) :
  Forall clean (Scraper.sanitizeFilename title)
  /\ (length (Scraper.sanitizeFilename title) <= 200)%nat.
Proof.
  unfold Scraper.sanitizeFilename, substring0. split.
  - apply Forall_take, (trim_Forall clean), collapse_spaces_clean,
      remove_illegal_legal.
  - rewrite length_take. lia.
Qed.

(** Every name [saveAnime] builds is a plain file name: no character that
    is illegal in a file name (so no path separator: the file stays in the
    anime directory), no white space, at most 214 code units, and the
    [.json] extension after the underscore and the eight digits of the
    hash. *)
Theorem saveAnime_filename_shape (a : Scraper.Artifact) (filename : jsstring) :
  Scraper.saveAnime_filename a = Ok filename ->
  Forall clean filename
  /\ (length filename <= 214)%nat
  /\ exists stem hash,
      filename = stem ++ js "_" ++ hash ++ js ".json"
      /\ length hash = 8%nat /\ Forall is_hex hash.
Proof.
  unfold Scraper.saveAnime_filename.
  destruct (Scraper.title a) as [t|]; [|discriminate].
  intros [= <-].
  destruct (sanitizeFilename_clean t) as [Hclean Hlen].
  destruct (md5_hex_format (NodeCrypto.utf8 (Scraper.animekai_id a)))
    as [Hhlen Hhex].
  assert (Hh : length (Scraper.getHash (Scraper.animekai_id a)) = 8%nat
               /\ Forall is_hex (Scraper.getHash (Scraper.animekai_id a))).
  { unfold Scraper.getHash, substring0, NodeCrypto.createHash_md5_hex.
    split; [rewrite length_take, Hhlen; reflexivity | now apply Forall_take]. }
  destruct Hh as [Hh8 Hhh].
  split; [|split].
  - apply Forall_app; split; [exact Hclean|].
    constructor; [split; reflexivity|].
    apply Forall_app; split.
    + eapply Forall_impl; [exact Hhh|]. intros c. apply is_hex_clean.
    + repeat (constructor; [split; reflexivity|]). constructor.
  - rewrite length_app. cbn [length]. rewrite length_app, Hh8.
    change (length (js ".json")) with 5%nat. lia.
  - eexists _, _. split; [reflexivity|]. split; assumption.
Qed.

Lemma saveAnime_filename_shape_witness :
  Forall clean (js "One_Piece_a68ae9df.json")
  /\ (length (js "One_Piece_a68ae9df.json") <= 214)%nat
  /\ exists stem hash,
      js "One_Piece_a68ae9df.json" = stem ++ js "_" ++ hash ++ js ".json"
      /\ length hash = 8%nat /\ Forall is_hex hash.
Proof.
  apply (saveAnime_filename_shape artifact0). vm_compute. reflexivity.
Defined.

Lemma artifact_path_inj (f1 f2 : jsstring) :
  artifact_path f1 = artifact_path f2 -> f1 = f2.
Proof.
  unfold artifact_path. intros H. apply app_inv_head in H.
  now apply app_inv_head in H.
Qed.

(** Two artifacts saved one after the other, both writes succeeding: the
    file of the second holds the second. Saved under the same name, the
    later one has replaced the earlier one, which is in no file of that
    name any more; saved under different names, both are kept. *)
Theorem saveAnime_last_writer_wins (write_error : jsstring -> option jsstring)
  (write_opened : jsstring -> bool)
  (a1 a2 : Scraper.Artifact) (f1 f2 : jsstring) (w : Scraper.World) :
  Scraper.saveAnime_filename a1 = Ok f1 ->
  Scraper.saveAnime_filename a2 = Ok f2 ->
  write_error (artifact_path f1) = None ->
  write_error (artifact_path f2) = None ->
  exists w1 w2,
    Scraper.saveAnime write_error write_opened a1 w = (Ok f1, w1)
    /\ Scraper.saveAnime write_error write_opened a2 w1 = (Ok f2, w2)
    /\ Scraper.files w1 !! artifact_path f1 = Some (Scraper.ArtifactDoc a1)
    /\ Scraper.files w2 !! artifact_path f2 = Some (Scraper.ArtifactDoc a2)
    /\ (f1 = f2 -> a1 <> a2 ->
        Scraper.files w2 !! artifact_path f1 <> Some (Scraper.ArtifactDoc a1))
    /\ (f1 <> f2 ->
        Scraper.files w2 !! artifact_path f1 = Some (Scraper.ArtifactDoc a1)).
Proof.
  intros Hf1 Hf2 Hw1 Hw2. eexists _, _.
  split; [now apply saveAnime_saved|]. split; [now apply saveAnime_saved|].
  cbn [Scraper.files]. split; [apply lookup_insert_eq|].
  split; [apply lookup_insert_eq|]. split.
  - intros -> Hne. rewrite lookup_insert_eq. congruence.
  - intros Hne. rewrite lookup_insert_ne.
    + apply lookup_insert_eq.
    + intros H. apply Hne. symmetry. now apply artifact_path_inj.
Qed.

Lemma saveAnime_last_writer_wins_witness :
  (exists w1 w2,
      Scraper.saveAnime (fun _ => None) (fun _ => false)
        (artifact_with [episode "1"]) world0
      = (Ok (js "One_Piece_a68ae9df.json"), w1)
      /\ Scraper.saveAnime (fun _ => None) (fun _ => false)
           (artifact_with [episode "1"; episode "2"]) w1
         = (Ok (js "One_Piece_a68ae9df.json"), w2)
      /\ Scraper.files w1 !! artifact_path (js "One_Piece_a68ae9df.json")
         = Some (Scraper.ArtifactDoc (artifact_with [episode "1"]))
      /\ Scraper.files w2 !! artifact_path (js "One_Piece_a68ae9df.json")
         = Some (Scraper.ArtifactDoc (artifact_with [episode "1"; episode "2"]))
      /\ Scraper.files w2 !! artifact_path (js "One_Piece_a68ae9df.json")
         <> Some (Scraper.ArtifactDoc (artifact_with [episode "1"])))
  /\ (exists w1 w2,
        Scraper.saveAnime (fun _ => None) (fun _ => false) artifact0 world0
        = (Ok (js "One_Piece_a68ae9df.json"), w1)
        /\ Scraper.saveAnime (fun _ => None) (fun _ => false)
             (artifact_named "A" "a") w1
           = (Ok (js "A_0cc175b9.json"), w2)
        /\ Scraper.files w2 !! artifact_path (js "A_0cc175b9.json")
           = Some (Scraper.ArtifactDoc (artifact_named "A" "a"))
        /\ Scraper.files w2 !! artifact_path (js "One_Piece_a68ae9df.json")
           = Some (Scraper.ArtifactDoc artifact0)).
Proof.
  split.
  - destruct (saveAnime_last_writer_wins (fun _ => None) (fun _ => false)
                (artifact_with [episode "1"])
                (artifact_with [episode "1"; episode "2"])
                (js "One_Piece_a68ae9df.json") (js "One_Piece_a68ae9df.json")
                world0)
      as (w1 & w2 & H1 & H2 & H3 & H4 & H5 & _);
      [vm_compute; reflexivity | vm_compute; reflexivity
       | reflexivity | reflexivity |].
    exists w1, w2. split; [exact H1|]. split; [exact H2|].
    split; [exact H3|]. split; [exact H4|].
    apply H5; [reflexivity|]. intros E.
    apply (f_equal (fun a => length (Scraper.episodes a))) in E. discriminate E.
  - destruct (saveAnime_last_writer_wins (fun _ => None) (fun _ => false)
                artifact0 (artifact_named "A" "a")
                (js "One_Piece_a68ae9df.json") (js "A_0cc175b9.json") world0)
      as (w1 & w2 & H1 & H2 & _ & H4 & _ & H6);
      [vm_compute; reflexivity | vm_compute; reflexivity
       | reflexivity | reflexivity |].
    exists w1, w2. split; [exact H1|]. split; [exact H2|]. split; [exact H4|].
    apply H6. intros E. apply (f_equal (fun l => nth 0 l 0)) in E.
    vm_compute in E. discriminate E.
Defined.

(** ** Further properties of a batch *)

Section BatchMore.

Context (provider_fetchAnimeInfo : jsstring -> result Scraper.DetailedInfo)
        (write_error : jsstring -> option jsstring)
        (write_opened : jsstring -> bool)
        (clock : nat -> jsstring).

Lemma target_outcome_id (anime : Scraper.BasicInfo) (w w' : Scraper.World)
  (a : Scraper.Artifact) :
  target_outcome provider_fetchAnimeInfo write_error write_opened anime w (Some a) w' ->
  Scraper.animekai_id a = Scraper.b_id anime.
Proof.
  intros (scraped_at & _ & H). cbv zeta in H.
  destruct (save_error _ _); [destruct H as [[=] _]|].
  destruct H as [[= ->] _]. reflexivity.
Qed.

Lemma target_outcome_files (anime : Scraper.BasicInfo) (w w' : Scraper.World)
  (r : option Scraper.Artifact) :
  target_outcome provider_fetchAnimeInfo write_error write_opened anime w r w' ->
  Scraper.files w' = Scraper.files w
  \/ exists filename doc,
      Scraper.files w' = <[artifact_path filename := doc]> (Scraper.files w).
Proof.
  intros (scraped_at & _ & H). cbv zeta in H.
  destruct (save_error _ _).
  - destruct H as (_ & Hfiles & _). unfold left_by_failed_save in Hfiles.
    destruct (Scraper.saveAnime_filename _) as [filename|]; [|now left].
    destruct (write_opened _); [right; eauto | now left].
  - right. destruct H as (_ & filename & _ & Hfiles). eauto.
Qed.

End BatchMore.

Lemma indexFile_not_artifact (f : jsstring) : Scraper.indexFile <> artifact_path f.
Proof.
  unfold artifact_path, Scraper.indexFile, Scraper.animeDir. intros H.
  apply (f_equal (fun l => nth 29 l 0)) in H.
  vm_compute in H. discriminate.
Qed.

Lemma processBatch_ids_sublist
  (provider_fetchAnimeInfo : jsstring -> result Scraper.DetailedInfo)
  (write_error : jsstring -> option jsstring)
  (write_opened : jsstring -> bool) (clock : nat -> jsstring)
  (batch : list Scraper.BasicInfo) : forall w,
  exists results w',
    Scraper.processBatch provider_fetchAnimeInfo write_error write_opened clock batch w
    = (Ok results, w')
    /\ map Scraper.animekai_id results `sublist_of` map Scraper.b_id batch.
Proof.
  induction batch as [|anime rest IH]; intros w.
  - exists [], w. split; [reflexivity|constructor].
  - destruct (processBatch_cons provider_fetchAnimeInfo write_error write_opened clock
                anime rest w) as (r & w1 & more & w2 & _ & Hout & Hrest & Hall).
    destruct (IH w1) as (more' & w2' & Hrest' & Hsub).
    rewrite Hrest in Hrest'. injection Hrest' as <- <-.
    exists (option_list r ++ more), w2. split; [exact Hall|].
    destruct r as [a|]; simpl.
    + rewrite (target_outcome_id _ _ _ _ _ _ _ Hout). now apply sublist_skip.
    + now apply sublist_cons.
Qed.

(** The artifacts [processBatch] returns are artifacts of targets of the
    batch, in the order of the batch and at most one per target. *)
Theorem processBatch_results_follow_batch
  (provider_fetchAnimeInfo : jsstring -> result Scraper.DetailedInfo)
  (write_error : jsstring -> option jsstring)
  (write_opened : jsstring -> bool) (clock : nat -> jsstring)
  (batch : list Scraper.BasicInfo) (w : Scraper.World) :
  exists results w',
    Scraper.processBatch provider_fetchAnimeInfo write_error write_opened clock batch w
    = (Ok results, w')
    /\ map Scraper.animekai_id results `sublist_of` map Scraper.b_id batch
    /\ (length results <= length batch)%nat.
Proof.
  destruct (processBatch_ids_sublist provider_fetchAnimeInfo write_error write_opened clock
              batch w) as (results & w' & Hrun & Hsub).
  exists results, w'. split; [exact Hrun|]. split; [exact Hsub|].
  apply sublist_length in Hsub. now rewrite !length_map in Hsub.
Qed.

Lemma processBatch_files
  (provider_fetchAnimeInfo : jsstring -> result Scraper.DetailedInfo)
  (write_error : jsstring -> option jsstring)
  (write_opened : jsstring -> bool) (clock : nat -> jsstring)
  (batch : list Scraper.BasicInfo) : forall w,
  exists results w',
    Scraper.processBatch provider_fetchAnimeInfo write_error write_opened clock batch w
    = (Ok results, w')
    /\ (forall path, is_Some (Scraper.files w !! path) ->
                     is_Some (Scraper.files w' !! path))
    /\ (forall path, (forall filename, path <> artifact_path filename) ->
                     Scraper.files w' !! path = Scraper.files w !! path).
Proof.
  induction batch as [|anime rest IH]; intros w.
  - exists [], w. repeat split; auto.
  - destruct (processBatch_cons provider_fetchAnimeInfo write_error write_opened clock
                anime rest w) as (r & w1 & more & w2 & _ & Hout & Hrest & Hall).
    destruct (IH w1) as (more' & w2' & Hrest' & Hkeep & Hother).
    rewrite Hrest in Hrest'. injection Hrest' as <- <-.
    exists (option_list r ++ more), w2. split; [exact Hall|].
    destruct (target_outcome_files _ _ _ _ _ _ _ Hout)
      as [Hfiles|(filename & doc & Hfiles)].
    + rewrite <- Hfiles. split; assumption.
    + split.
      * intros path Hsome. apply Hkeep. rewrite Hfiles.
        destruct (decide (artifact_path filename = path)) as [->|Hne].
        -- rewrite lookup_insert_eq. eauto.
        -- now rewrite lookup_insert_ne.
      * intros path Hpath. rewrite Hother by exact Hpath. rewrite Hfiles.
        apply lookup_insert_ne. intros Heq. now apply (Hpath filename).
Qed.

(** [processBatch] removes no file and writes nowhere but on artifact
    paths: every other file, the index among them, is as it was. *)
Theorem processBatch_touches_only_artifacts
  (provider_fetchAnimeInfo : jsstring -> result Scraper.DetailedInfo)
  (write_error : jsstring -> option jsstring)
  (write_opened : jsstring -> bool) (clock : nat -> jsstring)
  (batch : list Scraper.BasicInfo) (w : Scraper.World) :
  exists results w',
    Scraper.processBatch provider_fetchAnimeInfo write_error write_opened clock batch w
    = (Ok results, w')
    /\ (forall path, is_Some (Scraper.files w !! path) ->
                     is_Some (Scraper.files w' !! path))
    /\ (forall path, (forall filename, path <> artifact_path filename) ->
                     Scraper.files w' !! path = Scraper.files w !! path)
    /\ Scraper.files w' !! Scraper.indexFile = Scraper.files w !! Scraper.indexFile.
Proof.
  destruct (processBatch_files provider_fetchAnimeInfo write_error write_opened clock batch w)
    as (results & w' & Hrun & Hkeep & Hother).
  exists results, w'. repeat split; try assumption.
  apply Hother. apply indexFile_not_artifact.
Qed.

(** ** Which entry of the listings is kept *)

Section FirstListed.
Import Scraper.

Lemma Map_get_snoc (m : list (jsstring * BasicInfo)) (key id : jsstring)
  (value : BasicInfo) :
  Map_get (m ++ [(key, value)]) id
  = match Map_get m id with
    | Some a => Some a
    | None => if bool_decide (key = id) then Some value else None
    end.
Proof.
  unfold Map_get. induction m as [|e m IH]; simpl.
  - now destruct (bool_decide (key = id)).
  - destruct (bool_decide (fst e = id)); [reflexivity|exact IH].
Qed.

Lemma Map_has_get (m : list (jsstring * BasicInfo)) (key : jsstring) :
  Map_has m key = true <-> Map_get m key <> None.
Proof.
  unfold Map_has, Map_get. induction m as [|e m IH]; simpl.
  - split; [discriminate|congruence].
  - destruct (bool_decide (fst e = key)); simpl; [|exact IH].
    split; [discriminate|reflexivity].
Qed.

Lemma collect_list_get (animeList : list BasicInfo) (id : jsstring) :
  forall m,
    Map_get (collect_list m animeList) id
    = match Map_get m id with
      | Some a => Some a
      | None => first_listed id animeList
      end.
Proof.
  unfold first_listed.
  induction animeList as [|anime l IH]; intros m; simpl.
  - now destruct (Map_get m id).
  - rewrite IH. destruct (Map_has m (b_id anime)) eqn:Hhas; simpl.
    + destruct (Map_get m id) eqn:Hget; [reflexivity|].
      destruct (bool_decide_reflect (b_id anime = id)) as [Heq|_]; [|reflexivity].
      apply Map_has_get in Hhas. rewrite Heq in Hhas. contradiction.
    + unfold Map_set. rewrite Hhas, Map_get_snoc.
      destruct (Map_get m id); [reflexivity|].
      now destruct (bool_decide (b_id anime = id)).
Qed.

Lemma first_listed_app (id : jsstring) (l1 l2 : list BasicInfo) :
  first_listed id (l1 ++ l2)
  = match first_listed id l1 with
    | Some a => Some a
    | None => first_listed id l2
    end.
Proof.
  unfold first_listed. induction l1 as [|a l1 IH]; simpl; [reflexivity|].
  now destruct (bool_decide (b_id a = id)).
Qed.

End FirstListed.

(** Of the entries listed under one id, in any category and on any page,
    [main] keeps the first one listed. *)
Theorem collect_keeps_first_listed (listings : list (list Scraper.BasicInfo))
  (id : jsstring) :
  Map_get (Scraper.collect listings) id = first_listed id (concat listings).
Proof.
  unfold Scraper.collect.
  assert (H : forall m,
             Map_get (fold_left Scraper.collect_list listings m) id
             = match Map_get m id with
               | Some a => Some a
               | None => first_listed id (concat listings)
               end).
  { induction listings as [|l ls IH]; intros m; simpl.
    - now destruct (Map_get m id).
    - rewrite IH, collect_list_get, first_listed_app.
      destruct (Map_get m id); [reflexivity|].
      now destruct (first_listed id l). }
  apply (H []).
Qed.

(** ** The limit and the batches *)

(** With a positive limit [n], [main] processes the first [n] of the
    targets it collected, all of them when there are fewer. *)
Theorem animeToProcess_positive_limit (n : Z)
  (allAnime : list (jsstring * Scraper.BasicInfo)) :
  0 < n ->
  Scraper.animeToProcess (Some n) allAnime
  = take (Z.to_nat n) (Scraper.Map_values allAnime)
  /\ (Z.of_nat (length (Scraper.animeToProcess (Some n) allAnime)) <= n).
Proof.
  intros Hn.
  assert (H : Scraper.animeToProcess (Some n) allAnime
              = take (Z.to_nat n) (Scraper.Map_values allAnime)).
  { unfold Scraper.animeToProcess.
    destruct (Z.eqb_spec n 0) as [?|_]; [lia|]. simpl.
    destruct (Z.ltb_spec n (Z.of_nat (length (Scraper.Map_values allAnime)))).
    - unfold Scraper.slice. destruct (Z.ltb_spec n 0); [lia|]. apply drop_0.
    - symmetry. apply take_ge. lia. }
  split; [exact H|]. rewrite H, length_take. lia.
Qed.

Lemma animeToProcess_positive_limit_witness :
  Scraper.animeToProcess (Some 1) [(js "a", basic "a" "A"); (js "b", basic "b" "B")]
  = take (Z.to_nat 1)
      (Scraper.Map_values [(js "a", basic "a" "A"); (js "b", basic "b" "B")])
  /\ (Z.of_nat (length (Scraper.animeToProcess (Some 1)
                          [(js "a", basic "a" "A"); (js "b", basic "b" "B")]))
      <= 1).
Proof. apply animeToProcess_positive_limit. lia. Defined.

Lemma batches_from_sizes (l : list Scraper.BasicInfo) :
  forall fuel i, (length l - i <= fuel)%nat ->
  Forall (fun b => b <> [] /\ (length b <= 5)%nat)
         (Scraper.batches_from fuel 5 i l)
  /\ length (Scraper.batches_from fuel 5 i l) = ((length l - i + 4) / 5)%nat.
Proof.
  induction fuel as [|fuel IH]; intros i Hi; cbn [Scraper.batches_from].
  - split; [constructor|]. cbn [length].
    replace (length l - i + 4)%nat with 4%nat by lia. reflexivity.
  - destruct (Nat.ltb_spec i (length l)) as [Hlt|Hge].
    + destruct (IH (i + 5)%nat ltac:(lia)) as [Hall Hcount].
      assert (Hlen : length (Scraper.slice l i (Z.of_nat (i + 5)))
                     = (Nat.min (i + 5) (length l) - i)%nat).
      { unfold Scraper.slice.
        destruct (Z.ltb_spec (Z.of_nat (i + 5)) 0); [lia|].
        rewrite Nat2Z.id, length_drop, length_take. reflexivity. }
      split.
      * constructor; [|exact Hall]. split; [|lia].
        intros Hnil. rewrite Hnil in Hlen. cbn [length] in Hlen. lia.
      * cbn [length]. rewrite Hcount.
        destruct (Nat.le_gt_cases (length l) (i + 5)) as [Hle|Hgt].
        -- replace (length l - (i + 5) + 4)%nat with 4%nat by lia.
           change (4 / 5)%nat with 0%nat.
           apply (Nat.div_unique _ 5 1 (length l - i + 4 - 5)); lia.
        -- replace (length l - i + 4)%nat
             with ((length l - (i + 5) + 4) + 1 * 5)%nat by lia.
           rewrite Nat.div_add by lia. lia.
    + split; [constructor|]. cbn [length].
      replace (length l - i + 4)%nat with 4%nat by lia. reflexivity.
Qed.

(** [main] hands [processBatch] batches of one to five targets, and as
    many batches as it takes: a fifth of the targets, rounded up. *)
Theorem batches_sizes (animeToProcess : list Scraper.BasicInfo) :
  Forall (fun b => b <> [] /\ (length b <= 5)%nat)
         (Scraper.batches animeToProcess)
  /\ length (Scraper.batches animeToProcess)
     = ((length animeToProcess + 4) / 5)%nat.
Proof.
  unfold Scraper.batches, Scraper.concurrency.
  destruct (batches_from_sizes animeToProcess (length animeToProcess) 0
              ltac:(lia)) as [H1 H2].
  split; [exact H1|]. rewrite H2. now rewrite Nat.sub_0_r.
Qed.

(** ** The ordinal, written and read back *)










(** ** More on the consumer's sort *)

Section SortMore.

Context {A : Type} (key : A -> Z).

Let cmp (a b : A) : Z := key a - key b.

Lemma sort_insert_filter (k : Z) (x : A) (l : list A) :
  filter (fun y => key y = k) (Browser.sort_insert cmp x l)
  = filter (fun y => key y = k) (x :: l).
Proof.
  induction l as [|y l IH]; cbn [Browser.sort_insert]; [reflexivity|].
  destruct (Z.leb_spec (cmp x y) 0) as [Hle|Hgt]; [reflexivity|].
  rewrite filter_cons, IH, !filter_cons. unfold cmp in Hgt.
  destruct (decide (key y = k)), (decide (key x = k)); try reflexivity. lia.
Qed.

Lemma Array_sort_filter (k : Z) (l : list A) :
  filter (fun y => key y = k) (Browser.Array_sort cmp l)
  = filter (fun y => key y = k) l.
Proof.
  induction l as [|x l IH]; [reflexivity|]. cbn [Browser.Array_sort fold_right].
  fold (Browser.Array_sort cmp l). rewrite sort_insert_filter, !filter_cons, IH.
  reflexivity.
Qed.

Lemma Array_sort_sorted_id (l : list A) :
  Sorted (fun a b => key a <= key b) l -> Browser.Array_sort cmp l = l.
Proof.
  induction 1 as [|x l Hl IH Hhd]; [reflexivity|].
  cbn [Browser.Array_sort fold_right]. fold (Browser.Array_sort cmp l).
  rewrite IH. destruct Hhd as [|y l' Hxy]; [reflexivity|].
  cbn [Browser.sort_insert]. unfold cmp.
  destruct (Z.leb_spec (key x - key y) 0); [reflexivity|lia].
Qed.

End SortMore.

(** The consumer's sort is stable: episodes of equal rank, those whose
    ordinal is not a number among them, stay in the order in which they
    were stored. *)
Theorem sortedEpisodes_stable (anime : Scraper.Artifact) (r : Z) :
  filter (fun ep => Browser.rank (Scraper.episode_number ep) = r)
         (Browser.sortedEpisodes anime)
  = filter (fun ep => Browser.rank (Scraper.episode_number ep) = r)
           (Scraper.episodes anime).
Proof.
  apply (Array_sort_filter (fun ep => Browser.rank (Scraper.episode_number ep))).
Qed.

(** Episodes stored in ascending order are rendered in the order in which
    they were stored. *)
Theorem sortedEpisodes_of_sorted (anime : Scraper.Artifact) :
  sorted_by_ordinal (Scraper.episodes anime) ->
  Browser.sortedEpisodes anime = Scraper.episodes anime.
Proof.
  apply (Array_sort_sorted_id (fun ep => Browser.rank (Scraper.episode_number ep))).
Qed.

Lemma sortedEpisodes_of_sorted_witness :
  Browser.sortedEpisodes (artifact_with [episode "1"; episode "2"])
  = Scraper.episodes (artifact_with [episode "1"; episode "2"]).
Proof.
  apply sortedEpisodes_of_sorted.
  repeat constructor. vm_compute. discriminate.
Defined.

(** ** The arguments of the scraper *)

Lemma includes_In (args : list jsstring) (s : jsstring) :
  Run.includes args s = true <-> In s args.
Proof.
  unfold Run.includes. rewrite existsb_exists. split.
  - intros (a & Ha & Heq). apply bool_decide_eq_true in Heq. now subst.
  - intros Hs. exists s. split; [exact Hs|]. now apply bool_decide_eq_true.
Qed.

(** [--full] anywhere among the arguments lifts the limit, whatever
    [--limit] says; without it there is always a limit and it is never 0:
    a missing, unreadable or zero [--limit] gives the default of 100. *)
Theorem limit_of_arguments (args : list jsstring) :
  (Run.limit args = None <-> In (js "--full") args)
  /\ (forall n, Run.limit args = Some n -> n <> 0)
  /\ (~ In (js "--full") args ->
      (Run.customLimit args = None \/ Run.customLimit args = Some 0) ->
      Run.limit args = Some 100).
Proof.
  unfold Run.limit, Run.isFullScrape.
  pose proof (includes_In args (js "--full")) as Hfull.
  destruct (Run.includes args (js "--full")).
  - split; [|split].
    + split; [intros _; now apply Hfull | reflexivity].
    + intros n H. discriminate.
    + intros Hnot. exfalso. apply Hnot. now apply Hfull.
  - split; [|split].
    + split.
      * intros H. exfalso. unfold or_num in H.
        destruct (Run.customLimit args) as [n|]; [|discriminate].
        destruct (n =? 0); discriminate.
      * intros Hin. apply Hfull in Hin. discriminate.
    + intros n H. unfold or_num in H.
      destruct (Run.customLimit args) as [m|].
      * destruct (Z.eqb_spec m 0); injection H as <-; [discriminate|assumption].
      * injection H as <-. discriminate.
    + intros _ [->| ->]; reflexivity.
Qed.

Example limit_examples :
  Run.limit [js "--limit"; js "50"] = Some 50
  /\ Run.limit [js "--limit"; js "50"; js "--full"] = None
  /\ Run.limit [js "--limit"] = Some 100
  /\ Run.limit [js "--limit"; js "0"] = Some 100
  /\ Run.limit [js "--limit"; js "abc"] = Some 100
  /\ Run.limit [js "--limit"; js "-5"] = Some (-5)
  /\ Run.limit [] = Some 100.
Proof. repeat split; vm_compute; reflexivity. Qed.

(** ** The pages of a listing *)

Section Listing.

Context (provider_fetchList : Run.ListingMethod -> nat -> result Run.Page)
        (clock : nat -> jsstring).

Lemma fetchAnimeList_loop_bounded (category : jsstring) (n : nat) :
  forall fuel page animeList w,
    (n - page < fuel)%nat ->
    exists k w',
      (1 <= k <= S (n - page))%nat
      /\ Run.fetchAnimeList_loop provider_fetchList clock fuel category (Some n)
           animeList page w
         = (Ok (Some (animeList
                        ++ concat (map (page_results provider_fetchList
                                          (Run.method_of category))
                                       (seq page k)))), w')
      /\ Scraper.files w' = Scraper.files w
      /\ Scraper.fs_calls w' = Scraper.fs_calls w.
Proof.
  induction fuel as [|fuel IH]; intros page animeList w Hfuel; [lia|].
  cbn [Run.fetchAnimeList_loop].
  unfold Scraper.bind at 1. unfold Scraper.try_catch, Scraper.bind at 1.
  unfold page_results in *.
  destruct (provider_fetchList (Run.method_of category) page) as [data|e] eqn:Hp.
  - destruct (Run.results data) as [[|r rs]|] eqn:Hres.
    + exists 1%nat, w. split; [lia|]. cbn [seq map concat]. rewrite Hp, Hres.
      unfold Scraper.ret. cbn [default from_option]. rewrite !app_nil_r.
      repeat split.
    + unfold Scraper.ret at 1. cbv beta iota.
      destruct (Run.hasNextPage data && (page <? n)%nat) eqn:Hmore.
      * apply andb_true_iff in Hmore. destruct Hmore as [_ Hlt].
        apply Nat.ltb_lt in Hlt.
        destruct (IH (S page) (animeList ++ r :: rs) w ltac:(lia))
          as (k & w' & Hk & Hrun & Hfiles & Hcalls).
        exists (S k), w'. split; [lia|]. rewrite Hrun.
        cbn [seq map concat]. rewrite Hp, Hres. cbn [default from_option].
        unfold id. rewrite <- app_assoc. repeat split; assumption.
      * exists 1%nat, w. split; [lia|]. cbn [seq map concat]. rewrite Hp, Hres.
        unfold Scraper.ret. cbn [default from_option]. unfold id.
        rewrite !app_nil_r. repeat split.
    + exists 1%nat, w. split; [lia|]. cbn [seq map concat]. rewrite Hp, Hres.
      unfold Scraper.ret. cbn [default from_option]. rewrite !app_nil_r.
      repeat split.
  - unfold Scraper.bind at 1. rewrite log_returns. cbv beta iota.
    unfold Scraper.ret. eexists 1%nat, _. split; [lia|].
    cbn [seq map concat]. rewrite Hp, !app_nil_r. repeat split.
Qed.

End Listing.



(** Without a page bound, as in a full scrape, nothing else bounds the
    loop: while the provider keeps answering with entries and a next page,
    [fetchAnimeList] keeps fetching. *)
Theorem fetchAnimeList_unbounded
  (provider_fetchList : Run.ListingMethod -> nat -> result Run.Page)
  (clock : nat -> jsstring) (category : jsstring) :
  (forall page, exists r rs,
      provider_fetchList (Run.method_of category) page
      = Ok {| Run.results := Some (r :: rs); Run.hasNextPage := true |}) ->
  forall fuel w,
    Run.fetchAnimeList provider_fetchList clock fuel category None w
    = (Ok None, w).
Proof.
  intros Hp fuel w. unfold Run.fetchAnimeList.
  generalize (@nil Scraper.BasicInfo) as animeList. generalize 1%nat as page.
  induction fuel as [|fuel IH]; intros page animeList; [reflexivity|].
  cbn [Run.fetchAnimeList_loop].
  unfold Scraper.bind at 1. unfold Scraper.try_catch, Scraper.bind at 1.
  destruct (Hp page) as (r & rs & ->). cbn [Run.results Run.hasNextPage].
  unfold Scraper.ret at 1. cbv beta iota. cbn [andb]. apply IH.
Qed.

Lemma fetchAnimeList_unbounded_witness :
  Run.fetchAnimeList endless_listing clock0 1000 (js "tv") None world0
  = (Ok None, world0).
Proof.
  apply fetchAnimeList_unbounded. intros page. eexists _, _. reflexivity.
Defined.

(** ** A whole run *)




Lemma log_keeps (clock : nat -> jsstring) (message : jsstring)
  (w : Scraper.World) :
  exists w',
    Scraper.log clock message w = (Ok tt, w')
    /\ Scraper.files w' = Scraper.files w.
Proof. rewrite log_returns. eexists. split; reflexivity. Qed.

Ltac step_log :=
  unfold Scraper.bind at 1;
  match goal with
  | |- context [Scraper.log ?c ?m ?w0] =>
      let w' := fresh "w" in
      let Hf := fresh "Hfiles" in
      destruct (log_keeps c m w0) as (w' & -> & Hf)
  end;
  cbv beta iota.

Section WholeRun.

Context (provider_fetchAnimeInfo : jsstring -> result Scraper.DetailedInfo)
        (provider_fetchList : Run.ListingMethod -> nat -> result Run.Page)
        (write_error mkdir_error : jsstring -> option jsstring)
        (write_opened : jsstring -> bool)
        (clock : nat -> jsstring).

Lemma main_categories_returns (fuel : nat) (cats : list jsstring) :
  (3 <= fuel)%nat ->
  forall allAnime w,
    well_keyed allAnime ->
    exists allAnime' w',
      Run.main_categories provider_fetchList clock fuel false cats allAnime w
      = (Ok (Some allAnime'), w')
      /\ well_keyed allAnime'
      /\ Scraper.files w' = Scraper.files w.
Proof.
  intros Hfuel. induction cats as [|category rest IH]; intros allAnime w Hwk.
  - exists allAnime, w. split; [reflexivity|]. split; [exact Hwk|reflexivity].
  - cbn [Run.main_categories].
    unfold Scraper.bind at 1. rewrite log_returns. cbv beta iota.
    unfold Scraper.bind at 1. unfold Run.fetchAnimeList.
    match goal with
    | |- context [Run.fetchAnimeList_loop _ _ _ _ _ _ _ ?w0] =>
        destruct (fetchAnimeList_loop_bounded provider_fetchList clock category 3
                    fuel 1 [] w0 ltac:(lia))
          as (k & w1 & _ & -> & Hfiles1 & _)
    end.
    cbv beta iota. unfold Scraper.bind at 1. rewrite log_returns. cbv beta iota.
    match goal with
    | |- context [Run.main_categories _ _ _ _ _ ?m ?w0] =>
        destruct (IH m w0 ltac:(now apply collect_list_well_keyed))
          as (allAnime' & w' & -> & Hwk' & Hfiles')
    end.
    exists allAnime', w'. split; [reflexivity|]. split; [exact Hwk'|].
    rewrite Hfiles'. cbn [Scraper.files]. rewrite Hfiles1. reflexivity.
Qed.


End WholeRun.



Lemma createIndex_throws (write_error : jsstring -> option jsstring)
  (write_opened : jsstring -> bool) (clock : nat -> jsstring)
  (animeList : list Scraper.Artifact) (w : Scraper.World) (e : jsstring) :
  write_error Scraper.indexFile = Some e ->
  exists index w',
    Scraper.createIndex write_error write_opened clock animeList w = (Throw e, w')
    /\ Scraper.console w' = Scraper.console w
    /\ Scraper.fs_calls w'
       = Scraper.fs_calls w
           ++ [Scraper.WriteFileSync Scraper.indexFile (Scraper.IndexDoc index)]
    /\ Scraper.Index.anime_list index = map Scraper.index_entry animeList
    /\ Scraper.files w'
       = if write_opened Scraper.indexFile
         then <[Scraper.indexFile := Scraper.Incomplete]> (Scraper.files w)
         else Scraper.files w.
Proof.
  intros Hw.
  unfold Scraper.createIndex, Scraper.bind, Scraper.Date_toISOString,
    Scraper.writeFileSync.
  cbn [Scraper.files Scraper.fs_calls Scraper.console Scraper.now].
  rewrite Hw. eexists _, _. split; [reflexivity|]. repeat split.
Qed.

Lemma main_batches_keeps_index
  (provider_fetchAnimeInfo : jsstring -> result Scraper.DetailedInfo)
  (write_error : jsstring -> option jsstring)
  (write_opened : jsstring -> bool) (clock : nat -> jsstring)
  (all : nat) (bs : list (list Scraper.BasicInfo)) :
  forall i processedAnime w,
    exists results w',
      Run.main_batches provider_fetchAnimeInfo write_error write_opened clock
        all bs i processedAnime w
      = (Ok results, w')
      /\ Scraper.files w' !! Scraper.indexFile
         = Scraper.files w !! Scraper.indexFile.
Proof.
  induction bs as [|batch rest IH]; intros i processedAnime w.
  - exists processedAnime, w. split; reflexivity.
  - cbn [Run.main_batches].
    unfold Scraper.bind at 1. rewrite log_returns. cbv beta iota.
    unfold Scraper.bind at 1.
    match goal with
    | |- context [Scraper.processBatch _ _ _ _ _ ?w0] =>
        destruct (processBatch_files provider_fetchAnimeInfo write_error
                    write_opened clock batch w0)
          as (results & w1 & -> & _ & Hother)
    end.
    cbv beta iota.
    destruct (IH (i + Scraper.concurrency)%nat (processedAnime ++ results) w1)
      as (more & w' & -> & Hindex).
    exists more, w'. split; [reflexivity|].
    rewrite Hindex, Hother by apply indexFile_not_artifact. reflexivity.
Qed.

(** When the index file cannot be written, the run ends there with the
    error of the write as its fatal error: [createIndex] throws it and
    [main] catches nothing. The last line printed is the one that
    announces step 3, so no summary is printed; the last [fs] call is the
    write of the index that failed; and the index file is left incomplete
    when the write failed once the file was open, and as it was before the
    run otherwise. *)
Theorem main_index_write_failure
  (provider_fetchAnimeInfo : jsstring -> result Scraper.DetailedInfo)
  (provider_fetchList : Run.ListingMethod -> nat -> result Run.Page)
  (write_error mkdir_error : jsstring -> option jsstring)
  (write_opened : jsstring -> bool)
  (clock : nat -> jsstring) (fuel : nat) (args : list jsstring)
  (w : Scraper.World) (e : jsstring) :
  Run.isFullScrape args = false ->
  (3 <= fuel)%nat ->
  mkdir_error Scraper.animeDir = None ->
  write_error Scraper.indexFile = Some e ->
  exists w',
    Run.main provider_fetchAnimeInfo provider_fetchList write_error write_opened
      mkdir_error clock fuel args w = (Throw e, w')
    /\ (exists timestamp,
          last (Scraper.console w')
          = Some (js "[" ++ timestamp ++ js "] "
                    ++ (10 :: js "[Step 3] Creating index...")))
    /\ (exists index,
          last (Scraper.fs_calls w')
          = Some (Scraper.WriteFileSync Scraper.indexFile (Scraper.IndexDoc index)))
    /\ Scraper.files w' !! Scraper.indexFile
       = if write_opened Scraper.indexFile then Some Scraper.Incomplete
         else Scraper.files w !! Scraper.indexFile.
Proof.
  intros Hfull Hfuel Hmk Hwr. unfold Run.main. rewrite Hfull.
  do 4 step_log.
  unfold Scraper.bind at 1. unfold Run.mkdirSync at 1. rewrite Hmk.
  cbv beta iota zeta.
  step_log. unfold Scraper.bind at 1.
  match goal with
  | |- context [Run.main_categories _ _ _ _ _ _ ?w0] =>
      destruct (main_categories_returns provider_fetchList clock fuel
                  Run.categories Hfuel [] w0 ltac:(split; constructor))
        as (allAnime & wc & -> & _ & Hfilesc)
  end.
  cbv beta iota.
  unfold Scraper.bind at 1.
  assert (Hlimit_log :
    exists wl,
      (if match Run.limit args with
          | Some n => negb (n =? 0)
                      && (n <? Z.of_nat (length (Scraper.Map_values allAnime)))
          | None => false
          end
       then Scraper.log clock
              (10 :: js "  Limiting to "
                 ++ String_of_number (default 0 (Run.limit args)) ++ js " anime")
       else Scraper.ret tt) wc = (Ok tt, wl)
      /\ Scraper.files wl = Scraper.files wc).
  { destruct (match Run.limit args with Some _ => _ | None => _ end);
      [rewrite log_returns|]; eexists; split; reflexivity. }
  destruct Hlimit_log as (wl & -> & Hfilesl). cbv beta iota.
  step_log. unfold Scraper.bind at 1.
  match goal with
  | |- context [Run.main_batches _ _ _ _ ?all ?bs ?i ?acc ?w0] =>
      destruct (main_batches_keeps_index provider_fetchAnimeInfo write_error
                  write_opened clock all bs i acc w0)
        as (processed & wb & -> & Hindexb)
  end.
  cbv beta iota.
  unfold Scraper.bind at 1. rewrite log_returns. cbv beta iota.
  unfold Scraper.bind at 1.
  match goal with
  | |- context [Scraper.createIndex _ _ _ _ ?w0] =>
      destruct (createIndex_throws write_error write_opened clock processed w0 e Hwr)
        as (index & wi & -> & Hcons & Hcalls & _ & Hfilesi)
  end.
  cbv beta iota. exists wi. split; [reflexivity|].
  split; [|split].
  - eexists. rewrite Hcons. cbn [Scraper.console]. apply last_snoc.
  - exists index. rewrite Hcalls. apply last_snoc.
  - rewrite Hfilesi. cbn [Scraper.files].
    assert (Hchain : Scraper.files wb !! Scraper.indexFile
                     = Scraper.files w !! Scraper.indexFile).
    { rewrite Hindexb.
      repeat match goal with
             | H : Scraper.files ?x = Scraper.files _ |- context [Scraper.files ?x] =>
                 rewrite H; cbn [Scraper.files]
             end.
      reflexivity. }
    destruct (write_opened Scraper.indexFile).
    + apply lookup_insert_eq.
    + exact Hchain.
Qed.

Lemma main_index_write_failure_witness :
  exists w',
    Run.main (fun _ => Ok (detailed [])) one_page_listing
      (fun path => if bool_decide (path = Scraper.indexFile)
                   then Some (js "ENOSPC") else None)
      (fun _ => true) (fun _ => None) clock0 3 [js "--limit"; js "50"] world0
    = (Throw (js "ENOSPC"), w')
    /\ (exists timestamp,
          last (Scraper.console w')
          = Some (js "[" ++ timestamp ++ js "] "
                    ++ (10 :: js "[Step 3] Creating index...")))
    /\ (exists index,
          last (Scraper.fs_calls w')
          = Some (Scraper.WriteFileSync Scraper.indexFile (Scraper.IndexDoc index)))
    /\ Scraper.files w' !! Scraper.indexFile = Some Scraper.Incomplete.
Proof.
  apply (main_index_write_failure (fun _ => Ok (detailed [])) one_page_listing
           (fun path => if bool_decide (path = Scraper.indexFile)
                        then Some (js "ENOSPC") else None)
           (fun _ => None) (fun _ => true) clock0 3 [js "--limit"; js "50"]
           world0 (js "ENOSPC"));
    [vm_compute; reflexivity | lia | reflexivity | vm_compute; reflexivity].
Defined.

(** ** The pages of episodes *)

Section Pages.
Import BrowserUI.

Lemma pageEpisodes_nat (episodes : list Scraper.Episode) (q : nat) :
  pageEpisodes episodes (Z.of_nat (S q))
  = drop (q * 50) (take (q * 50 + 50) episodes).
Proof.
  unfold pageEpisodes, startIndex, Array_slice, EPISODES_PER_PAGE.
  replace (Z.of_nat (S q) - 1) with (Z.of_nat q) by lia.
  destruct (Z.ltb_spec (Z.of_nat q * 50) 0); [lia|].
  destruct (Z.ltb_spec (Z.of_nat q * 50 + 50) 0); [lia|].
  destruct (Z.le_gt_cases (Z.of_nat q * 50 + 50) (Z.of_nat (length episodes))).
  - rewrite !Z.min_l by lia. f_equal; [lia|]. f_equal. lia.
  - rewrite (Z.min_r (Z.of_nat q * 50 + 50)) by lia. rewrite Nat2Z.id.
    rewrite (take_ge episodes (q * 50 + 50)) by lia.
    rewrite firstn_all.
    destruct (Z.le_gt_cases (Z.of_nat q * 50) (Z.of_nat (length episodes))).
    + rewrite Z.min_l by lia. f_equal. lia.
    + rewrite Z.min_r by lia. rewrite Nat2Z.id.
      rewrite !drop_ge by lia. reflexivity.
Qed.

Lemma pages_concat (episodes : list Scraper.Episode) (n : nat) :
  concat (map (fun q => drop (q * 50) (take (q * 50 + 50) episodes)) (seq 0 n))
  = take (n * 50) episodes.
Proof.
  induction n as [|n IH]; [reflexivity|].
  rewrite seq_S, map_app, concat_app, IH. cbn [map concat plus].
  rewrite app_nil_r.
  replace (S n * 50)%nat with (n * 50 + 50)%nat by lia.
  rewrite <- (take_drop (n * 50) (take (n * 50 + 50) episodes)) at 2.
  rewrite take_take. replace (Nat.min (n * 50) (n * 50 + 50)) with (n * 50)%nat by lia.
  reflexivity.
Qed.

Lemma totalPages_bounds (episodes : list Scraper.Episode) :
  0 <= totalPages episodes
  /\ Z.of_nat (length episodes) <= totalPages episodes * 50
  /\ (totalPages episodes - 1) * 50 < Z.of_nat (length episodes)
     \/ (episodes = [] /\ totalPages episodes = 0).
Proof.
  unfold totalPages, EPISODES_PER_PAGE.
  destruct episodes as [|e l]; [right; split; reflexivity|]. left.
  set (n := Z.of_nat (length (e :: l))).
  assert (0 < n) by (subst n; cbn [length]; lia).
  pose proof (Z.div_mod (n + 50 - 1) 50 ltac:(lia)) as Hdm.
  pose proof (Z.mod_pos_bound (n + 50 - 1) 50 ltac:(lia)) as Hm.
  repeat split; [apply Z.div_pos; lia | lia | lia].
Qed.

End Pages.

(** The pages 1 to [totalPages] of [renderEpisodes] hold every episode
    once and in order, and each of them holds between 1 and 50. *)
Theorem episode_pages_partition (episodes : list Scraper.Episode) :
  concat (map (fun p => BrowserUI.pageEpisodes episodes (Z.of_nat p))
              (seq 1 (Z.to_nat (BrowserUI.totalPages episodes))))
  = episodes
  /\ forall p, 1 <= p <= BrowserUI.totalPages episodes ->
       (1 <= length (BrowserUI.pageEpisodes episodes p) <= 50)%nat.
Proof.
  split.
  - rewrite <- seq_shift, map_map.
    rewrite (map_ext _ (fun q => drop (q * 50) (take (q * 50 + 50) episodes)))
      by (intros q; apply pageEpisodes_nat).
    rewrite pages_concat. apply take_ge.
    destruct (totalPages_bounds episodes) as [(H0 & Hup & _)|[-> _]];
      [lia | cbn [length]; lia].
  - intros p Hp.
    destruct (totalPages_bounds episodes) as [(H0 & Hup & Hlow)|[_ H0]]; [|lia].
    replace p with (Z.of_nat (S (Z.to_nat (p - 1)))) by lia.
    rewrite pageEpisodes_nat, length_drop, length_take. nia.
Qed.

(** The index a button of the current page passes to [playEpisode] is the
    place of the button's episode among all the sorted episodes: the
    button plays the episode it shows. *)
Theorem episode_button_plays_its_episode (anime : Scraper.Artifact)
  (currentEpisodePage : Z) (idx : nat) (ep : Scraper.Episode) :
  1 <= currentEpisodePage ->
  BrowserUI.pageEpisodes (Browser.sortedEpisodes anime) currentEpisodePage !! idx
  = Some ep ->
  BrowserUI.playedEpisode anime (BrowserUI.actualIndex currentEpisodePage idx)
  = Some ep.
Proof.
  intros Hp Hidx.
  replace currentEpisodePage
    with (Z.of_nat (S (Z.to_nat (currentEpisodePage - 1)))) in * by lia.
  set (q := Z.to_nat (currentEpisodePage - 1)) in *.
  rewrite pageEpisodes_nat in Hidx.
  rewrite lookup_drop in Hidx.
  apply lookup_take_Some in Hidx. destruct Hidx as [Hidx _].
  unfold BrowserUI.playedEpisode, BrowserUI.Array_get, BrowserUI.actualIndex,
    BrowserUI.startIndex, BrowserUI.EPISODES_PER_PAGE.
  destruct (Z.ltb_spec ((Z.of_nat (S q) - 1) * 50 + Z.of_nat idx) 0); [lia|].
  replace (Z.to_nat ((Z.of_nat (S q) - 1) * 50 + Z.of_nat idx))
    with (q * 50 + idx)%nat by lia.
  exact Hidx.
Qed.

Lemma episode_button_plays_its_episode_witness :
  BrowserUI.playedEpisode (artifact_with [episode "2"; episode "1"])
    (BrowserUI.actualIndex 1 1)
  = Some (episode "2").
Proof.
  apply episode_button_plays_its_episode; [lia | vm_compute; reflexivity].
Defined.

(** [goToEpisodePage] only ever moves to a page that exists: it takes
    every page between 1 and [totalPages], and for any other argument it
    leaves the current page as it was; so the current page stays 1, where
    [renderAnimeDetail] puts it, or a page between 1 and [totalPages]. *)
Theorem goToEpisodePage_valid (episodes : list Scraper.Episode)
  (currentEpisodePage page : Z) :
  let next := BrowserUI.goToEpisodePage episodes currentEpisodePage page in
  (next = currentEpisodePage \/ 1 <= next <= BrowserUI.totalPages episodes)
  /\ (1 <= page <= BrowserUI.totalPages episodes -> next = page)
  /\ (page < 1 \/ BrowserUI.totalPages episodes < page ->
      next = currentEpisodePage).
Proof.
  unfold BrowserUI.goToEpisodePage.
  destruct (Z.ltb_spec page 1); cbn [orb];
    [split; [now left|split; [lia|reflexivity]]|].
  destruct (Z.ltb_spec (BrowserUI.totalPages episodes) page).
  - split; [now left|]. split; [lia|reflexivity].
  - split; [right; lia|]. split; [reflexivity|lia].
Qed.

(** ** Navigation *)

Lemma changeHero_value (featuredCount currentHeroIndex direction : Z) :
  0 <= currentHeroIndex < featuredCount ->
  -1 <= direction <= 1 ->
  BrowserUI.changeHero featuredCount currentHeroIndex direction
  = if currentHeroIndex + direction <? 0
    then currentHeroIndex + direction + featuredCount
    else if currentHeroIndex + direction <? featuredCount
         then currentHeroIndex + direction
         else currentHeroIndex + direction - featuredCount.
Proof.
  intros Hc Hd. unfold BrowserUI.changeHero.
  destruct (Z.eqb_spec featuredCount 0) as [?|Hn]; [lia|].
  rewrite Z.rem_mod_nonneg by lia.
  destruct (Z.ltb_spec (currentHeroIndex + direction) 0).
  - apply Z.mod_small. lia.
  - destruct (Z.ltb_spec (currentHeroIndex + direction) featuredCount).
    + replace (currentHeroIndex + direction + featuredCount)
        with (currentHeroIndex + direction + 1 * featuredCount) by lia.
      rewrite Z.mod_add by lia. apply Z.mod_small. lia.
    + replace (currentHeroIndex + direction + featuredCount)
        with (currentHeroIndex + direction - featuredCount + 2 * featuredCount)
        by lia.
      rewrite Z.mod_add by lia. apply Z.mod_small. lia.
Qed.

(** The hero slide index stays among the featured anime and wraps around
    at both ends; going back undoes going forward. *)
Theorem changeHero_cycles (featuredCount currentHeroIndex : Z) :
  0 <= currentHeroIndex < featuredCount ->
  0 <= BrowserUI.changeHero featuredCount currentHeroIndex 1 < featuredCount
  /\ 0 <= BrowserUI.changeHero featuredCount currentHeroIndex (-1) < featuredCount
  /\ BrowserUI.changeHero featuredCount
       (BrowserUI.changeHero featuredCount currentHeroIndex 1) (-1)
     = currentHeroIndex
  /\ BrowserUI.changeHero featuredCount (featuredCount - 1) 1 = 0
  /\ BrowserUI.changeHero featuredCount 0 (-1) = featuredCount - 1.
Proof.
  intros Hc.
  assert (Hnext : 0 <= BrowserUI.changeHero featuredCount currentHeroIndex 1
                  < featuredCount
                  /\ (BrowserUI.changeHero featuredCount currentHeroIndex 1
                      = currentHeroIndex + 1
                      \/ (currentHeroIndex = featuredCount - 1
                          /\ BrowserUI.changeHero featuredCount currentHeroIndex 1
                             = 0))).
  { rewrite changeHero_value by lia.
    destruct (Z.ltb_spec (currentHeroIndex + 1) 0); [lia|].
    destruct (Z.ltb_spec (currentHeroIndex + 1) featuredCount); lia. }
  destruct Hnext as [Hrange Hcases].
  split; [exact Hrange|]. split; [|split; [|split]].
  - rewrite changeHero_value by lia.
    destruct (Z.ltb_spec (currentHeroIndex + -1) 0); [lia|].
    destruct (Z.ltb_spec (currentHeroIndex + -1) featuredCount); lia.
  - rewrite (changeHero_value featuredCount
               (BrowserUI.changeHero featuredCount currentHeroIndex 1) (-1))
      by lia.
    destruct Hcases as [->|[-> ->]].
    + destruct (Z.ltb_spec (currentHeroIndex + 1 + -1) 0); [lia|].
      destruct (Z.ltb_spec (currentHeroIndex + 1 + -1) featuredCount); lia.
    + destruct (Z.ltb_spec (0 + -1) 0); lia.
  - rewrite changeHero_value by lia.
    destruct (Z.ltb_spec (featuredCount - 1 + 1) 0); [lia|].
    destruct (Z.ltb_spec (featuredCount - 1 + 1) featuredCount); lia.
  - rewrite changeHero_value by lia.
    destruct (Z.ltb_spec (0 + -1) 0); lia.
Qed.

Lemma changeHero_cycles_witness :
  0 <= BrowserUI.changeHero 5 4 1 < 5
  /\ 0 <= BrowserUI.changeHero 5 4 (-1) < 5
  /\ BrowserUI.changeHero 5 (BrowserUI.changeHero 5 4 1) (-1) = 4
  /\ BrowserUI.changeHero 5 (5 - 1) 1 = 0
  /\ BrowserUI.changeHero 5 0 (-1) = 5 - 1.
Proof. apply (changeHero_cycles 5 4). lia. Defined.

(** [playNext] and [playPrevious] never leave the episodes of the anime:
    at the last episode [playNext] stays, at the first [playPrevious]
    stays, and elsewhere each undoes the other. *)
Theorem play_navigation_in_range (animeData : Scraper.Artifact)
  (currentEpisodeIndex : Z) :
  0 <= currentEpisodeIndex < Z.of_nat (length (Scraper.episodes animeData)) ->
  0 <= BrowserUI.playNext (Some animeData) currentEpisodeIndex
    < Z.of_nat (length (Scraper.episodes animeData))
  /\ 0 <= BrowserUI.playPrevious currentEpisodeIndex
       < Z.of_nat (length (Scraper.episodes animeData))
  /\ (currentEpisodeIndex < Z.of_nat (length (Scraper.episodes animeData)) - 1 ->
      BrowserUI.playPrevious (BrowserUI.playNext (Some animeData) currentEpisodeIndex)
      = currentEpisodeIndex)
  /\ BrowserUI.playNext (Some animeData)
       (Z.of_nat (length (Scraper.episodes animeData)) - 1)
     = Z.of_nat (length (Scraper.episodes animeData)) - 1
  /\ BrowserUI.playPrevious 0 = 0.
Proof.
  set (len := Z.of_nat (length (Scraper.episodes animeData))).
  intros Hc. unfold BrowserUI.playNext, BrowserUI.playPrevious.
  rewrite or_zero_id. fold len.
  destruct (Z.ltb_spec currentEpisodeIndex (len - 1));
    destruct (Z.ltb_spec 0 currentEpisodeIndex);
    destruct (Z.ltb_spec (len - 1) (len - 1));
    destruct (Z.ltb_spec 0 (currentEpisodeIndex + 1));
    repeat split; lia.
Qed.

Lemma play_navigation_in_range_witness :
  0 <= BrowserUI.playNext
         (Some (artifact_with [episode "1"; episode "2"; episode "3"])) 1
    < Z.of_nat (length (Scraper.episodes
                          (artifact_with [episode "1"; episode "2"; episode "3"])))
  /\ 0 <= BrowserUI.playPrevious 1
       < Z.of_nat (length (Scraper.episodes
                             (artifact_with [episode "1"; episode "2"; episode "3"])))
  /\ (1 < Z.of_nat (length (Scraper.episodes
                              (artifact_with [episode "1"; episode "2"; episode "3"])))
          - 1 ->
      BrowserUI.playPrevious
        (BrowserUI.playNext
           (Some (artifact_with [episode "1"; episode "2"; episode "3"])) 1)
      = 1)
  /\ BrowserUI.playNext
       (Some (artifact_with [episode "1"; episode "2"; episode "3"]))
       (Z.of_nat (length (Scraper.episodes
                            (artifact_with [episode "1"; episode "2"; episode "3"])))
        - 1)
     = Z.of_nat (length (Scraper.episodes
                           (artifact_with [episode "1"; episode "2"; episode "3"])))
       - 1
  /\ BrowserUI.playPrevious 0 = 0.
Proof.
  apply (play_navigation_in_range
           (artifact_with [episode "1"; episode "2"; episode "3"]) 1).
  simpl. lia.
Defined.

(** ** The video endpoint *)

(** Every response of the endpoint carries the three CORS headers. Its
    status is 200, 400 or 500, and it is 200 with sources only for a
    request other than OPTIONS, with a readable URL and a non-empty
    [episodeId], that the provider resolved, asked for the dubbed sources
    exactly when [dub] is the string true. *)
Theorem handler_responses
  (provider_fetchEpisodeSources : jsstring -> bool -> result (list jsstring))
  (request : WatchApi.Request) :
  let response := WatchApi.handler provider_fetchEpisodeSources request in
  (forall h, In h WatchApi.corsHeaders -> In h (WatchApi.headers response))
  /\ In (WatchApi.status response) [200; 400; 500]
  /\ forall sources,
       WatchApi.body response = WatchApi.SourcesBody sources ->
       WatchApi.status response = 200
       /\ WatchApi.method request <> js "OPTIONS"
       /\ exists params c id,
           WatchApi.searchParams request = Ok params
           /\ WatchApi.get params (js "episodeId") = Some (c :: id)
           /\ provider_fetchEpisodeSources (c :: id)
                (bool_decide (WatchApi.get params (js "dub") = Some (js "true")))
              = Ok sources.
Proof.
  unfold WatchApi.handler.
  assert (Hjson : forall h, In h WatchApi.corsHeaders -> In h WatchApi.jsonHeaders)
    by (intros h Hh; unfold WatchApi.jsonHeaders; apply in_or_app; now left).
  destruct (bool_decide_reflect (WatchApi.method request = js "OPTIONS")) as [Hm|Hm].
  { cbn. split; [auto|]. split; [now left|]. intros sources [=]. }
  destruct (WatchApi.searchParams request) as [params|message] eqn:Hparams.
  2: { cbn. split; [exact Hjson|]. split; [right; right; now left|].
       intros sources [=]. }
  destruct (WatchApi.get params (js "episodeId")) as [[|c id]|] eqn:Hid.
  1, 3: cbn; (split; [exact Hjson|]); (split; [right; now left|]);
        intros sources [=].
  destruct (provider_fetchEpisodeSources (c :: id) _) as [srcs|message] eqn:Hsrc.
  - cbn. split; [exact Hjson|]. split; [now left|].
    intros sources [= <-]. split; [reflexivity|]. split; [exact Hm|].
    exists params, c, id. repeat split; assumption.
  - cbn. split; [exact Hjson|]. split; [right; right; now left|].
    intros sources [=].
Qed.

(** * The browser's digest, operation by operation *)

(** ** The browser's 32-bit arithmetic *)

Section Words.
Import Int32.

(** The unsigned 32-bit word a Number stands for. *)
Local Abbreviation u := to_uint32.

Lemma u_range (x : Z) : 0 <= u x < 4294967296.
Proof. unfold to_uint32. change (2 ^ 32) with 4294967296. apply Z.mod_pos_bound. lia. Qed.

Lemma u_small (x : Z) : 0 <= x < 4294967296 -> u x = x.
Proof. intros H. unfold to_uint32. change (2 ^ 32) with 4294967296. now apply Z.mod_small. Qed.

Lemma u_to_int32 (x : Z) : u (to_int32 x) = u x.
Proof.
  unfold to_uint32, to_int32.
  change (2 ^ 31) with 2147483648. change (2 ^ 32) with 4294967296.
  rewrite Zminus_mod, Zmod_mod, <- Zminus_mod. f_equal. lia.
Qed.

Lemma to_int32_u (x : Z) : to_int32 (u x) = to_int32 x.
Proof.
  unfold to_uint32, to_int32.
  change (2 ^ 31) with 2147483648. change (2 ^ 32) with 4294967296.
  f_equal. rewrite Zplus_mod, Zmod_mod, <- Zplus_mod. reflexivity.
Qed.

Lemma to_int32_zero (x : Z) : (to_int32 x =? 0) = (u x =? 0).
Proof.
  pose proof (u_to_int32 x) as H. pose proof (u_range x) as Hr.
  destruct (Z.eqb_spec (to_int32 x) 0) as [H0|Hne];
    destruct (Z.eqb_spec (u x) 0) as [H1|Hne1]; try reflexivity.
  - rewrite H0 in H. change (u 0) with 0 in H. congruence.
  - exfalso. apply Hne. rewrite <- to_int32_u, H1. reflexivity.
Qed.

Lemma u_bits (x : Z) (i : Z) :
  0 <= i -> Z.testbit (u x) i = (i <? 32) && Z.testbit x i.
Proof.
  intros Hi. unfold to_uint32. destruct (Z.ltb_spec i 32).
  - now rewrite Z.mod_pow2_bits_low by lia.
  - now rewrite Z.mod_pow2_bits_high by lia.
Qed.

Lemma u_land (a b : Z) : u (Z.land a b) = Z.land (u a) (u b).
Proof.
  apply Z.bits_inj'. intros i Hi.
  rewrite Z.land_spec, !u_bits, Z.land_spec by lia.
  destruct (i <? 32), (Z.testbit a i), (Z.testbit b i); reflexivity.
Qed.

Lemma u_lor (a b : Z) : u (Z.lor a b) = Z.lor (u a) (u b).
Proof.
  apply Z.bits_inj'. intros i Hi.
  rewrite Z.lor_spec, !u_bits, Z.lor_spec by lia.
  destruct (i <? 32), (Z.testbit a i), (Z.testbit b i); reflexivity.
Qed.

Lemma u_lxor (a b : Z) : u (Z.lxor a b) = Z.lxor (u a) (u b).
Proof.
  apply Z.bits_inj'. intros i Hi.
  rewrite Z.lxor_spec, !u_bits, Z.lxor_spec by lia.
  destruct (i <? 32), (Z.testbit a i), (Z.testbit b i); reflexivity.
Qed.

Lemma u_and (x y : Z) : u (and x y) = Z.land (u x) (u y).
Proof. unfold and. now rewrite u_to_int32, u_land, !u_to_int32. Qed.

Lemma u_or (x y : Z) : u (or x y) = Z.lor (u x) (u y).
Proof. unfold or. now rewrite u_to_int32, u_lor, !u_to_int32. Qed.

Lemma u_xor (x y : Z) : u (xor x y) = Z.lxor (u x) (u y).
Proof. unfold xor. now rewrite u_to_int32, u_lxor, !u_to_int32. Qed.

Lemma u_not (x : Z) : u (not x) = NodeCrypto.not32 (u x).
Proof.
  unfold not, NodeCrypto.not32. rewrite u_to_int32.
  pose proof (u_range x) as Hr. pose proof (u_to_int32 x) as Hx.
  set (t := to_int32 x) in *. unfold to_uint32 in *.
  change (2 ^ 32) with 4294967296 in *.
  pose proof (Z.div_mod t 4294967296 ltac:(lia)) as Hdm.
  symmetry. apply (Z.mod_unique _ _ (- (t / 4294967296) - 1)); [left; lia|].
  unfold Z.lnot, Z.pred. lia.
Qed.

Lemma u_add (x y : Z) : u (x + y) = NodeCrypto.add32 (u x) (u y).
Proof. unfold to_uint32, NodeCrypto.add32. apply Zplus_mod. Qed.

Lemma u_shl (x n : Z) :
  0 <= n < 32 -> u (shl x n) = Z.shiftl (u x) n mod 2 ^ 32.
Proof.
  intros Hn. unfold shl. rewrite u_to_int32, Z.mod_small by lia.
  rewrite !Z.shiftl_mul_pow2 by lia. fold (u (to_int32 x * 2 ^ n)).
  fold (u (u x * 2 ^ n)). unfold to_uint32 at 1 3.
  rewrite Zmult_mod. fold (u (to_int32 x)). rewrite u_to_int32.
  unfold to_uint32 at 1. rewrite <- Zmult_mod. unfold to_uint32.
  rewrite Zmult_mod_idemp_l. reflexivity.
Qed.

Lemma shru_shiftr (x n : Z) : 0 <= n < 32 -> shru x n = Z.shiftr (u x) n.
Proof. intros Hn. unfold shru. now rewrite Z.mod_small by lia. Qed.

Lemma u_rotateLeft (x n : Z) :
  0 < n < 32 -> u (BrowserMD5.rotateLeft x n) = NodeCrypto.rotl32 (u x) n.
Proof.
  intros Hn. unfold BrowserMD5.rotateLeft, NodeCrypto.rotl32.
  rewrite u_or, u_shl, shru_shiftr by lia. f_equal.
  apply u_small. pose proof (u_range x) as Hr.
  rewrite Z.shiftr_div_pow2 by lia. split.
  - apply Z.div_pos; lia.
  - apply Z.div_lt_upper_bound; [lia|].
    assert (1 <= 2 ^ (32 - n)) by (apply (Z.pow_le_mono_r 2 0); lia). nia.
Qed.

End Words.

Section AddUnsigned.
Import Int32.

Local Abbreviation u := to_uint32.

Lemma testbit_pow2_range (a n : Z) :
  0 <= n -> 0 <= a < 2 ^ (n + 1) -> Z.testbit a n = (2 ^ n <=? a).
Proof.
  intros Hn Ha. rewrite Z.pow_add_r in Ha by lia. change (2 ^ 1) with 2 in Ha.
  rewrite Z.testbit_eqb by lia.
  assert (Hp : 0 < 2 ^ n) by (apply Z.pow_pos_nonneg; lia).
  destruct (Z.leb_spec (2 ^ n) a).
  - assert (Hq : a / 2 ^ n = 1).
    { symmetry. apply (Z.div_unique _ _ 1 (a - 2 ^ n)); lia. }
    now rewrite Hq.
  - rewrite Z.div_small by lia. reflexivity.
Qed.

Lemma land_pow2 (a k : Z) :
  0 <= k -> Z.land a (2 ^ k) = if Z.testbit a k then 2 ^ k else 0.
Proof.
  intros Hk. apply Z.bits_inj'. intros i Hi.
  rewrite Z.land_spec, Z.pow2_bits_eqb by lia.
  destruct (Z.eqb_spec k i) as [->|Hne].
  - destruct (Z.testbit a i); [now rewrite Z.pow2_bits_true | now rewrite Z.bits_0].
  - rewrite andb_false_r.
    destruct (Z.testbit a k); [now rewrite Z.pow2_bits_false | now rewrite Z.bits_0].
Qed.

Lemma lxor_pow2 (a k : Z) :
  0 <= k ->
  Z.lxor a (2 ^ k) = if Z.testbit a k then a - 2 ^ k else a + 2 ^ k.
Proof.
  intros Hk.
  assert (Hclear : forall b, Z.testbit b k = false -> Z.lxor b (2 ^ k) = b + 2 ^ k).
  { intros b Hb. symmetry. apply Z.add_nocarry_lxor.
    now rewrite land_pow2, Hb by lia. }
  destruct (Z.testbit a k) eqn:Hbit; [|now apply Hclear].
  assert (Hb : Z.testbit (Z.lxor a (2 ^ k)) k = false)
    by now rewrite Z.lxor_spec, Hbit, Z.pow2_bits_true.
  apply Hclear in Hb.
  rewrite Z.lxor_assoc, Z.lxor_nilpotent, Z.lxor_0_r in Hb. lia.
Qed.

Lemma and_is_zero (a b : Z) : (and a b =? 0) = (Z.land (u a) (u b) =? 0).
Proof. unfold and. now rewrite to_int32_zero, u_land, !u_to_int32. Qed.

Lemma or_is_zero (a b : Z) : (or a b =? 0) = (Z.lor (u a) (u b) =? 0).
Proof. unfold or. now rewrite to_int32_zero, u_lor, !u_to_int32. Qed.

Lemma u_addUnsigned_addU (x y : Z) :
  u (BrowserMD5.addUnsigned x y) = addU (u x) (u y).
Proof.
  unfold BrowserMD5.addUnsigned, addU. cbv zeta.
  rewrite !and_is_zero, !or_is_zero, !u_and, !u_add, !u_and.
  change (u 0x80000000) with 0x80000000.
  change (u 0x40000000) with 0x40000000.
  change (u 0x3FFFFFFF) with 0x3FFFFFFF.
  destruct (negb (Z.land _ _ =? 0)).
  - now rewrite !u_xor, u_add, !u_and.
  - destruct (negb (Z.lor _ _ =? 0)).
    + destruct (negb (Z.land _ _ =? 0)); now rewrite !u_xor, u_add, !u_and.
    + now rewrite !u_xor, u_add, !u_and.
Qed.

Lemma addU_add32 (U V : Z) :
  0 <= U < 4294967296 -> 0 <= V < 4294967296 ->
  addU U V = NodeCrypto.add32 U V.
Proof.
  intros HU HV. unfold addU, NodeCrypto.add32. cbv zeta.
  change 0x80000000 with (2 ^ 31). change 0x40000000 with (2 ^ 30).
  change 0x3FFFFFFF with (Z.ones 30).
  change 0xC0000000 with (Z.lxor (2 ^ 30) (2 ^ 31)).
  rewrite !Z.land_ones by lia.
  rewrite !(land_pow2 U), !(land_pow2 V) by lia.
  (* the two top bits and the low 30 bits of each operand *)
  pose proof (Z.mod_pos_bound U (2 ^ 30) ltac:(lia)) as HlU.
  pose proof (Z.mod_pos_bound V (2 ^ 30) ltac:(lia)) as HlV.
  assert (Hdec : forall a, 0 <= a < 4294967296 ->
            a = (if Z.testbit a 31 then 2 ^ 31 else 0)
                + (if Z.testbit a 30 then 2 ^ 30 else 0) + a mod 2 ^ 30).
  { intros a Ha.
    rewrite (testbit_pow2_range a 31) by (change (2 ^ (31 + 1)) with 4294967296; lia).
    assert (H30 : Z.testbit a 30 = Z.testbit (a mod 2 ^ 31) 30)
      by (now rewrite Z.mod_pow2_bits_low by lia).
    rewrite H30.
    pose proof (Z.mod_pos_bound a (2 ^ 31) ltac:(lia)) as Hm31.
    rewrite (testbit_pow2_range (a mod 2 ^ 31) 30)
      by (change (2 ^ (30 + 1)) with (2 ^ 31); lia).
    pose proof (Z.div_mod a (2 ^ 31) ltac:(lia)) as Hd31.
    pose proof (Z.div_mod (a mod 2 ^ 31) (2 ^ 30) ltac:(lia)) as Hd30.
    assert (Hmm : (a mod 2 ^ 31) mod 2 ^ 30 = a mod 2 ^ 30).
    { apply Z.mod_mod_divide. exists 2. reflexivity. }
    pose proof (Z.mod_pos_bound a (2 ^ 30) ltac:(lia)) as Hm30.
    change (2 ^ 31) with 2147483648 in *. change (2 ^ 30) with 1073741824 in *.
    destruct (Z.leb_spec 2147483648 a);
      destruct (Z.leb_spec 1073741824 (a mod 2147483648)); lia. }
  pose proof (Hdec U HU) as HdU. pose proof (Hdec V HV) as HdV.
  remember (U mod 2 ^ 30 + V mod 2 ^ 30) as R eqn:HeqR.
  assert (HR : 0 <= R < 2 ^ 31) by (change (2 ^ 31) with (2 * 2 ^ 30); lia).
  rewrite (Z.mod_small R) by (change (2 ^ 32) with (2 * 2 ^ 31); lia).
  assert (HR31 : Z.testbit R 31 = false).
  { rewrite (testbit_pow2_range R 31)
      by (change (2 ^ (31 + 1)) with (2 * 2 ^ 31); lia).
    apply Z.leb_gt. lia. }
  assert (HR30 : Z.testbit R 30 = (2 ^ 30 <=? R))
    by (apply testbit_pow2_range; [lia | change (2 ^ (30 + 1)) with (2 ^ 31); lia]).
  assert (Hx0 : Z.lxor R 0 = R) by apply Z.lxor_0_r.
  assert (Hx31 : Z.lxor R 2147483648 = R + 2147483648).
  { change 2147483648 with (2 ^ 31). now rewrite lxor_pow2, HR31 by lia. }
  assert (Hx30 : Z.lxor R 1073741824
                 = if 2 ^ 30 <=? R then R - 1073741824 else R + 1073741824).
  { change 1073741824 with (2 ^ 30). now rewrite lxor_pow2, HR30 by lia. }
  assert (Hx3031 : Z.lxor R 3221225472
                   = (if 2 ^ 30 <=? R then R - 1073741824 else R + 1073741824)
                     + 2147483648).
  { change 3221225472 with (Z.lxor 1073741824 2147483648).
    rewrite <- Z.lxor_assoc, Hx30. change 2147483648 with (2 ^ 31).
    rewrite lxor_pow2 by lia.
    assert (Hbit : Z.testbit (if 2 ^ 30 <=? R then R - 1073741824
                              else R + 1073741824) 31 = false).
    { rewrite testbit_pow2_range; [apply Z.leb_gt | lia |];
        change (2 ^ (31 + 1)) with 4294967296; change (2 ^ 31) with 2147483648 in *;
        change (2 ^ 30) with 1073741824 in *;
        destruct (Z.leb_spec 1073741824 R); lia. }
    now rewrite Hbit. }
  rewrite (land_pow2 R), HR30 by lia.
  assert (Hfinish : forall r e : Z,
            0 <= r < 4294967296 -> U + V = 4294967296 * e + r ->
            r = (U + V) mod 2 ^ 32).
  { intros r e Hr He. change (2 ^ 32) with 4294967296.
    apply (Z.mod_unique _ _ e); [left; exact Hr | exact He]. }
  change (2 ^ 31) with 2147483648 in *. change (2 ^ 30) with 1073741824 in *.
  destruct (Z.leb_spec 1073741824 R) as [HR30'|HR30'];
  destruct (Z.testbit U 31), (Z.testbit U 30),
           (Z.testbit V 31), (Z.testbit V 30);
    cbv [Z.land Z.lor Pos.land Pos.lor Z.eqb Pos.eqb negb Z.of_N Pos.Nsucc_double
         Pos.Ndouble];
    rewrite ?Z.lxor_assoc;
    try match goal with
        | |- Z.lxor R ?k = _ =>
            let v := eval vm_compute in k in change k with v
        end;
    rewrite ?Hx0, ?Hx31, ?Hx30, ?Hx3031;
    first [apply (Hfinish _ 0); lia | apply (Hfinish _ 1); lia
          | apply (Hfinish _ 2); lia].
Qed.

(** [addUnsigned] is addition modulo 2^32 on the words its arguments
    stand for. *)
Lemma u_addUnsigned (x y : Z) :
  u (BrowserMD5.addUnsigned x y) = NodeCrypto.add32 (u x) (u y).
Proof.
  rewrite u_addUnsigned_addU. apply addU_add32; apply u_range.
Qed.

End AddUnsigned.

Section Rounds.
Import Int32.

Local Abbreviation u := to_uint32.

Lemma add32_comm (a b : Z) : NodeCrypto.add32 a b = NodeCrypto.add32 b a.
Proof. unfold NodeCrypto.add32. now rewrite Z.add_comm. Qed.

Lemma add32_chain (a f x t : Z) :
  NodeCrypto.add32 a (NodeCrypto.add32 (NodeCrypto.add32 f x) t)
  = NodeCrypto.add32 (NodeCrypto.add32 (NodeCrypto.add32 a f) x) t.
Proof.
  unfold NodeCrypto.add32.
  rewrite (Zplus_mod_idemp_l (f + x) t), (Zplus_mod_idemp_r (f + x + t) a),
    (Zplus_mod_idemp_l (a + f) x), (Zplus_mod_idemp_l (a + f + x) t).
  apply (f_equal (fun z => z mod 2 ^ 32)). lia.
Qed.

Lemma u_round (fn : Z -> Z -> Z -> Z) (i : nat) (a b c d x s ac : Z) :
  0 < s < 32 ->
  u (fn b c d) = NodeCrypto.aux i (u b) (u c) (u d) ->
  u (BrowserMD5.addUnsigned
       (BrowserMD5.rotateLeft
          (BrowserMD5.addUnsigned a
             (BrowserMD5.addUnsigned (BrowserMD5.addUnsigned (fn b c d) x) ac)) s)
       b)
  = ref_round i (u a) (u b) (u c) (u d) (u x) s (u ac).
Proof.
  intros Hs Hfn. unfold ref_round.
  rewrite u_addUnsigned, u_rotateLeft, !u_addUnsigned, Hfn by exact Hs.
  rewrite add32_comm. f_equal. f_equal. apply add32_chain.
Qed.

Lemma u_F (b c d : Z) : u (BrowserMD5.F b c d) = NodeCrypto.aux 0 (u b) (u c) (u d).
Proof. unfold BrowserMD5.F. now rewrite u_or, !u_and, u_not. Qed.

Lemma u_G (b c d : Z) : u (BrowserMD5.G b c d) = NodeCrypto.aux 16 (u b) (u c) (u d).
Proof. unfold BrowserMD5.G. now rewrite u_or, !u_and, u_not. Qed.

Lemma u_H (b c d : Z) : u (BrowserMD5.H b c d) = NodeCrypto.aux 32 (u b) (u c) (u d).
Proof. unfold BrowserMD5.H. now rewrite !u_xor. Qed.

Lemma u_I (b c d : Z) : u (BrowserMD5.I b c d) = NodeCrypto.aux 48 (u b) (u c) (u d).
Proof. unfold BrowserMD5.I. now rewrite u_xor, u_or, u_not. Qed.

End Rounds.

(** X25. [addUnsigned], which works on the two top bits and the low 30 bits
    separately, adds modulo 2^32: read as unsigned words, its result is the
    sum of its arguments modulo 2^32, whatever numbers it is given. *)
Theorem addUnsigned_adds_modulo (x y : Z) :
  Int32.to_uint32 (BrowserMD5.addUnsigned x y)
  = (Int32.to_uint32 x + Int32.to_uint32 y) mod 2 ^ 32.
Proof. exact (u_addUnsigned x y). Qed.

(** X26. [rotateLeft x n], for a count between 1 and 31, is the rotation of
    the 32-bit word by [n] places: bit [i] of the result is bit [i - n],
    modulo 32, of the argument. *)
Theorem rotateLeft_rotates_bits (x n i : Z) :
  0 < n < 32 -> 0 <= i < 32 ->
  Z.testbit (Int32.to_uint32 (BrowserMD5.rotateLeft x n)) i
  = Z.testbit (Int32.to_uint32 x) ((i - n) mod 32).
Proof.
  intros Hn Hi. rewrite u_rotateLeft by exact Hn. unfold NodeCrypto.rotl32.
  rewrite Z.lor_spec, Z.mod_pow2_bits_low, Z.shiftl_spec, Z.shiftr_spec by lia.
  destruct (Z.lt_ge_cases i n) as [Hlt|Hge].
  - rewrite (Z.testbit_neg_r _ (i - n)) by lia. cbn [orb].
    f_equal. apply (Z.mod_unique _ _ (-1)); lia.
  - rewrite (u_bits x (i + (32 - n))) by lia.
    replace (i + (32 - n) <? 32) with false by (symmetry; apply Z.ltb_ge; lia).
    cbn [andb]. rewrite orb_false_r. f_equal. symmetry. apply Z.mod_small. lia.
Qed.

Lemma rotateLeft_rotates_bits_witness :
  Z.testbit (Int32.to_uint32 (BrowserMD5.rotateLeft 0x80000001 7)) 6
  = Z.testbit (Int32.to_uint32 0x80000001) ((6 - 7) mod 32).
Proof. apply (rotateLeft_rotates_bits 0x80000001 7 6); lia. Defined.

(** X27. Each of [FF], [GG], [HH] and [II] is the step of RFC 1321 of its
    round: on unsigned words, the result is
    b + ((a + aux(b, c, d) + x + ac) <<< s) modulo 2^32, with the auxiliary
    function of rounds 1, 2, 3 and 4 respectively. *)
Theorem round_operations_are_rfc_steps (a b c d x s ac : Z) :
  0 < s < 32 ->
  Int32.to_uint32 (BrowserMD5.FF a b c d x s ac)
    = ref_round 0 (Int32.to_uint32 a) (Int32.to_uint32 b) (Int32.to_uint32 c)
        (Int32.to_uint32 d) (Int32.to_uint32 x) s (Int32.to_uint32 ac)
  /\ Int32.to_uint32 (BrowserMD5.GG a b c d x s ac)
    = ref_round 16 (Int32.to_uint32 a) (Int32.to_uint32 b) (Int32.to_uint32 c)
        (Int32.to_uint32 d) (Int32.to_uint32 x) s (Int32.to_uint32 ac)
  /\ Int32.to_uint32 (BrowserMD5.HH a b c d x s ac)
    = ref_round 32 (Int32.to_uint32 a) (Int32.to_uint32 b) (Int32.to_uint32 c)
        (Int32.to_uint32 d) (Int32.to_uint32 x) s (Int32.to_uint32 ac)
  /\ Int32.to_uint32 (BrowserMD5.II a b c d x s ac)
    = ref_round 48 (Int32.to_uint32 a) (Int32.to_uint32 b) (Int32.to_uint32 c)
        (Int32.to_uint32 d) (Int32.to_uint32 x) s (Int32.to_uint32 ac).
Proof.
  intros Hs.
  unfold BrowserMD5.FF, BrowserMD5.GG, BrowserMD5.HH, BrowserMD5.II. cbv zeta.
  split; [|split; [|split]].
  - apply (u_round BrowserMD5.F); [exact Hs | apply u_F].
  - apply (u_round BrowserMD5.G); [exact Hs | apply u_G].
  - apply (u_round BrowserMD5.H); [exact Hs | apply u_H].
  - apply (u_round BrowserMD5.I); [exact Hs | apply u_I].
Qed.

Lemma round_operations_are_rfc_steps_witness :
  Int32.to_uint32 (BrowserMD5.FF 0x67452301 0xEFCDAB89 0x98BADCFE 0x10325476
                     0x80 BrowserMD5.S11 0xD76AA478)
  = ref_round 0 0x67452301 0xEFCDAB89 0x98BADCFE 0x10325476 0x80 7 0xD76AA478.
Proof.
  exact (proj1 (round_operations_are_rfc_steps
                  0x67452301 0xEFCDAB89 0x98BADCFE 0x10325476
                  0x80 BrowserMD5.S11 0xD76AA478 ltac:(unfold BrowserMD5.S11; lia))).
Defined.

Section Hex.
Import Int32.

Local Abbreviation u := to_uint32.

Lemma to_int32_mod256 (w : Z) : to_int32 w mod 256 = w mod 256.
Proof.
  replace (to_int32 w)
    with (w + (- 16777216 * ((w + 2147483648) / 4294967296)) * 256).
  - apply Z_mod_plus_full.
  - unfold to_int32.
    change (2 ^ 31) with 2147483648. change (2 ^ 32) with 4294967296.
    pose proof (Z.div_mod (w + 2147483648) 4294967296 ltac:(lia)). lia.
Qed.

Lemma and_255 (w : Z) : and w 255 = w mod 256.
Proof.
  unfold and. change (to_int32 255) with (Z.ones 8).
  rewrite Z.land_ones by lia. change (2 ^ 8) with 256.
  rewrite to_int32_mod256.
  pose proof (Z.mod_pos_bound w 256 ltac:(lia)).
  unfold to_int32. change (2 ^ 31) with 2147483648.
  change (2 ^ 32) with 4294967296. rewrite Z.mod_small by lia. lia.
Qed.

Lemma byte_of_word (val i : Z) :
  0 <= i < 4 -> and (shru val (i * 8)) 255 = (u val / 256 ^ i) mod 256.
Proof.
  intros Hi. rewrite and_255. unfold shru.
  rewrite (Z.mod_small (i * 8)) by lia.
  rewrite Z.shiftr_div_pow2 by lia.
  replace (2 ^ (i * 8)) with (256 ^ i); [reflexivity|].
  rewrite Z.mul_comm, Z.pow_mul_r by lia. reflexivity.
Qed.

Lemma pad_byte (v : Z) :
  0 <= v < 256 ->
  (if (length (BrowserMD5.toString16 v) =? 1)%nat
   then 48 :: BrowserMD5.toString16 v else BrowserMD5.toString16 v)
  = NodeCrypto.hex_byte v.
Proof.
  intros Hv. unfold BrowserMD5.toString16, NodeCrypto.hex_byte.
  destruct (Z.ltb_spec v 16) as [Hlt|Hge]; cbn [length Nat.eqb].
  - rewrite Z.div_small, Z.mod_small by lia. reflexivity.
  - reflexivity.
Qed.

End Hex.

(** X28. [wordToHex] prints the four bytes of the word, low-order byte
    first, each as two lower-case hexadecimal digits: the bytes are those of
    the word read as unsigned, and a one-digit byte gets its leading 0. *)
Theorem wordToHex_little_endian_hex (val : Z) :
  BrowserMD5.wordToHex val
  = flat_map NodeCrypto.hex_byte (NodeCrypto.le_bytes 4 (Int32.to_uint32 val)).
Proof.
  unfold BrowserMD5.wordToHex, NodeCrypto.le_bytes.
  cbn [flat_map map seq]. cbv zeta.
  rewrite !byte_of_word by lia.
  rewrite !pad_byte by (apply Z.mod_pos_bound; lia).
  reflexivity.
Qed.

Section Padding.
Import Int32.

Local Abbreviation u := to_uint32.

Lemma lookup_map {A B : Type} (f : A -> B) (l : list A) (i : nat) :
  map f l !! i = option_map f (l !! i).
Proof. revert i. induction l as [|a l IH]; intros [|i]; cbn; auto. Qed.

Lemma rd_lookup (A : list Z) (i : nat) :
  (i < length A)%nat -> A !! i = Some (BrowserMD5.rd A i).
Proof.
  intros Hi. unfold BrowserMD5.rd.
  destruct (lookup_lt_is_Some_2 A i Hi) as [a ->]. reflexivity.
Qed.

Lemma words_lookup (bs : list Z) (j : nat) :
  (4 * j + 3 < length bs)%nat -> NodeCrypto.words bs !! j = Some (word_at bs j).
Proof.
  revert bs. induction j as [|j IH]; intros bs H;
    destruct bs as [|b0 [|b1 [|b2 [|b3 rest]]]]; cbn [length] in H; try lia.
  - reflexivity.
  - cbn [NodeCrypto.words].
    change ((b0 + 256 * b1 + 65536 * b2 + 16777216 * b3
             :: NodeCrypto.words rest) !! S j) with (NodeCrypto.words rest !! j).
    rewrite IH by lia. f_equal. unfold word_at, byte_at.
    replace (4 * S j)%nat with (S (S (S (S (4 * j))))) by lia. reflexivity.
Qed.

Lemma words_length (bs : list Z) :
  length (NodeCrypto.words bs) = (length bs / 4)%nat.
Proof.
  remember (length bs) as n eqn:E. revert bs E.
  induction n as [n IH] using lt_wf_ind. intros bs E.
  destruct bs as [|b0 [|b1 [|b2 [|b3 rest]]]]; cbn [length] in E; subst;
    try reflexivity.
  cbn [NodeCrypto.words length].
  rewrite (IH (length rest)) with (bs := rest) by (lia || reflexivity).
  replace (S (S (S (S (length rest))))) with (1 * 4 + length rest)%nat by lia.
  rewrite Nat.div_add_l by lia. lia.
Qed.

(** An array that holds, word for word, the bytes of a message is the
    message's list of words. *)
Lemma words_of_array (A bs : list Z) (n : nat) :
  length A = n -> length bs = (4 * n)%nat ->
  (forall i, (i < n)%nat -> u (BrowserMD5.rd A i) = word_at bs i) ->
  map u A = NodeCrypto.words bs.
Proof.
  intros HA Hbs H. apply list_eq. intros i.
  rewrite lookup_map. destruct (Nat.lt_ge_cases i n) as [Hlt|Hge].
  - rewrite rd_lookup, words_lookup by lia. cbn. now rewrite H.
  - rewrite !(lookup_ge_None_2 _ i); [reflexivity| |lia].
    rewrite words_length, Hbs.
    replace (4 * n)%nat with (n * 4)%nat by lia. rewrite Nat.div_mul by lia. lia.
Qed.

Lemma byte_at_ge (bs : list Z) (i : nat) :
  (length bs <= i)%nat -> byte_at bs i = 0.
Proof. intros H. unfold byte_at. now rewrite lookup_ge_None_2. Qed.

Lemma byte_at_app_l (bs cs : list Z) (i : nat) :
  (i < length bs)%nat -> byte_at (bs ++ cs) i = byte_at bs i.
Proof. intros H. unfold byte_at. now rewrite lookup_app_l. Qed.

Lemma byte_at_app_r (bs cs : list Z) (i : nat) :
  byte_at (bs ++ cs) (length bs + i) = byte_at cs i.
Proof.
  unfold byte_at. rewrite lookup_app_r by lia.
  replace (length bs + i - length bs)%nat with i by lia. reflexivity.
Qed.

Lemma byte_at_snoc (bs : list Z) (ch : Z) (i : nat) :
  byte_at (bs ++ [ch]) i = if (i =? length bs)%nat then ch else byte_at bs i.
Proof.
  destruct (Nat.eqb_spec i (length bs)) as [->|Hne].
  - pose proof (byte_at_app_r bs [ch] 0) as E.
    rewrite Nat.add_0_r in E. exact E.
  - destruct (Nat.lt_ge_cases i (length bs)).
    + now apply byte_at_app_l.
    + rewrite !byte_at_ge; [reflexivity|lia|]. rewrite length_app. cbn. lia.
Qed.

Lemma byte_at_range (bs : list Z) (i : nat) :
  Forall (fun c => 0 <= c < 256) bs -> 0 <= byte_at bs i < 256.
Proof.
  intros H. unfold byte_at. destruct (bs !! i) as [b|] eqn:E; cbn; [|lia].
  exact (proj1 (Forall_lookup _ _) H i b E).
Qed.

Lemma lor_add (W c k : Z) :
  0 <= k -> 0 <= W < 2 ^ k -> Z.lor W (Z.shiftl c k) = W + c * 2 ^ k.
Proof.
  intros Hk HW.
  assert (Hd : Z.land W (Z.shiftl c k) = 0).
  { apply Z.bits_inj'. intros i Hi. rewrite Z.land_spec, Z.bits_0.
    destruct (Z.lt_ge_cases i k).
    - rewrite Z.shiftl_spec_low by lia. apply andb_false_r.
    - rewrite <- (Z.mod_small W (2 ^ k)) by lia.
      rewrite Z.mod_pow2_bits_high by lia. reflexivity. }
  rewrite <- Z.lxor_lor by exact Hd.
  rewrite <- Z.add_nocarry_lxor by exact Hd.
  now rewrite Z.shiftl_mul_pow2.
Qed.

Lemma quarter (c : nat) :
  exists j lane : nat,
    c = (4 * j + lane)%nat /\ (lane < 4)%nat
    /\ ((c - c mod 4) / 4)%nat = j /\ (c mod 4)%nat = lane.
Proof.
  exists (c / 4)%nat, (c mod 4)%nat.
  pose proof (Nat.div_mod_eq c 4) as E.
  pose proof (Nat.mod_upper_bound c 4 ltac:(lia)) as Hlt.
  repeat split; try lia.
  replace (c - c mod 4)%nat with (c / 4 * 4)%nat by lia.
  apply Nat.div_mul. lia.
Qed.

Lemma word_at_snoc_other (bs : list Z) (ch : Z) (j j0 lane : nat) :
  length bs = (4 * j0 + lane)%nat -> (lane < 4)%nat -> j <> j0 ->
  word_at (bs ++ [ch]) j = word_at bs j.
Proof.
  intros Hc Hl Hne. unfold word_at. rewrite !byte_at_snoc.
  repeat match goal with
         | |- context [Nat.eqb ?a ?b] => destruct (Nat.eqb_spec a b); [lia|]
         end.
  reflexivity.
Qed.

Lemma word_at_snoc_same (bs : list Z) (ch : Z) (j0 lane : nat) :
  length bs = (4 * j0 + lane)%nat -> (lane < 4)%nat ->
  Forall (fun c => 0 <= c < 256) bs -> 0 <= ch < 256 ->
  Z.lor (word_at bs j0) (Z.shiftl ch (Z.of_nat lane * 8) mod 2 ^ 32)
  = word_at (bs ++ [ch]) j0.
Proof.
  intros Hc Hl Hbs Hch.
  pose proof (byte_at_range bs (4 * j0) Hbs) as R0.
  pose proof (byte_at_range bs (4 * j0 + 1) Hbs) as R1.
  pose proof (byte_at_range bs (4 * j0 + 2) Hbs) as R2.
  assert (Hsh : forall k, 0 <= k <= 24 ->
                 Z.shiftl ch k mod 2 ^ 32 = Z.shiftl ch k).
  { intros k Hk. apply Z.mod_small. rewrite Z.shiftl_mul_pow2 by lia.
    assert (0 < 2 ^ k) by (apply Z.pow_pos_nonneg; lia).
    assert (2 ^ k <= 2 ^ 24) by (apply Z.pow_le_mono_r; lia).
    change (2 ^ 24) with 16777216 in *. change (2 ^ 32) with 4294967296. nia. }
  unfold word_at. rewrite !byte_at_snoc.
  destruct lane as [|[|[|[|lane]]]]; [| | | |lia];
    repeat match goal with
           | |- context [Nat.eqb ?a ?b] =>
               destruct (Nat.eqb_spec a b); [try lia|try lia]
           end;
    rewrite Hsh by lia.
  - rewrite (byte_at_ge bs (4 * j0)), (byte_at_ge bs (4 * j0 + 1)),
      (byte_at_ge bs (4 * j0 + 2)), (byte_at_ge bs (4 * j0 + 3)) by lia.
    change (Z.of_nat 0 * 8) with 0. rewrite Z.shiftl_0_r.
    change (0 + 256 * 0 + 65536 * 0 + 16777216 * 0) with 0.
    rewrite Z.lor_0_l. lia.
  - rewrite (byte_at_ge bs (4 * j0 + 1)),
      (byte_at_ge bs (4 * j0 + 2)), (byte_at_ge bs (4 * j0 + 3)) by lia.
    change (Z.of_nat 1 * 8) with 8. rewrite lor_add by lia.
    change (2 ^ 8) with 256. lia.
  - rewrite (byte_at_ge bs (4 * j0 + 2)), (byte_at_ge bs (4 * j0 + 3)) by lia.
    change (Z.of_nat 2 * 8) with 16. rewrite lor_add by (change (2 ^ 16) with 65536; lia).
    change (2 ^ 16) with 65536. lia.
  - rewrite (byte_at_ge bs (4 * j0 + 3)) by lia.
    change (Z.of_nat 3 * 8) with 24.
    rewrite lor_add by (change (2 ^ 24) with 16777216; lia).
    change (2 ^ 24) with 16777216. lia.
Qed.

(** One turn of the loop of [convertToWordArray], and the line that sets
    the 0x80 marker: the array goes on holding the bytes read so far. *)
Lemma fill_step (A : list Z) (L : nat) (bs : list Z) (ch : Z) :
  length A = L ->
  (forall j, (j < L)%nat -> u (BrowserMD5.rd A j) = word_at bs j) ->
  Forall (fun c => 0 <= c < 256) bs -> 0 <= ch < 256 ->
  (length bs < 4 * L)%nat ->
  length (BrowserMD5.wr A ((length bs - length bs mod 4) / 4)
            (or (BrowserMD5.rd A ((length bs - length bs mod 4) / 4))
                (shl ch (Z.of_nat (length bs mod 4) * 8)))) = L
  /\ forall j, (j < L)%nat ->
       u (BrowserMD5.rd
            (BrowserMD5.wr A ((length bs - length bs mod 4) / 4)
               (or (BrowserMD5.rd A ((length bs - length bs mod 4) / 4))
                   (shl ch (Z.of_nat (length bs mod 4) * 8)))) j)
       = word_at (bs ++ [ch]) j.
Proof.
  intros HA Hinv Hbs Hch Hlt.
  destruct (quarter (length bs)) as (j0 & lane & Hc & Hl & -> & ->).
  assert (Hj0 : (j0 < L)%nat) by lia.
  unfold BrowserMD5.wr.
  replace (j0 <? length A)%nat with true by (symmetry; apply Nat.ltb_lt; lia).
  split; [now rewrite length_insert|].
  intros j Hj. unfold BrowserMD5.rd at 1.
  destruct (decide (j = j0)) as [->|Hne].
  - rewrite list_lookup_insert_eq by lia. cbn [default from_option]. unfold id.
    rewrite u_or, u_shl, Hinv, (u_small ch) by lia.
    now apply word_at_snoc_same.
  - rewrite list_lookup_insert_ne by congruence.
    fold (BrowserMD5.rd A j). rewrite Hinv by lia.
    symmetry. now apply (word_at_snoc_other bs ch j j0 lane).
Qed.

Lemma fill_words_inv (str : list Z) :
  forall (bs A : list Z) (L : nat),
    length A = L ->
    (forall j, (j < L)%nat -> u (BrowserMD5.rd A j) = word_at bs j) ->
    Forall (fun c => 0 <= c < 256) bs ->
    Forall (fun c => 0 <= c < 256) str ->
    (length bs + length str <= 4 * L)%nat ->
    length (BrowserMD5.fill_words str (length bs) A) = L
    /\ forall j, (j < L)%nat ->
         u (BrowserMD5.rd (BrowserMD5.fill_words str (length bs) A) j)
         = word_at (bs ++ str) j.
Proof.
  induction str as [|ch rest IH]; intros bs A L HA Hinv Hbs Hstr Hlen.
  - cbn [BrowserMD5.fill_words]. rewrite app_nil_r. split; assumption.
  - cbn [BrowserMD5.fill_words]. cbv zeta. cbn [length] in Hlen.
    pose proof (List.Forall_inv Hstr) as Hch. cbv beta in Hch.
    pose proof (List.Forall_inv_tail Hstr) as Hrest.
    destruct (fill_step A L bs ch HA Hinv Hbs Hch ltac:(lia)) as [HA' Hinv'].
    assert (Hbs' : Forall (fun c => 0 <= c < 256) (bs ++ [ch])).
    { apply Forall_app. split; [assumption|]. constructor; [assumption|constructor]. }
    assert (Hl' : length (bs ++ [ch]) = S (length bs))
      by (rewrite length_app; cbn; lia).
    specialize (IH (bs ++ [ch]) _ L HA' Hinv' Hbs' Hrest ltac:(lia)).
    rewrite Hl' in IH. rewrite <- app_assoc in IH. exact IH.
Qed.

Lemma word_at_app_l (P Q : list Z) (j : nat) :
  (4 * j + 3 < length P)%nat -> word_at (P ++ Q) j = word_at P j.
Proof. intros H. unfold word_at. now rewrite !byte_at_app_l by lia. Qed.

Lemma word_at_app_r (P Q : list Z) (m j : nat) :
  length P = (4 * m)%nat -> word_at (P ++ Q) (m + j) = word_at Q j.
Proof.
  intros H. unfold word_at.
  replace (4 * (m + j))%nat with (length P + 4 * j)%nat by lia.
  replace (length P + 4 * j + 1)%nat with (length P + (4 * j + 1))%nat by lia.
  replace (length P + 4 * j + 2)%nat with (length P + (4 * j + 2))%nat by lia.
  replace (length P + 4 * j + 3)%nat with (length P + (4 * j + 3))%nat by lia.
  now rewrite !byte_at_app_r.
Qed.

Lemma byte_at_zeros (B : list Z) (z t : nat) :
  byte_at (B ++ replicate z 0) t = byte_at B t.
Proof.
  destruct (Nat.lt_ge_cases t (length B)) as [Hlt|Hge].
  - now apply byte_at_app_l.
  - rewrite (byte_at_ge B t) by lia.
    replace t with (length B + (t - length B))%nat by lia.
    rewrite byte_at_app_r. unfold byte_at.
    destruct (replicate z 0 !! (t - length B)%nat) as [b|] eqn:E; [|reflexivity].
    apply lookup_replicate in E. cbn. tauto.
Qed.

Lemma word_at_zeros (B : list Z) (z j : nat) :
  word_at (B ++ replicate z 0) j = word_at B j.
Proof. unfold word_at. now rewrite !byte_at_zeros. Qed.

Lemma word_at_le_bytes (V : Z) :
  word_at (NodeCrypto.le_bytes 8 V) 0 = V mod 2 ^ 32
  /\ word_at (NodeCrypto.le_bytes 8 V) 1 = (V / 2 ^ 32) mod 2 ^ 32.
Proof.
  unfold word_at, byte_at, NodeCrypto.le_bytes. cbn [map seq].
  cbn [Nat.mul Nat.add lookup list_lookup default from_option Z.of_nat
       Pos.of_succ_nat Pos.succ].
  unfold id.
  change (256 ^ 0) with 1. change (256 ^ 1) with 256.
  change (256 ^ 2) with 65536. change (256 ^ 3) with 16777216.
  change (256 ^ 4) with 4294967296. change (256 ^ 5) with 1099511627776.
  change (256 ^ 6) with 281474976710656.
  change (256 ^ 7) with 72057594037927936.
  change (2 ^ 32) with 4294967296.
  split; Z.to_euclidean_division_equations; lia.
Qed.

End Padding.

Lemma pad_sizes (len : nat) :
  (16 <= (((len + 8) - (len + 8) mod 64) / 64 + 1) * 16
   /\ len + 1 + (119 - len mod 64) mod 64
      = 4 * ((((len + 8) - (len + 8) mod 64) / 64 + 1) * 16 - 2))%nat.
Proof.
  pose proof (Nat.div_mod_eq (len + 8) 64) as E2.
  pose proof (Nat.mod_upper_bound (len + 8) 64 ltac:(lia)) as B2.
  pose proof (Nat.div_mod_eq len 64) as E1.
  pose proof (Nat.mod_upper_bound len 64 ltac:(lia)) as B1.
  replace (len + 8 - (len + 8) mod 64)%nat with ((len + 8) / 64 * 64)%nat by lia.
  rewrite Nat.div_mul by lia.
  assert (Hz : ((119 - len mod 64) mod 64
                = if (len mod 64 <=? 55) then 55 - len mod 64
                  else 119 - len mod 64)%nat).
  { destruct (Nat.leb_spec (len mod 64) 55).
    - symmetry. apply (Nat.mod_unique _ _ 1); lia.
    - apply Nat.mod_small. lia. }
  rewrite Hz. destruct (Nat.leb_spec (len mod 64) 55); lia.
Qed.

(** X29. For a string of code units below 256 (and of a length below 2^32,
    as every JavaScript string is), [convertToWordArray] returns the padded
    message of RFC 1321 as words: the bytes of the string, the byte 0x80,
    zeros up to 56 modulo 64 bytes and the length in bits on 64 bits, four
    bytes to a word, low-order byte first. *)
Theorem convertToWordArray_pads_message (s : jsstring) :
  Forall (fun c => 0 <= c < 256) s ->
  Z.of_nat (length s) < 2 ^ 32 ->
  map Int32.to_uint32 (BrowserMD5.convertToWordArray s)
  = NodeCrypto.words (NodeCrypto.pad s).
Proof.
  intros Hs Hlen. unfold BrowserMD5.convertToWordArray. cbv zeta.
  destruct (pad_sizes (length s)) as [Hn Hz].
  set (n := ((((length s + 8) - (length s + 8) mod 64) / 64 + 1) * 16)%nat) in *.
  set (z := ((119 - length s mod 64) mod 64)%nat) in *.
  destruct (fill_words_inv s [] (replicate (n - 1) 0) (n - 1)) as [HL1 Hinv1].
  { apply length_replicate. }
  { intros j Hj. unfold BrowserMD5.rd. rewrite lookup_replicate_2 by lia.
    reflexivity. }
  { constructor. }
  { exact Hs. }
  { cbn [length]. lia. }
  cbn [length app] in HL1, Hinv1.
  set (A1 := BrowserMD5.fill_words s 0 (replicate (n - 1) 0)) in *.
  destruct (fill_step A1 (n - 1) s 128 HL1 Hinv1 Hs ltac:(lia) ltac:(lia))
    as [HL2 Hinv2].
  match goal with
  | H : length ?a = (n - 1)%nat |- _ =>
      lazymatch a with
      | BrowserMD5.wr _ _ _ => set (A2 := a) in *
      end
  end.
  unfold BrowserMD5.wr at 1 2.
  replace (n - 2 <? length A2)%nat with true
    by (symmetry; apply Nat.ltb_lt; lia).
  rewrite length_insert.
  replace (n - 1 <? length A2)%nat with false
    by (symmetry; apply Nat.ltb_ge; lia).
  replace (n - 1 - length A2)%nat with 0%nat by lia.
  cbn [replicate app].
  assert (Hpad : NodeCrypto.pad s
                 = ((s ++ [128]) ++ replicate z 0)
                     ++ NodeCrypto.le_bytes 8 ((Z.of_nat (length s) * 8) mod 2 ^ 64)).
  { unfold NodeCrypto.pad. cbv zeta. fold z. now rewrite <- !app_assoc. }
  assert (HP1 : length ((s ++ [128]) ++ replicate z 0) = (4 * (n - 2))%nat).
  { rewrite !length_app, length_replicate. cbn [length]. lia. }
  destruct (word_at_le_bytes ((Z.of_nat (length s) * 8) mod 2 ^ 64)) as [Hw0 Hw1].
  apply (words_of_array _ _ n).
  - rewrite length_app, length_insert. cbn [length]. lia.
  - rewrite Hpad, length_app, HP1. unfold NodeCrypto.le_bytes.
    rewrite length_map, length_seq. lia.
  - intros i Hi. rewrite Hpad. unfold BrowserMD5.rd.
    destruct (Nat.lt_ge_cases i (n - 2)) as [Hlt|Hge].
    + rewrite lookup_app_l by (rewrite length_insert; lia).
      rewrite list_lookup_insert_ne by lia.
      fold (BrowserMD5.rd A2 i). rewrite Hinv2 by lia.
      rewrite (word_at_app_l ((s ++ [128]) ++ replicate z 0))
        by (rewrite HP1; lia). now rewrite word_at_zeros.
    + destruct (decide (i = (n - 2)%nat)) as [->|Hne].
      * rewrite lookup_app_l by (rewrite length_insert; lia).
        rewrite list_lookup_insert_eq by lia. cbn [default from_option]. unfold id.
        pose proof (word_at_app_r _
                      (NodeCrypto.le_bytes 8 ((Z.of_nat (length s) * 8) mod 2 ^ 64))
                      (n - 2) 0 HP1) as E0.
        rewrite Nat.add_0_r in E0. rewrite E0, Hw0.
        rewrite u_shl by lia.
        rewrite (u_small (Z.of_nat (length s))) by lia.
        rewrite Z.shiftl_mul_pow2 by lia.
        change (2 ^ 3) with 8. change (2 ^ 32) with 4294967296 in *.
        change (2 ^ 64) with 18446744073709551616.
        rewrite (Z.mod_small _ 18446744073709551616) by lia. reflexivity.
      * replace i with (n - 2 + 1)%nat by lia.
        rewrite lookup_app_r by (rewrite length_insert; lia).
        rewrite length_insert.
        replace (n - 2 + 1 - length A2)%nat with 0%nat by lia.
        cbn [lookup list_lookup default from_option]. unfold id.
        rewrite (word_at_app_r _ _ (n - 2) 1 HP1), Hw1.
        rewrite shru_shiftr by lia.
        rewrite (u_small (Z.of_nat (length s))) by lia.
        rewrite Z.shiftr_div_pow2 by lia.
        change (2 ^ 29) with 536870912. change (2 ^ 32) with 4294967296 in *.
        change (2 ^ 64) with 18446744073709551616.
        rewrite (Z.mod_small _ 18446744073709551616) by lia.
        assert (Hq : Z.of_nat (length s) * 8 / 4294967296
                     = Z.of_nat (length s) / 536870912)
          by (Z.to_euclidean_division_equations; lia).
        rewrite Hq.
        assert (0 <= Z.of_nat (length s) / 536870912 < 8)
          by (Z.to_euclidean_division_equations; lia).
        rewrite (u_small (_ / _)) by lia.
        rewrite Z.mod_small by lia. reflexivity.
Qed.

Lemma convertToWordArray_pads_message_witness :
  map Int32.to_uint32 (BrowserMD5.convertToWordArray (js "abc"))
  = NodeCrypto.words (NodeCrypto.pad (js "abc")).
Proof.
  apply convertToWordArray_pads_message.
  - vm_compute. repeat constructor; discriminate.
  - vm_compute. reflexivity.
Defined.

Section DigestLoop.

Lemma wr_length_in (A : list Z) (i : nat) (v : Z) :
  (i < length A)%nat -> length (BrowserMD5.wr A i v) = length A.
Proof.
  intros Hi. unfold BrowserMD5.wr.
  replace (i <? length A)%nat with true by (symmetry; apply Nat.ltb_lt; lia).
  apply length_insert.
Qed.

Lemma fill_words_length (str : list Z) :
  forall (c : nat) (A : list Z),
    (c + length str <= 4 * length A)%nat ->
    length (BrowserMD5.fill_words str c A) = length A.
Proof.
  induction str as [|ch rest IH]; intros c A H; [reflexivity|].
  cbn [BrowserMD5.fill_words]. cbv zeta. cbn [length] in H.
  destruct (quarter c) as (j0 & lane & Hc & Hl & -> & _).
  rewrite IH; rewrite wr_length_in by lia; lia.
Qed.

Lemma convertToWordArray_length (s : jsstring) :
  length (BrowserMD5.convertToWordArray s)
  = (16 * ((length s + 8) / 64 + 1))%nat.
Proof.
  unfold BrowserMD5.convertToWordArray. cbv zeta.
  pose proof (Nat.div_mod_eq (length s + 8) 64) as E.
  pose proof (Nat.mod_upper_bound (length s + 8) 64 ltac:(lia)) as B.
  replace (length s + 8 - (length s + 8) mod 64)%nat
    with ((length s + 8) / 64 * 64)%nat by lia.
  rewrite Nat.div_mul by lia.
  set (q := ((length s + 8) / 64)%nat) in *.
  assert (H1 : length (BrowserMD5.fill_words s 0 (replicate ((q + 1) * 16 - 1) 0))
               = ((q + 1) * 16 - 1)%nat).
  { rewrite fill_words_length; rewrite length_replicate; lia. }
  destruct (quarter (length s)) as (j0 & lane & Hc & Hl & -> & _).
  set (A1 := BrowserMD5.fill_words s 0 (replicate ((q + 1) * 16 - 1) 0)) in *.
  unfold BrowserMD5.wr at 1.
  rewrite !wr_length_in by (rewrite ?wr_length_in; lia).
  rewrite H1.
  replace ((q + 1) * 16 - 1 <? (q + 1) * 16 - 1)%nat with false
    by (symmetry; apply Nat.ltb_ge; lia).
  rewrite !length_app, length_replicate, !wr_length_in
    by (rewrite ?wr_length_in; lia).
  cbn [length]. lia.
Qed.

Lemma fold_left_cons {A B : Type} (f : A -> B -> A) (b : B) (l : list B) (a : A) :
  fold_left f (b :: l) a = fold_left f l (f a b).
Proof. reflexivity. Qed.

Lemma blocks_from (x : list Z) :
  forall (fuel a : nat) (st : Z * Z * Z * Z),
    ((length x - 16 * a + 15) / 16 <= fuel)%nat ->
    BrowserMD5.blocks fuel x (16 * a) st
    = fold_left (fun st j => BrowserMD5.block x (16 * j) st)
        (seq a ((length x - 16 * a + 15) / 16)) st.
Proof.
  induction fuel as [|fuel IH]; intros a st H.
  - replace ((length x - 16 * a + 15) / 16)%nat with 0%nat by lia. reflexivity.
  - cbn [BrowserMD5.blocks].
    destruct (Nat.ltb_spec (16 * a) (length x)) as [Hlt|Hge].
    + assert (E : ((length x - 16 * a + 15) / 16
                   = S ((length x - 16 * S a + 15) / 16))%nat).
      { destruct (Nat.lt_ge_cases (length x - 16 * a) 16).
        - replace (length x - 16 * S a)%nat with 0%nat by lia.
          change ((0 + 15) / 16)%nat with 0%nat.
          symmetry. apply (Nat.div_unique _ _ _ (length x - 16 * a - 1)); lia.
        - replace (length x - 16 * a + 15)%nat
            with (1 * 16 + (length x - 16 * S a + 15))%nat by lia.
          rewrite Nat.div_add_l by lia. lia. }
      rewrite E in *. cbn [seq]. rewrite fold_left_cons. cbv beta.
      replace (16 * a + 16)%nat with (16 * S a)%nat by lia.
      apply IH. lia.
    + replace (length x - 16 * a)%nat with 0%nat by lia. reflexivity.
Qed.

End DigestLoop.

(** X30. The digest loop of [md5] visits every 16-word block of the array
    [convertToWordArray] returns, once and in order: there are
    floor((length + 8) / 64) + 1 of them, the loop applies the body at
    k = 0, 16, 32, ... to each, and it is never the iteration bound of the
    model that ends it. *)
Theorem digest_loop_visits_every_block (s : jsstring) (st : Z * Z * Z * Z) :
  BrowserMD5.blocks (length (BrowserMD5.convertToWordArray s))
    (BrowserMD5.convertToWordArray s) 0 st
  = fold_left
      (fun st j => BrowserMD5.block (BrowserMD5.convertToWordArray s) (16 * j) st)
      (seq 0 ((length s + 8) / 64 + 1)) st.
Proof.
  pose proof (blocks_from (BrowserMD5.convertToWordArray s)
                (length (BrowserMD5.convertToWordArray s)) 0 st) as H.
  change (16 * 0)%nat with 0%nat in H. rewrite Nat.sub_0_r in H.
  assert (E : ((length (BrowserMD5.convertToWordArray s) + 15) / 16
               = (length s + 8) / 64 + 1)%nat).
  { rewrite convertToWordArray_length.
    symmetry. apply (Nat.div_unique _ _ _ 15); lia. }
  rewrite E in H. apply H. rewrite convertToWordArray_length. lia.
Qed.
